(** * covid_data.py: the [CovidData] aggregator

    A shallow embedding of [src/covid_data.py].  The two methods of the
    class, [routesToWeightedEdges] and [getData], are written in a small
    state-and-exception monad over a store of data frames, because the
    Python code allocates frames ([copy], [fillna], [.loc], [groupby]) and
    mutates some of them in place ([df[col] = 1], [df.columns = ...]).

    The pandas operations the code calls are modelled in [Module pd] for
    the fragment the code uses:
    - a cell is missing ([NaN]/[None]), an [int64], a number of dtype
      [float64] (held as an exact rational: rounding is not modelled, and
      no theorem gives the value of a [float64] cell the code computes) or
      a string;
    - a frame has named index levels (non-empty only for the result of a
      [groupby]), column labels and rows; the default positional index
      carries no data and is left out;
    - column labels are strings, distinct within a frame as in the CSV
      files the tables come from; [df[c]] is the column labelled [c];
    - [groupby] uses the pandas defaults [sort=True] and [dropna=True]
      and groups by the columns its labels name; a label that is not a
      column raises [KeyError].  pandas has one more case, which is not
      modelled: a list of as many labels as the frame has rows, not all
      of them columns, is taken for the group values themselves.  Where a
      theorem describes the columns or the rows of a grouped table it
      assumes that the grouping columns are present, and where it states
      the [KeyError], that the number of rows is not the number of labels;
    - summing or averaging a column that holds a string raises
      [TypeError] (what pandas does there depends on its version); the
      theorems that give the value of a sum are about columns of
      integers, and none gives the value of a mean.

    Python's [assert] is taken as executed (the interpreter is not run
    with [-O]). *)

From Stdlib Require Import String Ascii List ZArith QArith Bool Arith Lia.
Import ListNotations.

Open Scope string_scope.
Open Scope list_scope.
Open Scope nat_scope.

(** ** Python exceptions and results *)

Inductive exn : Type :=
| AssertionError (msg : string)
| KeyError (key : string)
| IndexError
| ValueError
| TypeError
| Dangling.   (* a reference that points to no object: cannot arise in Python *)

Inductive result (A : Type) : Type :=
| Ok (a : A)
| Raise (e : exn).
Arguments Ok {A} a.
Arguments Raise {A} e.

Definition rbind {A B} (r : result A) (k : A -> result B) : result B :=
  match r with
  | Ok a => k a
  | Raise e => Raise e
  end.

Fixpoint rmap {A B} (f : A -> result B) (l : list A) : result (list B) :=
  match l with
  | [] => Ok []
  | a :: l' => rbind (f a) (fun b => rbind (rmap f l') (fun bs => Ok (b :: bs)))
  end.

(** ** Cells *)

Inductive cell : Type :=
| CNaN
| CInt (z : Z)
| CFloat (q : Q)
| CStr (s : string).

Definition isna (c : cell) : bool :=
  match c with CNaN => true | _ => false end.

Definition num_of (c : cell) : option Q :=
  match c with
  | CInt z => Some (inject_Z z)
  | CFloat q => Some q
  | _ => None
  end.

(** Python's [==] on cell values: numbers by value, strings by content,
    a missing value equal to nothing (not even itself). *)
Definition cell_eqb (a b : cell) : bool :=
  match num_of a, num_of b with
  | Some x, Some y => Qeq_bool x y
  | _, _ =>
      match a, b with
      | CStr s, CStr t => String.eqb s t
      | _, _ => false
      end
  end.

(** The order pandas sorts group keys in: numbers first, by value, then
    strings by code point, missing values last. *)
Definition cell_leb (a b : cell) : bool :=
  match num_of a, num_of b with
  | Some x, Some y => Qle_bool x y
  | Some _, None => true
  | None, Some _ => false
  | None, None =>
      match a, b with
      | CStr s, CStr t => String.leb s t
      | CStr _, _ => true
      | _, CStr _ => false
      | _, _ => true
      end
  end.

Definition key := list cell.

Fixpoint key_eqb (k1 k2 : key) : bool :=
  match k1, k2 with
  | [], [] => true
  | a :: k1', b :: k2' => cell_eqb a b && key_eqb k1' k2'
  | _, _ => false
  end.

Fixpoint key_leb (k1 k2 : key) : bool :=
  match k1, k2 with
  | [], _ => true
  | _ :: _, [] => false
  | a :: k1', b :: k2' => if cell_eqb a b then key_leb k1' k2' else cell_leb a b
  end.

(** ** Generic list helpers *)

Fixpoint index_of (s : string) (l : list string) : option nat :=
  match l with
  | [] => None
  | x :: l' => if String.eqb x s then Some 0 else option_map S (index_of s l')
  end.

Definition mem (s : string) (l : list string) : bool :=
  existsb (String.eqb s) l.

Fixpoint set_nth {A} (n : nat) (a : A) (l : list A) : list A :=
  match l, n with
  | [], _ => []
  | _ :: l', 0 => a :: l'
  | x :: l', S n' => x :: set_nth n' a l'
  end.

(** First occurrences, in order of appearance. *)
Fixpoint uniq (ks : list key) : list key :=
  match ks with
  | [] => []
  | k :: ks' => k :: filter (fun k' => negb (key_eqb k k')) (uniq ks')
  end.

Fixpoint insert_key (k : key) (ks : list key) : list key :=
  match ks with
  | [] => [k]
  | k' :: ks' => if key_leb k k' then k :: ks else k' :: insert_key k ks'
  end.

Fixpoint sort_keys (ks : list key) : list key :=
  match ks with
  | [] => []
  | k :: ks' => insert_key k (sort_keys ks')
  end.

(** ** Data frames *)

Record Row : Type := mkRow { idx : list cell; vals : list cell }.

Record DataFrame : Type := mkDF {
  index_names : list string;
  columns : list string;
  rows : list Row
}.

(** A frame with the default index, from its column labels and its rows. *)
Definition table (cols : list string) (data : list (list cell)) : DataFrame :=
  mkDF [] cols (map (mkRow []) data).

Inductive dtype : Type := Int64 | Float64 | Object.

Inductive aggfunc : Type := Mean | Sum.

Definition wrap64 (z : Z) : Z :=
  ((z + 2 ^ 63) mod 2 ^ 64 - 2 ^ 63)%Z.

Module pd.

Definition is_int (c : cell) : bool :=
  match c with CInt _ => true | _ => false end.

Definition is_num_or_na (c : cell) : bool :=
  match c with CStr _ => false | _ => true end.

Definition dtype_of (cs : list cell) : dtype :=
  if forallb is_int cs then Int64
  else if forallb is_num_or_na cs then Float64
  else Object.

Definition int_of (c : cell) : Z :=
  match c with CInt z => z | _ => 0%Z end.

(** The numbers of a column, missing values skipped ([skipna=True]). *)
Fixpoint nums (cs : list cell) : list Q :=
  match cs with
  | [] => []
  | c :: cs' =>
      match num_of c with
      | Some q => q :: nums cs'
      | None => nums cs'
      end
  end.

Definition Zsum (l : list Z) : Z := fold_right Z.add 0%Z l.
Definition Qsum (l : list Q) : Q := fold_right Qplus 0%Q l.

Definition agg_sum (dt : dtype) (cs : list cell) : result cell :=
  match dt with
  | Int64 => Ok (CInt (wrap64 (Zsum (map int_of cs))))
  | Float64 => Ok (CFloat (Qred (Qsum (nums cs))))
  | Object => Raise TypeError
  end.

Definition agg_mean (dt : dtype) (cs : list cell) : result cell :=
  match dt with
  | Object => Raise TypeError
  | _ =>
      match nums cs with
      | [] => Ok CNaN
      | qs => Ok (CFloat (Qred (Qsum qs / inject_Z (Z.of_nat (length qs)))))
      end
  end.

Definition agg (f : aggfunc) : dtype -> list cell -> result cell :=
  match f with
  | Mean => agg_mean
  | Sum => agg_sum
  end.

Definition func_name (f : aggfunc) : string :=
  match f with
  | Mean => "mean"
  | Sum => "sum"
  end.

(** [df.fillna(v)]: a new frame, missing data cells replaced. *)
Definition fillna (v : cell) (df : DataFrame) : DataFrame :=
  mkDF (index_names df) (columns df)
       (map (fun r => mkRow (idx r) (map (fun c => if isna c then v else c) (vals r)))
            (rows df)).

Definition column_at (i : nat) (rs : list Row) : list cell :=
  map (fun r => nth i (vals r) CNaN) rs.

(** [df[c]]: the cells of a column, [KeyError] when there is none. *)
Definition getitem (df : DataFrame) (c : string) : result (list cell) :=
  match index_of c (columns df) with
  | Some i => Ok (column_at i (rows df))
  | None => Raise (KeyError c)
  end.

(** [series == v], elementwise. *)
Definition series_eq (s : list cell) (v : cell) : list bool :=
  map (fun c => cell_eqb c v) s.

(** [m1 & m2], elementwise. *)
Definition mask_and (m1 m2 : list bool) : list bool :=
  map (fun p => fst p && snd p) (combine m1 m2).

(** [df.loc[mask]]: a new frame with the rows the mask selects. *)
Definition loc_mask (df : DataFrame) (m : list bool) : DataFrame :=
  mkDF (index_names df) (columns df)
       (map fst (filter snd (combine (rows df) m))).

(** [df[c] = v] for a scalar [v]: overwrites the column, or appends it. *)
Definition setitem (df : DataFrame) (c : string) (v : cell) : DataFrame :=
  match index_of c (columns df) with
  | Some i =>
      mkDF (index_names df) (columns df)
           (map (fun r => mkRow (idx r) (set_nth i v (vals r))) (rows df))
  | None =>
      mkDF (index_names df) (columns df ++ [c])
           (map (fun r => mkRow (idx r) (vals r ++ [v])) (rows df))
  end.

(** *** Grouping *)

Definition key_of (ixs : list nat) (r : Row) : key :=
  map (fun i => nth i (vals r) CNaN) ixs.

Definition key_indices (df : DataFrame) (by_ : list string) : result (list nat) :=
  rmap (fun c => match index_of c (columns df) with
                 | Some i => Ok i
                 | None => Raise (KeyError c)
                 end) by_.

(** Rows whose key holds a missing value are dropped ([dropna=True]). *)
Definition keyed (ixs : list nat) (rs : list Row) : list Row :=
  filter (fun r => negb (existsb isna (key_of ixs r))) rs.

Definition group_keys (ixs : list nat) (rs : list Row) : list key :=
  sort_keys (uniq (map (key_of ixs) (keyed ixs rs))).

Definition group (ixs : list nat) (rs : list Row) (k : key) : list Row :=
  filter (fun r => key_eqb (key_of ixs r) k) (keyed ixs rs).

(** [df.groupby(by)[c].sum()]: one row per group, the group key as index. *)
Definition groupby_sum (df : DataFrame) (by_ : list string) (c : string)
  : result DataFrame :=
  rbind (key_indices df by_) (fun ixs =>
  match index_of c (columns df) with
  | None => Raise (KeyError c)
  | Some i =>
      let dt := dtype_of (column_at i (rows df)) in
      rbind (rmap (fun k =>
               rbind (agg_sum dt (column_at i (group ixs (rows df) k)))
                     (fun v => Ok (mkRow k [v])))
             (group_keys ixs (rows df)))
            (fun rs => Ok (mkDF by_ [c] rs))
  end).

Definition agg_dict := list (string * list aggfunc).

(** The columns [agg] produces: one per dictionary entry and function. *)
Definition agg_plan (d : agg_dict) : list (string * aggfunc) :=
  flat_map (fun e => map (fun f => (fst e, f)) (snd e)) d.

(** The label pandas gives such a column is the pair (column, function);
    it is written here the way Python prints it. *)
Definition agg_label (p : string * aggfunc) : string :=
  ("('" ++ fst p ++ "', '" ++ func_name (snd p) ++ "')")%string.

(** [df.groupby(by).agg(d)]. A column of [d] that the frame lacks, or that
    is one of the grouping columns, raises [KeyError]. *)
Definition groupby_agg (df : DataFrame) (by_ : list string) (d : agg_dict)
  : result DataFrame :=
  rbind (key_indices df by_) (fun ixs =>
  rbind (rmap (fun p =>
           if mem (fst p) by_ then Raise (KeyError (fst p))
           else match index_of (fst p) (columns df) with
                | Some i => Ok (i, snd p)
                | None => Raise (KeyError (fst p))
                end) (agg_plan d)) (fun plan =>
  rbind (rmap (fun k =>
           rbind (rmap (fun p =>
                    agg (snd p) (dtype_of (column_at (fst p) (rows df)))
                        (column_at (fst p) (group ixs (rows df) k)))
                  plan)
                 (fun vs => Ok (mkRow k vs)))
         (group_keys ixs (rows df)))
        (fun rs => Ok (mkDF by_ (map agg_label (agg_plan d)) rs)))).

(** [df.columns = cols]: [ValueError] on a length mismatch. *)
Definition set_columns (df : DataFrame) (cols : list string) : result DataFrame :=
  if length cols =? length (columns df)
  then Ok (mkDF (index_names df) cols (rows df))
  else Raise ValueError.

(** [df.reset_index()]: the index levels become the leading columns;
    [ValueError] when a level's name is already a column. *)
Definition reset_index (df : DataFrame) : result DataFrame :=
  if existsb (fun n => mem n (columns df)) (index_names df)
  then Raise ValueError
  else Ok (mkDF [] (index_names df ++ columns df)
                (map (fun r => mkRow [] (idx r ++ vals r)) (rows df))).

End pd.

(** ** The store and the monad *)

Definition loc := nat.
Definition store := list DataFrame.

Definition M (A : Type) : Type := store -> result A * store.

Definition ret {A} (a : A) : M A := fun h => (Ok a, h).

Definition raise {A} (e : exn) : M A := fun h => (Raise e, h).

Definition bind {A B} (m : M A) (k : A -> M B) : M B :=
  fun h =>
    match m h with
    | (Ok a, h') => k a h'
    | (Raise e, h') => (Raise e, h')
    end.

Definition lift {A} (r : result A) : M A := fun h => (r, h).

Notation "x <- m ;; k" := (bind m (fun x => k))
  (at level 61, m at next level, right associativity).
Notation "m ;;; k" := (bind m (fun _ => k))
  (at level 61, right associativity).

(** Allocation of a new object. *)
Definition new (v : DataFrame) : M loc :=
  fun h => (Ok (length h), h ++ [v]).

Definition deref (l : loc) : M DataFrame :=
  fun h =>
    match nth_error h l with
    | Some v => (Ok v, h)
    | None => (Raise Dangling, h)
    end.

(** In-place update of an existing object. *)
Definition assign (l : loc) (v : DataFrame) : M unit :=
  fun h =>
    if l <? length h then (Ok tt, set_nth l v h) else (Raise Dangling, h).

(** [for x in xs: s = body(s, x)] *)
Fixpoint for_each {A S} (xs : list A) (body : S -> A -> M S) (s : S) : M S :=
  match xs with
  | [] => ret s
  | x :: xs' => s' <- body s x ;; for_each xs' body s'
  end.

(** *** pandas calls on references *)

Definition df_copy (l : loc) : M loc :=
  v <- deref l ;; new v.

Definition df_fillna (l : loc) (c : cell) : M loc :=
  v <- deref l ;; new (pd.fillna c v).

Definition df_getitem (l : loc) (c : string) : M (list cell) :=
  v <- deref l ;; lift (pd.getitem v c).

Definition df_loc (l : loc) (m : list bool) : M loc :=
  v <- deref l ;; new (pd.loc_mask v m).

Definition df_setitem (l : loc) (c : string) (x : cell) : M unit :=
  v <- deref l ;; assign l (pd.setitem v c x).

Definition df_columns (l : loc) : M (list string) :=
  v <- deref l ;; ret (columns v).

Definition df_set_columns (l : loc) (cols : list string) : M unit :=
  v <- deref l ;; v' <- lift (pd.set_columns v cols) ;; assign l v'.

Definition df_groupby_sum (l : loc) (by_ : list string) (c : string) : M loc :=
  v <- deref l ;; g <- lift (pd.groupby_sum v by_ c) ;; new g.

Definition df_groupby_agg (l : loc) (by_ : list string) (d : pd.agg_dict) : M loc :=
  v <- deref l ;; g <- lift (pd.groupby_agg v by_ d) ;; new g.

Definition df_reset_index (l : loc) : M loc :=
  v <- deref l ;; r <- lift (pd.reset_index v) ;; new r.

(** ** Python dictionaries, in insertion order *)

Section Dict.
Context {V : Type}.

Definition dict := list (string * V).

Fixpoint dict_get (d : dict) (k : string) : result V :=
  match d with
  | [] => Raise (KeyError k)
  | (k', v) :: d' => if String.eqb k' k then Ok v else dict_get d' k
  end.

Fixpoint dict_set (d : dict) (k : string) (v : V) : dict :=
  match d with
  | [] => [(k, v)]
  | (k', v') :: d' =>
      if String.eqb k' k then (k', v) :: d' else (k', v') :: dict_set d' k v
  end.

Definition dict_keys (d : dict) : list string := map fst d.
End Dict.
Arguments dict V : clear implicits.

(** [l[-1]] *)
Definition last_item (l : list string) : result string :=
  match rev l with
  | [] => Raise IndexError
  | x :: _ => Ok x
  end.

(** ** class CovidData *)

Record CovidData : Type := mkCovidData {
  confirmed_df : loc;
  deaths_df : loc;
  recovered_df : loc;
  routes_df : loc
}.

Definition none : cell := CStr "none".

Definition county_route_keys : list string :=
  ["DepartCounty"; "DepartProvince/State"; "DepartCountry/Region";
   "ArrivalCounty"; "ArrivalProvince/State"; "ArrivalCountry/Region"].
Definition state_route_keys : list string :=
  ["DepartProvince/State"; "DepartCountry/Region";
   "ArrivalProvince/State"; "ArrivalCountry/Region"].
Definition country_route_keys : list string :=
  ["DepartCountry/Region"; "ArrivalCountry/Region"].

(** [routesToWeightedEdges(self, bin_region_column, country)]; the result
    [None] is Python's [None], returned when no [if] matches.  The unused
    locals [agg_dict] and [new_column] are left out. *)
Definition routesToWeightedEdges (self : CovidData)
    (bin_region_column : string) (country : option string) : M (option loc) :=
  c <- df_copy (routes_df self) ;;
  new_routes_df <- df_fillna c none ;;
  new_routes_df <-
    match country with
    | None => ret new_routes_df
    | Some ctry =>
        dep <- df_getitem new_routes_df "DepartCountry/Region" ;;
        arr <- df_getitem new_routes_df "ArrivalCountry/Region" ;;
        df_loc new_routes_df
               (pd.mask_and (pd.series_eq dep (CStr ctry))
                            (pd.series_eq arr (CStr ctry)))
    end ;;
  df_setitem new_routes_df "NumberOfRoutes" (CInt 1) ;;;
  if String.eqb bin_region_column "county" then
    g <- df_groupby_sum new_routes_df county_route_keys "NumberOfRoutes" ;;
    r <- df_reset_index g ;;
    ret (Some r)
  else if String.eqb bin_region_column "state" then
    g <- df_groupby_sum new_routes_df state_route_keys "NumberOfRoutes" ;;
    r <- df_reset_index g ;;
    ret (Some r)
  else if String.eqb bin_region_column "country" then
    g <- df_groupby_sum new_routes_df country_route_keys "NumberOfRoutes" ;;
    r <- df_reset_index g ;;
    ret (Some r)
  else ret None.

Definition invalid_region_msg : string :=
  "Invalid region parsed to bin_region_column! Needs to be county, state or country".

(** ["{} is not a valid date. ...".format(specific_date)] *)
Definition invalid_date_msg (specific_date : string) : string :=
  (specific_date ++
   " is not a valid date. Check the covid .csv files for what a valid dates look like!")%string.

(** The body of [for data_type in data] at line 129. *)
Definition filter_country (ctry : string) (data : dict loc) (data_type : string)
  : M (dict loc) :=
  df <- lift (dict_get data data_type) ;;
  df' <- lift (dict_get data data_type) ;;
  col <- df_getitem df' "Country/Region" ;;
  r <- df_loc df (pd.series_eq col (CStr ctry)) ;;
  ret (dict_set data data_type r).

(** Lines 133 to 149: the aggregation dictionary and the new column labels
    for a date selector. *)
Definition select_dates (specific_date : option string) (dates : list string)
  : result (pd.agg_dict * list string) :=
  let new_columns := ["Lat"; "Long"] ++ dates in
  let agg_dict : pd.agg_dict := [] in
  let agg_dict := dict_set agg_dict "Lat" [Mean] in
  let agg_dict := dict_set agg_dict "Long" [Mean] in
  match specific_date with
  | None =>
      Ok (fold_left (fun a date => dict_set a date [Sum]) dates agg_dict,
          new_columns)
  | Some date =>
      if negb (String.eqb date "latest") then
        if mem date dates
        then Ok (dict_set agg_dict date [Sum], ["Lat"; "Long"] ++ [date])
        else Raise (AssertionError (invalid_date_msg date))
      else
        rbind (last_item dates) (fun latest_date =>
        Ok (dict_set agg_dict latest_date [Sum], ["Lat"; "Long"] ++ [latest_date]))
  end.

(** [new_df = df.groupby(by).agg(agg_dict)], [new_df.columns = new_columns],
    [new_df = new_df.reset_index()]. *)
Definition regroup (by_ : list string) (agg_dict : pd.agg_dict)
    (new_columns : list string) (df : loc) : M loc :=
  new_df <- df_groupby_agg df by_ agg_dict ;;
  df_set_columns new_df new_columns ;;;
  df_reset_index new_df.

(** The body of [for data_type in data] at line 152. *)
Definition aggregate (bin_region_column : string) (agg_dict : pd.agg_dict)
    (new_columns : list string) (data : dict loc) (data_type : string)
  : M (dict loc) :=
  df <- lift (dict_get data data_type) ;;
  if String.eqb bin_region_column "county" then ret data
  else
    data <- (if String.eqb bin_region_column "state"
             then new_df <- regroup ["Province/State"; "Country/Region"]
                                    agg_dict new_columns df ;;
                  ret (dict_set data data_type new_df)
             else ret data) ;;
    if String.eqb bin_region_column "country"
    then new_df <- regroup ["Country/Region"] agg_dict new_columns df ;;
         ret (dict_set data data_type new_df)
    else ret data.

(** [getData(self, bin_region_column, country, specific_date)] *)
Definition getData (self : CovidData) (bin_region_column : string)
    (country : option string) (specific_date : option string)
  : M (dict loc * option loc) :=
  if negb (String.eqb bin_region_column "county"
           || String.eqb bin_region_column "state"
           || String.eqb bin_region_column "country")
  then raise (AssertionError invalid_region_msg)
  else
    c <- df_copy (confirmed_df self) ;;
    confirmed <- df_fillna c none ;;
    d <- df_copy (deaths_df self) ;;
    deaths <- df_fillna d none ;;
    let data : dict loc := [("confirmed", confirmed); ("deaths", deaths)] in
    data <- (if String.eqb bin_region_column "country"
             then r <- df_copy (recovered_df self) ;;
                  recovered <- df_fillna r none ;;
                  ret (dict_set data "recovered" recovered)
             else ret data) ;;
    data <- match country with
            | None => ret data
            | Some ctry => for_each (dict_keys data) (filter_country ctry) data
            end ;;
    confirmed <- lift (dict_get data "confirmed") ;;
    cols <- df_columns confirmed ;;
    let dates := skipn 5 cols in
    sel <- lift (select_dates specific_date dates) ;;
    let '(agg_dict, new_columns) := sel in
    data <- for_each (dict_keys data)
                     (aggregate bin_region_column agg_dict new_columns) data ;;
    routes <- routesToWeightedEdges self bin_region_column country ;;
    ret (data, routes).

(** ** Vocabulary of the specification *)

Definition valid_granularity (g : string) : bool :=
  String.eqb g "county" || String.eqb g "state" || String.eqb g "country".

(** The grouping columns of the route table at a granularity. *)
Definition route_keys (g : string) : list string :=
  if String.eqb g "county" then county_route_keys
  else if String.eqb g "state" then state_route_keys
  else country_route_keys.

(** The location-key fields of a case table at [state] or [country]. *)
Definition location_keys (g : string) : list string :=
  if String.eqb g "state" then ["Province/State"; "Country/Region"]
  else ["Country/Region"].

Definition field (T : DataFrame) (c : string) (r : Row) : cell :=
  match index_of c (columns T) with
  | Some i => nth i (vals r) CNaN
  | None => CNaN
  end.

(** [within country T cols r]: every one of the fields [cols] of the row
    equals the country, when one is given. *)
Definition within (country : option string) (T : DataFrame)
    (cols : list string) (r : Row) : bool :=
  match country with
  | None => true
  | Some c => forallb (fun col => cell_eqb (field T col r) (CStr c)) cols
  end.

Definition restrict (country : option string) (cols : list string)
    (T : DataFrame) : DataFrame :=
  mkDF (index_names T) (columns T) (filter (within country T cols) (rows T)).

(** The (optionally country-filtered) route table and case tables, missing
    fields normalised to ["none"]. *)
Definition route_input (country : option string) (T : DataFrame) : DataFrame :=
  restrict country country_route_keys (pd.fillna none T).

Definition case_input (country : option string) (T : DataFrame) : DataFrame :=
  restrict country ["Country/Region"] (pd.fillna none T).

Definition has_columns (T : DataFrame) (cols : list string) : bool :=
  forallb (fun c => mem c (columns T)) cols.

(** Every row has one cell per column. *)
Definition rectangular (T : DataFrame) : bool :=
  forallb (fun r => length (vals r) =? length (columns T)) (rows T).

(** The date columns [getData] reads off the confirmed table. *)
Definition date_columns (confirmed : DataFrame) : list string :=
  skipn 5 (columns confirmed).

(** The date columns a selector picks. *)
Definition selected_dates (specific_date : option string) (dates : list string)
  : list string :=
  match specific_date with
  | None => dates
  | Some d => if String.eqb d "latest" then [last dates ""] else [d]
  end.

(** The sum of column [c] over the rows of [T] whose [by_] fields are [k]. *)
Definition group_total (T : DataFrame) (by_ : list string) (c : string) (k : key)
  : result cell :=
  rbind (pd.key_indices T by_) (fun ixs =>
  rbind (pd.getitem T c) (fun col =>
  rbind (pd.getitem (mkDF [] (columns T) (pd.group ixs (rows T) k)) c) (fun cs =>
  pd.agg_sum (pd.dtype_of col) cs))).

(** No cell is missing. *)
Definition clean (T : DataFrame) : bool :=
  forallb (fun r => forallb (fun c => negb (isna c)) (vals r)) (rows T).

(** The route-count table the route aggregator builds from a table whose
    rows are the routes to count: one row per key, in key order. *)
Definition counted (by_ : list string) (ixs : list nat) (T : DataFrame) : DataFrame :=
  mkDF [] (by_ ++ ["NumberOfRoutes"])
       (map (fun k => mkRow [] (k ++ [CInt (wrap64 (Z.of_nat (length (pd.group ixs (rows T) k))))]))
            (pd.group_keys ixs (rows T))).

(** All four references of the instance point to objects of the store. *)
Definition valid (self : CovidData) (h : store) : Prop :=
  confirmed_df self < length h /\ deaths_df self < length h /\
  recovered_df self < length h /\ routes_df self < length h.

(** A dictionary of references holds the given frames, key by key. *)
Definition holds (h : store) (data : dict loc) (out : dict DataFrame) : Prop :=
  Forall2 (fun p q => fst p = fst q /\ nth_error h (snd p) = Some (snd q)) data out.

(** A call of one of the two public methods, and the store it leaves. *)
Inductive call : Type :=
| GetData (bin_region_column : string) (country specific_date : option string)
| RoutesToWeightedEdges (bin_region_column : string) (country : option string).

Definition run_call (self : CovidData) (h : store) (c : call) : store :=
  match c with
  | GetData g ctry d => snd (getData self g ctry d h)
  | RoutesToWeightedEdges g ctry => snd (routesToWeightedEdges self g ctry h)
  end.

Definition run_calls (self : CovidData) (cs : list call) (h : store) : store :=
  fold_left (run_call self) cs h.

(** [m] leaves the first [n] objects of the store as they are, and its
    result satisfies [Q]. *)
Definition frames {A} (n : nat) (m : M A) (Q : A -> Prop) : Prop :=
  forall h, n <= length h ->
    firstn n (snd (m h)) = firstn n h /\ n <= length (snd (m h)) /\
    forall a, fst (m h) = Ok a -> Q a.

(** A dictionary whose references all lie past the first [n] objects. *)
Definition fresh (n : nat) (data : dict loc) : Prop :=
  Forall (fun p => n <= snd p) data.

(** ** The methods as functions of the frames they read

    The same statements, in the same order, on frames instead of
    references; the lemmas [routes_sim] and [getData_sim] relate them to
    the methods. *)

Fixpoint dict_rmap (f : DataFrame -> result DataFrame) (d : dict DataFrame)
  : result (dict DataFrame) :=
  match d with
  | [] => Ok []
  | (k, v) :: d' =>
      rbind (f v) (fun v' => rbind (dict_rmap f d') (fun d'' => Ok ((k, v') :: d'')))
  end.

Definition grouped_sum (by_ : list string) (T : DataFrame) : result (option DataFrame) :=
  rbind (pd.groupby_sum T by_ "NumberOfRoutes") (fun g =>
  rbind (pd.reset_index g) (fun r => Ok (Some r))).

Definition routes_frame (T : DataFrame) (bin_region_column : string)
    (country : option string) : result (option DataFrame) :=
  let T1 := pd.fillna none T in
  rbind (match country with
         | None => Ok T1
         | Some ctry =>
             rbind (pd.getitem T1 "DepartCountry/Region") (fun dep =>
             rbind (pd.getitem T1 "ArrivalCountry/Region") (fun arr =>
             Ok (pd.loc_mask T1 (pd.mask_and (pd.series_eq dep (CStr ctry))
                                             (pd.series_eq arr (CStr ctry))))))
         end) (fun T2 =>
  let T3 := pd.setitem T2 "NumberOfRoutes" (CInt 1) in
  if String.eqb bin_region_column "county" then grouped_sum county_route_keys T3
  else if String.eqb bin_region_column "state" then grouped_sum state_route_keys T3
  else if String.eqb bin_region_column "country" then grouped_sum country_route_keys T3
  else Ok None).

Definition filter_frame (ctry : string) (T : DataFrame) : result DataFrame :=
  rbind (pd.getitem T "Country/Region") (fun col =>
  Ok (pd.loc_mask T (pd.series_eq col (CStr ctry)))).

Definition regroup_frame (by_ : list string) (agg_dict : pd.agg_dict)
    (new_columns : list string) (T : DataFrame) : result DataFrame :=
  rbind (pd.groupby_agg T by_ agg_dict) (fun g =>
  rbind (pd.set_columns g new_columns) pd.reset_index).

Definition aggregate_frame (bin_region_column : string) (agg_dict : pd.agg_dict)
    (new_columns : list string) (T : DataFrame) : result DataFrame :=
  if String.eqb bin_region_column "county" then Ok T
  else if String.eqb bin_region_column "state"
  then regroup_frame ["Province/State"; "Country/Region"] agg_dict new_columns T
  else regroup_frame ["Country/Region"] agg_dict new_columns T.

Definition getData_frames (confirmed deaths recovered routes : DataFrame)
    (bin_region_column : string) (country specific_date : option string)
  : result (dict DataFrame * option DataFrame) :=
  if negb (valid_granularity bin_region_column)
  then Raise (AssertionError invalid_region_msg)
  else
    let data := [("confirmed", pd.fillna none confirmed);
                 ("deaths", pd.fillna none deaths)] in
    let data := if String.eqb bin_region_column "country"
                then dict_set data "recovered" (pd.fillna none recovered)
                else data in
    rbind (match country with
           | None => Ok data
           | Some ctry => dict_rmap (filter_frame ctry) data
           end) (fun data =>
    rbind (dict_get data "confirmed") (fun conf =>
    rbind (select_dates specific_date (skipn 5 (columns conf))) (fun sel =>
    rbind (dict_rmap (aggregate_frame bin_region_column (fst sel) (snd sel)) data)
          (fun data =>
    rbind (routes_frame routes bin_region_column country) (fun r =>
    Ok (data, r)))))).

(** [at_ h l T]: the reference [l] points to the frame [T]. *)
Definition at_ (h : store) (l : loc) (T : DataFrame) : Prop :=
  nth_error h l = Some T.

Definition at_opt (h : store) (o : option loc) (oT : option DataFrame) : Prop :=
  match o, oT with
  | Some l, Some T => at_ h l T
  | None, None => True
  | _, _ => False
  end.

Definition same {A} (h : store) (a b : A) : Prop := a = b.

(** A run from the store [h] only adds objects to it, and yields what the
    function [r] of the frames yields: the same exception, or a value
    related to it by [R] in the final store. *)
Definition sim {A B} (R : store -> A -> B -> Prop) (h : store)
    (run : result A * store) (r : result B) : Prop :=
  exists ext, snd run = h ++ ext /\
    match r with
    | Ok b => exists a, fst run = Ok a /\ R (h ++ ext) a b
    | Raise e => fst run = Raise e
    end.

(** What the loops of [getData] do to one value of the dictionary. *)
Definition filter_step (ctry : string) (l : loc) : M loc :=
  col <- df_getitem l "Country/Region" ;;
  df_loc l (pd.series_eq col (CStr ctry)).

Definition aggregate_step (bin_region_column : string) (agg_dict : pd.agg_dict)
    (new_columns : list string) (l : loc) : M loc :=
  if String.eqb bin_region_column "county" then ret l
  else if String.eqb bin_region_column "state"
  then regroup ["Province/State"; "Country/Region"] agg_dict new_columns l
  else regroup ["Country/Region"] agg_dict new_columns l.

(** The relation between what [getData] returns and the frames. *)
Definition data_at (h : store) (p : dict loc * option loc)
    (q : dict DataFrame * option DataFrame) : Prop :=
  holds h (fst p) (fst q) /\ at_opt h (snd p) (snd q).

(** Keys that are pairwise different for [key_eqb]. *)
Fixpoint distinct (ks : list key) : Prop :=
  match ks with
  | [] => True
  | k :: ks' => Forall (fun k' => key_eqb k k' = false) ks' /\ distinct ks'
  end.

Definition nan_free (k : key) : bool := negb (existsb isna k).

(** The source tables [getData] reads at a granularity, by name. *)
Definition case_tables (g : string) (confirmed deaths recovered : DataFrame)
  : dict DataFrame :=
  if String.eqb g "country"
  then [("confirmed", confirmed); ("deaths", deaths); ("recovered", recovered)]
  else [("confirmed", confirmed); ("deaths", deaths)].

(** The same tables, normalised and country-filtered. *)
Definition case_inputs (g : string) (country : option string)
    (confirmed deaths recovered : DataFrame) : dict DataFrame :=
  map (fun p => (fst p, case_input country (snd p)))
      (case_tables g confirmed deaths recovered).

Definition is_number (c : cell) : bool :=
  match c with CInt _ | CFloat _ => true | _ => false end.

(** Column [c] exists and holds numbers only. *)
Definition numeric_column (T : DataFrame) (c : string) : bool :=
  match index_of c (columns T) with
  | Some i => forallb is_number (pd.column_at i (rows T))
  | None => false
  end.

Fixpoint nodupb (l : list string) : bool :=
  match l with
  | [] => true
  | x :: l' => negb (mem x l') && nodupb l'
  end.

(** A case table that can be grouped by [by_] and aggregated over the
    columns [cols]: it has the grouping columns, and the aggregated ones
    are other columns, which hold numbers. *)
Definition groupable (by_ cols : list string) (T : DataFrame) : bool :=
  has_columns T by_ &&
  forallb (fun c => negb (mem c by_) && numeric_column T c) cols.

(** A selector that names a date column. *)
Definition selector_ok (d : option string) (dates : list string) : Prop :=
  match d with
  | None => True
  | Some x => if String.eqb x "latest" then dates <> [] else In x dates
  end.

(** With a country filter, every table read has a country column. *)
Definition filterable (country : option string) (ts : dict DataFrame) : bool :=
  match country with
  | None => true
  | Some _ => forallb (fun p => has_columns (snd p) ["Country/Region"]) ts
  end.

(** Tables on which [getData] returns: the case tables can be
    country-filtered, the selector names a date column of the confirmed
    table, the route table has one cell per column in every row and the
    grouping columns; above [county] granularity the labels [Lat], [Long]
    and the selected dates are distinct and every case table can be grouped
    by the location keys and aggregated over these columns. *)
Definition well_formed (g : string) (c d : option string)
    (Tc Td Tr Trt : DataFrame) : Prop :=
  filterable c (case_tables g Tc Td Tr) = true /\
  selector_ok d (date_columns Tc) /\
  (g = "county" \/
   nodupb ("Lat" :: "Long" :: selected_dates d (date_columns Tc)) = true /\
   forallb (fun p => groupable (location_keys g)
                       ("Lat" :: "Long" :: selected_dates d (date_columns Tc))
                       (snd p))
           (case_tables g Tc Td Tr) = true) /\
  rectangular Trt = true /\
  has_columns Trt (route_keys g) = true.

(** What a call that returns a frame (or [None]) returned, read from the
    store it left. *)
Definition returned (run : result (option loc) * store)
  : result (option DataFrame) :=
  match fst run with
  | Ok (Some l) =>
      match nth_error (snd run) l with
      | Some T => Ok (Some T)
      | None => Raise Dangling
      end
  | Ok None => Ok None
  | Raise e => Raise e
  end.

(** ** A small instance, for examples *)

Definition case_columns : list string :=
  ["County"; "Province/State"; "Country/Region"; "Lat"; "Long";
   "1/22/20"; "1/23/20"].

Definition ex_confirmed : DataFrame :=
  table case_columns
    [[CNaN; CStr "X"; CStr "US"; CFloat (1 # 2); CFloat 1; CInt 1; CInt 5];
     [CNaN; CStr "X"; CStr "US"; CFloat (3 # 2); CFloat 1; CInt 2; CInt 6];
     [CNaN; CStr "Y"; CStr "US"; CFloat (1 # 2); CFloat 3; CInt 3; CInt 7];
     [CStr "K"; CStr "W"; CStr "CA"; CFloat 4; CFloat 5; CInt 4; CInt 8]].

Definition ex_deaths : DataFrame :=
  table case_columns
    [[CNaN; CStr "X"; CStr "US"; CFloat (1 # 2); CFloat 1; CInt 0; CInt 1];
     [CNaN; CStr "Y"; CStr "US"; CFloat (1 # 2); CFloat 3; CInt 1; CInt 2]].

Definition ex_recovered : DataFrame :=
  table case_columns
    [[CNaN; CNaN; CStr "US"; CFloat 1; CFloat 2; CInt 2; CInt 3];
     [CNaN; CNaN; CStr "CA"; CFloat 4; CFloat 5; CInt 1; CInt 1]].

Definition ex_routes : DataFrame :=
  table (county_route_keys ++ ["DepartAirport"; "ArrivalAirport"])
    [[CStr "A"; CNaN; CStr "US"; CStr "B"; CNaN; CStr "US"; CStr "AAA"; CStr "BBB"];
     [CStr "A"; CNaN; CStr "US"; CStr "B"; CNaN; CStr "US"; CStr "AAB"; CStr "BBB"];
     [CStr "A"; CNaN; CStr "CA"; CStr "C"; CNaN; CStr "CA"; CStr "AAC"; CStr "CCC"];
     [CStr "A"; CNaN; CStr "US"; CStr "C"; CNaN; CStr "CA"; CStr "AAA"; CStr "CCC"]].

Definition ex_store : store := [ex_confirmed; ex_deaths; ex_recovered; ex_routes].

(** A deaths table that lacks the last date column of [ex_confirmed]. *)
Definition ex_deaths_short : DataFrame :=
  table ["County"; "Province/State"; "Country/Region"; "Lat"; "Long"; "1/22/20"]
    [[CNaN; CStr "X"; CStr "US"; CFloat (1 # 2); CFloat 1; CInt 0];
     [CNaN; CStr "Y"; CStr "US"; CFloat (1 # 2); CFloat 3; CInt 1]].

Definition ex_self : CovidData := mkCovidData 0 1 2 3.

Definition ex_calls : list call :=
  [GetData "country" (Some "US") (Some "latest");
   RoutesToWeightedEdges "county" None;
   GetData "city" None None;
   GetData "state" None (Some "2020-13-40")].

(** ** Vocabulary of the further properties *)

(** The grouping key of a route row: its fields in the grouping columns of
    the granularity. *)
Definition route_key (g : string) (T : DataFrame) (r : Row) : key :=
  map (fun c => field T c r) (route_keys g).

(** The rows of [T] that have the grouping key [k]. *)
Definition routes_with (g : string) (T : DataFrame) (k : key) : list Row :=
  filter (fun r => key_eqb (route_key g T r) k) (rows T).

(** One row per distinct grouping key of [T], in key order, with the number
    of rows of [T] that have the key. *)
Definition route_counts (g : string) (T : DataFrame) : DataFrame :=
  mkDF [] (route_keys g ++ ["NumberOfRoutes"])
       (map (fun k => mkRow [] (k ++ [CInt (Z.of_nat (length (routes_with g T k)))]))
            (sort_keys (uniq (map (route_key g T) (rows T))))).

(** The frames a dictionary of references points to. *)
Definition deref_dict (h : store) (data : dict loc) : result (dict DataFrame) :=
  rmap (fun p => match nth_error h (snd p) with
                 | Some T => Ok (fst p, T)
                 | None => Raise Dangling
                 end) data.

(** What a call of [getData] returned, read from the store it left: the
    case tables by name and the route table. *)
Definition returned_data (run : result (dict loc * option loc) * store)
  : result (dict DataFrame * option DataFrame) :=
  match fst run with
  | Ok (data, r) =>
      rbind (deref_dict (snd run) data) (fun out =>
      rbind (returned (Ok r, snd run)) (fun ro => Ok (out, ro)))
  | Raise e => Raise e
  end.

(** The rows of the route table [T], missing fields normalised, whose
    departure and arrival country fields both equal [ctry]. *)
Definition routes_within (ctry : string) (T : DataFrame) : DataFrame :=
  mkDF (index_names T) (columns T)
       (filter (fun r =>
                  cell_eqb (field T "DepartCountry/Region" r) (CStr ctry) &&
                  cell_eqb (field T "ArrivalCountry/Region" r) (CStr ctry))
               (rows (pd.fillna none T))).

(** Every case table read at the granularity has the location-key columns
    of the granularity, and one cell per column in every row. *)
Definition has_location_keys (g : string) (Tc Td Tr : DataFrame) : bool :=
  forallb (fun p => has_columns (snd p) (location_keys g)) (case_tables g Tc Td Tr).

Definition rectangular_tables (g : string) (Tc Td Tr : DataFrame) : bool :=
  forallb (fun p => rectangular (snd p)) (case_tables g Tc Td Tr).

(** The location key of a row of a case table: its fields in the
    location-key columns of the granularity. *)
Definition location_key (g : string) (T : DataFrame) (r : Row) : key :=
  map (fun c => field T c r) (location_keys g).

(** The rows of [T] that have the location key [k]. *)
Definition rows_at (g : string) (T : DataFrame) (k : key) : list Row :=
  filter (fun r => key_eqb (location_key g T r) k) (rows T).

(** The distinct location keys of the rows of [T], in key order. *)
Definition location_groups (g : string) (T : DataFrame) : list key :=
  sort_keys (uniq (map (location_key g T) (rows T))).

(** Column [c] exists and holds integers only. *)
Definition int_column (T : DataFrame) (c : string) : bool :=
  match index_of c (columns T) with
  | Some i => forallb (fun r => match nth i (vals r) CNaN with
                                | CInt _ => true
                                | _ => false
                                end) (rows T)
  | None => false
  end.

(** The integers in the fields [c] of the rows [rs], added up from the
    first row to the last. *)
Definition int_total (T : DataFrame) (c : string) (rs : list Row) : Z :=
  fold_left (fun a r => match field T c r with
                        | CInt z => (a + z)%Z
                        | _ => a
                        end) rs 0%Z.

(** Column [c] exists and holds integers that are not negative. *)
Definition counts_column (T : DataFrame) (c : string) : bool :=
  match index_of c (columns T) with
  | Some i => forallb (fun x => match x with
                                | CInt z => (0 <=? z)%Z
                                | _ => false
                                end) (pd.column_at i (rows T))
  | None => false
  end.

(** The sum of the integers of column [c], not wrapped. *)
Definition column_total (T : DataFrame) (c : string) : result Z :=
  rbind (pd.getitem T c) (fun col => Ok (pd.Zsum (map pd.int_of col))).

(** Keys in nondecreasing order. *)
Fixpoint sorted_keys (ks : list key) : Prop :=
  match ks with
  | [] => True
  | k :: ks' =>
      match ks' with
      | [] => True
      | k' :: _ => key_leb k k' = true /\ sorted_keys ks'
      end
  end.

(** * Properties *)

(** ** The monad *)

Lemma bind_ok {A B} (m : M A) (k : A -> M B) h a h' :
  m h = (Ok a, h') -> bind m k h = k a h'.
Proof. intros E. unfold bind. now rewrite E. Qed.

Lemma bind_raise {A B} (m : M A) (k : A -> M B) h e h' :
  m h = (Raise e, h') -> bind m k h = (Raise e, h').
Proof. intros E. unfold bind. now rewrite E. Qed.

Lemma nth_error_last {A} (h : list A) (v : A) :
  nth_error (h ++ [v]) (length h) = Some v.
Proof. rewrite nth_error_app2, Nat.sub_diag by lia. reflexivity. Qed.

Lemma nth_error_ext {A} (h ext : list A) l v :
  nth_error h l = Some v -> nth_error (h ++ ext) l = Some v.
Proof.
  intros E. rewrite nth_error_app1; auto.
  apply nth_error_Some. congruence.
Qed.

Lemma set_nth_length {A} n (a : A) l : length (set_nth n a l) = length l.
Proof. revert n. induction l; intros [|n]; simpl; auto. Qed.

Lemma set_nth_last {A} (h : list A) (v v' : A) :
  set_nth (length h) v' (h ++ [v]) = h ++ [v'].
Proof. induction h; simpl; congruence. Qed.

Lemma firstn_set_nth {A} n l (a : A) h :
  n <= l -> firstn n (set_nth l a h) = firstn n h.
Proof.
  revert n l. induction h as [|x h IH]; intros n l Hn.
  - now destruct l.
  - destruct l as [|l]; simpl.
    + assert (n = 0) by lia. subst. reflexivity.
    + destruct n as [|n]; simpl; [reflexivity|]. f_equal. apply IH. lia.
Qed.

(** ** Frame rules: what a computation leaves untouched *)

Section Frames.
Variable n : nat.

Lemma frames_ret {A} (a : A) (Q : A -> Prop) : Q a -> frames n (ret a) Q.
Proof. intros Ha h Hn. simpl. repeat split; auto. congruence. Qed.

Lemma frames_raise {A} e (Q : A -> Prop) : frames n (raise e) Q.
Proof. intros h Hn. simpl. repeat split; auto. discriminate. Qed.

Lemma frames_lift {A} (r : result A) : frames n (lift r) (fun _ => True).
Proof. intros h Hn. simpl. repeat split; auto. Qed.

Lemma frames_weaken {A} (m : M A) (Q Q' : A -> Prop) :
  (forall a, Q a -> Q' a) -> frames n m Q -> frames n m Q'.
Proof.
  intros HQ Hm h Hn. destruct (Hm h Hn) as (F & L & R). repeat split; auto.
Qed.

Lemma frames_bind {A B} (m : M A) (k : A -> M B) Q1 Q2 :
  frames n m Q1 -> (forall a, Q1 a -> frames n (k a) Q2) ->
  frames n (bind m k) Q2.
Proof.
  intros Hm Hk h Hn. destruct (Hm h Hn) as (F & L & R).
  unfold bind. destruct (m h) as [[a|e] h']; simpl in *.
  - destruct (Hk a (R a eq_refl) h' L) as (F' & L' & R').
    split; [congruence|]. split; auto.
  - repeat split; auto. discriminate.
Qed.

Lemma frames_new v : frames n (new v) (fun l => n <= l).
Proof.
  intros h Hn. unfold new. simpl. split; [|split].
  - rewrite firstn_app. replace (n - length h) with 0 by lia.
    simpl. apply app_nil_r.
  - rewrite length_app. lia.
  - intros a E. injection E as <-. exact Hn.
Qed.

Lemma frames_deref l : frames n (deref l) (fun _ => True).
Proof.
  intros h Hn. unfold deref. destruct (nth_error h l); simpl; repeat split; auto.
Qed.

Lemma frames_assign l v : n <= l -> frames n (assign l v) (fun _ => True).
Proof.
  intros Hl h Hn. unfold assign. destruct (l <? length h); simpl.
  - rewrite set_nth_length. repeat split; auto. now apply firstn_set_nth.
  - repeat split; auto.
Qed.

Lemma frames_for_each {A S} (body : S -> A -> M S) (I : S -> Prop) xs :
  (forall s x, I s -> frames n (body s x) I) ->
  forall s, I s -> frames n (for_each xs body s) I.
Proof.
  intros Hb. induction xs as [|x xs IH]; intros s Hs; simpl.
  - now apply frames_ret.
  - eapply frames_bind; [apply Hb, Hs|]. intros; now apply IH.
Qed.

(** The pandas calls: the ones that allocate return a reference past
    the first [n] objects, the ones that mutate need such a reference. *)

Lemma frames_df_copy l : frames n (df_copy l) (fun l' => n <= l').
Proof.
  eapply frames_bind; [apply frames_deref|]. intros; apply frames_new.
Qed.

Lemma frames_df_fillna l c : frames n (df_fillna l c) (fun l' => n <= l').
Proof.
  eapply frames_bind; [apply frames_deref|]. intros; apply frames_new.
Qed.

Lemma frames_df_getitem l c : frames n (df_getitem l c) (fun _ => True).
Proof.
  eapply frames_bind; [apply frames_deref|]. intros; apply frames_lift.
Qed.

Lemma frames_df_columns l : frames n (df_columns l) (fun _ => True).
Proof.
  eapply frames_bind; [apply frames_deref|]. intros; now apply frames_ret.
Qed.

Lemma frames_df_loc l m : frames n (df_loc l m) (fun l' => n <= l').
Proof.
  eapply frames_bind; [apply frames_deref|]. intros; apply frames_new.
Qed.

Lemma frames_df_setitem l c x :
  n <= l -> frames n (df_setitem l c x) (fun _ => True).
Proof.
  intros Hl. eapply frames_bind; [apply frames_deref|].
  intros; now apply frames_assign.
Qed.

Lemma frames_df_set_columns l cols :
  n <= l -> frames n (df_set_columns l cols) (fun _ => True).
Proof.
  intros Hl. eapply frames_bind; [apply frames_deref|]. intros.
  eapply frames_bind; [apply frames_lift|]. intros; now apply frames_assign.
Qed.

Lemma frames_df_groupby_sum l by_ c :
  frames n (df_groupby_sum l by_ c) (fun l' => n <= l').
Proof.
  eapply frames_bind; [apply frames_deref|]. intros.
  eapply frames_bind; [apply frames_lift|]. intros; apply frames_new.
Qed.

Lemma frames_df_groupby_agg l by_ d :
  frames n (df_groupby_agg l by_ d) (fun l' => n <= l').
Proof.
  eapply frames_bind; [apply frames_deref|]. intros.
  eapply frames_bind; [apply frames_lift|]. intros; apply frames_new.
Qed.

Lemma frames_df_reset_index l :
  frames n (df_reset_index l) (fun l' => n <= l').
Proof.
  eapply frames_bind; [apply frames_deref|]. intros.
  eapply frames_bind; [apply frames_lift|]. intros; apply frames_new.
Qed.

Lemma fresh_get data k l : (fresh n) data -> dict_get data k = Ok l -> n <= l.
Proof.
  induction 1 as [|[k' l'] d Hp Hd IH]; simpl; [discriminate|].
  destruct (String.eqb k' k); [|exact IH].
  intros E. injection E as <-. exact Hp.
Qed.

Lemma fresh_set data k l : (fresh n) data -> n <= l -> (fresh n) (dict_set data k l).
Proof.
  intros Hd Hl. induction Hd as [|[k' l'] d Hp Hd IH]; simpl.
  - repeat constructor. exact Hl.
  - destruct (String.eqb k' k); constructor; auto.
Qed.

Lemma frames_get data k :
  (fresh n) data -> frames n (lift (dict_get data k)) (fun l => n <= l).
Proof.
  intros Hd h Hn. simpl. repeat split; auto. intros l E.
  eapply fresh_get; eauto.
Qed.

Lemma frames_routesToWeightedEdges self g c :
  frames n (routesToWeightedEdges self g c) (fun _ => True).
Proof.
  unfold routesToWeightedEdges.
  eapply frames_bind; [apply frames_df_copy|]. intros l0 _.
  eapply frames_bind; [apply frames_df_fillna|]. intros l1 H1.
  eapply frames_bind with (Q1 := fun l => n <= l).
  - destruct c as [ctry|]; [|now apply frames_ret].
    eapply frames_bind; [apply frames_df_getitem|]. intros dep _.
    eapply frames_bind; [apply frames_df_getitem|]. intros arr _.
    apply frames_df_loc.
  - intros l2 H2.
    eapply frames_bind; [now apply frames_df_setitem|]. intros _ _.
    repeat match goal with
           | |- frames _ (if ?b then _ else _) _ => destruct b
           end;
      try (now apply frames_ret);
      (eapply frames_bind; [apply frames_df_groupby_sum|]; intros;
       eapply frames_bind; [apply frames_df_reset_index|]; intros;
       now apply frames_ret).
Qed.

Lemma frames_filter_country ctry data k :
  (fresh n) data -> frames n (filter_country ctry data k) (fresh n).
Proof.
  intros Hd. unfold filter_country.
  eapply frames_bind; [now apply frames_get|]. intros l Hl.
  eapply frames_bind; [now apply frames_get|]. intros l' Hl'.
  eapply frames_bind; [apply frames_df_getitem|]. intros col _.
  eapply frames_bind; [apply frames_df_loc|]. intros r Hr.
  apply frames_ret. now apply fresh_set.
Qed.

Lemma frames_regroup by_ d cols l :
  frames n (regroup by_ d cols l) (fun l' => n <= l').
Proof.
  unfold regroup.
  eapply frames_bind; [apply frames_df_groupby_agg|]. intros g Hg.
  eapply frames_bind; [now apply frames_df_set_columns|]. intros _ _.
  apply frames_df_reset_index.
Qed.

Lemma frames_aggregate g d cols data k :
  (fresh n) data -> frames n (aggregate g d cols data k) (fresh n).
Proof.
  intros Hd. unfold aggregate.
  eapply frames_bind; [now apply frames_get|]. intros l Hl.
  destruct (String.eqb g "county"); [now apply frames_ret|].
  eapply frames_bind with (Q1 := (fresh n)).
  - destruct (String.eqb g "state"); [|now apply frames_ret].
    eapply frames_bind; [apply frames_regroup|]. intros r Hr.
    apply frames_ret. now apply fresh_set.
  - intros data' Hd'.
    destruct (String.eqb g "country"); [|now apply frames_ret].
    eapply frames_bind; [apply frames_regroup|]. intros r Hr.
    apply frames_ret. now apply fresh_set.
Qed.

Lemma frames_getData self g c d :
  frames n (getData self g c d) (fun _ => True).
Proof.
  unfold getData.
  destruct (negb _); [apply frames_raise|].
  eapply frames_bind; [apply frames_df_copy|]. intros c0 _.
  eapply frames_bind; [apply frames_df_fillna|]. intros lc Hc.
  eapply frames_bind; [apply frames_df_copy|]. intros d0 _.
  eapply frames_bind; [apply frames_df_fillna|]. intros ld Hd.
  assert (F0 : (fresh n) [("confirmed", lc); ("deaths", ld)])
    by (repeat constructor; assumption).
  eapply frames_bind with (Q1 := (fresh n)).
  { destruct (String.eqb g "country"); [|now apply frames_ret].
    eapply frames_bind; [apply frames_df_copy|]. intros r0 _.
    eapply frames_bind; [apply frames_df_fillna|]. intros lr Hr.
    apply frames_ret. now apply fresh_set. }
  intros data1 F1.
  eapply frames_bind with (Q1 := (fresh n)).
  { destruct c as [ctry|]; [|now apply frames_ret].
    apply frames_for_each; auto. intros; now apply frames_filter_country. }
  intros data2 F2.
  eapply frames_bind; [now apply frames_get|]. intros conf _.
  eapply frames_bind; [apply frames_df_columns|]. intros cols _.
  eapply frames_bind; [apply frames_lift|]. intros [agg newc] _.
  eapply frames_bind with (Q1 := (fresh n)).
  { apply frames_for_each; auto. intros; now apply frames_aggregate. }
  intros data3 F3.
  eapply frames_bind; [apply frames_routesToWeightedEdges|]. intros r _.
  now apply frames_ret.
Qed.
End Frames.

Lemma run_call_prefix self c h : firstn (length h) (run_call self h c) = h.
Proof.
  destruct c as [g ctry d|g ctry]; simpl.
  - destruct (frames_getData (length h) self g ctry d h (le_n _)) as (F & _).
    rewrite F. apply firstn_all.
  - destruct (frames_routesToWeightedEdges (length h) self g ctry h (le_n _))
      as (F & _).
    rewrite F. apply firstn_all.
Qed.

Lemma run_call_length self c h : length h <= length (run_call self h c).
Proof.
  destruct c as [g ctry d|g ctry]; simpl.
  - now destruct (frames_getData (length h) self g ctry d h (le_n _)) as (_ & L & _).
  - now destruct (frames_routesToWeightedEdges (length h) self g ctry h (le_n _))
      as (_ & L & _).
Qed.

Lemma run_calls_prefix self cs h : firstn (length h) (run_calls self cs h) = h.
Proof.
  unfold run_calls. revert h.
  induction cs as [|c cs IH]; intros h; simpl.
  - apply firstn_all.
  - pose proof (run_call_prefix self c h) as P.
    pose proof (run_call_length self c h) as L.
    specialize (IH (run_call self h c)).
    transitivity (firstn (length h)
                    (firstn (length (run_call self h c))
                       (fold_left (run_call self) cs (run_call self h c)))).
    + rewrite firstn_firstn. f_equal. lia.
    + rewrite IH. exact P.
Qed.

Lemma nth_error_prefix {A} (h h' : list A) l :
  firstn (length h) h' = h -> l < length h -> nth_error h' l = nth_error h l.
Proof.
  intros P L.
  transitivity (nth_error (firstn (length h) h') l); [|now rewrite P].
  rewrite nth_error_firstn.
  now replace (l <? length h) with true by (symmetry; now apply Nat.ltb_lt).
Qed.

(** C10. Calls of [getData] and [routesToWeightedEdges], in any number and
    order and with any arguments, leave every object that was in the store
    before them as it was: the store they leave starts with the store they
    found.  In particular the four source tables of the instance are what
    they were; the methods never rebind the attributes of [self], so the
    state of the instance stays the one after construction. *)
Theorem calls_leave_source_tables_unchanged :
  forall (self : CovidData) (cs : list call) (h : store),
    firstn (length h) (run_calls self cs h) = h /\
    (valid self h ->
     nth_error (run_calls self cs h) (confirmed_df self)
       = nth_error h (confirmed_df self) /\
     nth_error (run_calls self cs h) (deaths_df self)
       = nth_error h (deaths_df self) /\
     nth_error (run_calls self cs h) (recovered_df self)
       = nth_error h (recovered_df self) /\
     nth_error (run_calls self cs h) (routes_df self)
       = nth_error h (routes_df self)).
Proof.
  intros self cs h. pose proof (run_calls_prefix self cs h) as P.
  split; [exact P|].
  intros (Hc & Hd & Hr & Ht).
  repeat split; now apply nth_error_prefix.
Qed.

Lemma calls_leave_source_tables_unchanged_witness :
  firstn (length ex_store) (run_calls ex_self ex_calls ex_store) = ex_store /\
  nth_error (run_calls ex_self ex_calls ex_store) (confirmed_df ex_self)
    = nth_error ex_store (confirmed_df ex_self) /\
  nth_error (run_calls ex_self ex_calls ex_store) (deaths_df ex_self)
    = nth_error ex_store (deaths_df ex_self) /\
  nth_error (run_calls ex_self ex_calls ex_store) (recovered_df ex_self)
    = nth_error ex_store (recovered_df ex_self) /\
  nth_error (run_calls ex_self ex_calls ex_store) (routes_df ex_self)
    = nth_error ex_store (routes_df ex_self).
Proof.
  destruct (calls_leave_source_tables_unchanged ex_self ex_calls ex_store)
    as (P & T).
  split; [exact P|]. apply T. unfold valid. simpl. lia.
Defined.

(** The store does record in-place updates: assigning the column to the
    route table itself, without the copy, changes the stored table. *)
Example setitem_without_copy_changes_the_store :
  nth_error (snd (df_setitem (routes_df ex_self) "NumberOfRoutes" (CInt 1) ex_store))
            (routes_df ex_self)
  <> nth_error ex_store (routes_df ex_self).
Proof. vm_compute. discriminate. Qed.

(** ** The pandas calls, run on a store *)

Lemma deref_run h l T : nth_error h l = Some T -> deref l h = (Ok T, h).
Proof. intros E. unfold deref. now rewrite E. Qed.

Lemma df_copy_run h l T :
  nth_error h l = Some T -> df_copy l h = (Ok (length h), h ++ [T]).
Proof. intros E. unfold df_copy. now rewrite (bind_ok _ _ _ _ _ (deref_run _ _ _ E)). Qed.

Lemma df_fillna_run h l c T :
  nth_error h l = Some T ->
  df_fillna l c h = (Ok (length h), h ++ [pd.fillna c T]).
Proof. intros E. unfold df_fillna. now rewrite (bind_ok _ _ _ _ _ (deref_run _ _ _ E)). Qed.

Lemma df_getitem_run h l c T :
  nth_error h l = Some T -> df_getitem l c h = (pd.getitem T c, h).
Proof. intros E. unfold df_getitem. now rewrite (bind_ok _ _ _ _ _ (deref_run _ _ _ E)). Qed.

Lemma df_columns_run h l T :
  nth_error h l = Some T -> df_columns l h = (Ok (columns T), h).
Proof. intros E. unfold df_columns. now rewrite (bind_ok _ _ _ _ _ (deref_run _ _ _ E)). Qed.

Lemma df_loc_run h l m T :
  nth_error h l = Some T ->
  df_loc l m h = (Ok (length h), h ++ [pd.loc_mask T m]).
Proof. intros E. unfold df_loc. now rewrite (bind_ok _ _ _ _ _ (deref_run _ _ _ E)). Qed.

(** The two in-place updates of the code act on the object allocated last. *)
Lemma assign_last h v v' : assign (length h) v' (h ++ [v]) = (Ok tt, h ++ [v']).
Proof.
  unfold assign. rewrite length_app. simpl.
  replace (length h <? length h + 1) with true
    by (symmetry; apply Nat.ltb_lt; lia).
  now rewrite set_nth_last.
Qed.

Lemma df_setitem_last h T c x :
  df_setitem (length h) c x (h ++ [T]) = (Ok tt, h ++ [pd.setitem T c x]).
Proof.
  unfold df_setitem.
  rewrite (bind_ok _ _ _ _ _ (deref_run _ _ _ (nth_error_last h T))).
  apply assign_last.
Qed.

Lemma df_set_columns_last h T cols :
  df_set_columns (length h) cols (h ++ [T]) =
  match pd.set_columns T cols with
  | Ok T' => (Ok tt, h ++ [T'])
  | Raise e => (Raise e, h ++ [T])
  end.
Proof.
  unfold df_set_columns.
  rewrite (bind_ok _ _ _ _ _ (deref_run _ _ _ (nth_error_last h T))).
  unfold bind, lift. destruct (pd.set_columns T cols); [apply assign_last|reflexivity].
Qed.

Lemma df_groupby_sum_run h l by_ c T :
  nth_error h l = Some T ->
  df_groupby_sum l by_ c h =
  match pd.groupby_sum T by_ c with
  | Ok g => (Ok (length h), h ++ [g])
  | Raise e => (Raise e, h)
  end.
Proof.
  intros E. unfold df_groupby_sum.
  rewrite (bind_ok _ _ _ _ _ (deref_run _ _ _ E)).
  unfold bind, lift. now destruct (pd.groupby_sum T by_ c).
Qed.

Lemma df_groupby_agg_run h l by_ d T :
  nth_error h l = Some T ->
  df_groupby_agg l by_ d h =
  match pd.groupby_agg T by_ d with
  | Ok g => (Ok (length h), h ++ [g])
  | Raise e => (Raise e, h)
  end.
Proof.
  intros E. unfold df_groupby_agg.
  rewrite (bind_ok _ _ _ _ _ (deref_run _ _ _ E)).
  unfold bind, lift. now destruct (pd.groupby_agg T by_ d).
Qed.

Lemma df_reset_index_run h l T :
  nth_error h l = Some T ->
  df_reset_index l h =
  match pd.reset_index T with
  | Ok r => (Ok (length h), h ++ [r])
  | Raise e => (Raise e, h)
  end.
Proof.
  intros E. unfold df_reset_index.
  rewrite (bind_ok _ _ _ _ _ (deref_run _ _ _ E)).
  unfold bind, lift. now destruct (pd.reset_index T).
Qed.

(** ** Simulation: the methods compute what the frame functions compute *)

Lemma sim_intro {A B} (R : store -> A -> B -> Prop) h ext (run : result A * store) r :
  snd run = h ++ ext ->
  match r with
  | Ok b => exists a, fst run = Ok a /\ R (h ++ ext) a b
  | Raise e => fst run = Raise e
  end ->
  sim R h run r.
Proof. intros S X. exists ext. now split. Qed.

Lemma sim_bind {A B A' B'} (R1 : store -> A -> B -> Prop)
    (R2 : store -> A' -> B' -> Prop) h (m : M A) (k : A -> M A') r kr :
  sim R1 h (m h) r ->
  (forall ext a b, r = Ok b -> R1 (h ++ ext) a b ->
     sim R2 (h ++ ext) (k a (h ++ ext)) (kr b)) ->
  sim R2 h (bind m k h) (rbind r kr).
Proof.
  intros (ext & S & X) Hk. destruct (m h) as [ra h1] eqn:E. simpl in S, X. subst h1.
  destruct r as [b|e]; simpl.
  - destruct X as (a & -> & Ra).
    rewrite (bind_ok _ _ _ _ _ E).
    destruct (Hk ext a b eq_refl Ra) as (ext2 & S2 & X2).
    exists (ext ++ ext2). rewrite app_assoc. now split.
  - subst ra. rewrite (bind_raise _ _ _ _ _ E). exists ext. now split.
Qed.

Lemma sim_ret {A B} (R : store -> A -> B -> Prop) h a b :
  R h a b -> sim R h (ret a h) (Ok b).
Proof.
  intros Ra. exists []. rewrite app_nil_r. split; [reflexivity|]. now exists a.
Qed.

Lemma sim_lift {A} h (r : result A) : sim same h (lift r h) r.
Proof.
  exists []. rewrite app_nil_r. split; [reflexivity|].
  destruct r; simpl; [now eexists|reflexivity].
Qed.

Lemma holds_ext h ext data out : holds h data out -> holds (h ++ ext) data out.
Proof.
  induction 1 as [|p q d o (K & E) _ IH]; constructor; auto.
  split; auto. now apply nth_error_ext.
Qed.

Lemma df_copy_sim h l T : at_ h l T -> sim at_ h (df_copy l h) (Ok T).
Proof.
  intros E. rewrite (df_copy_run _ _ _ E). apply sim_intro with (ext := [T]); simpl; auto.
  eexists; split; eauto. apply nth_error_last.
Qed.

Lemma df_fillna_sim h l c T :
  at_ h l T -> sim at_ h (df_fillna l c h) (Ok (pd.fillna c T)).
Proof.
  intros E. rewrite (df_fillna_run _ _ _ _ E).
  apply sim_intro with (ext := [pd.fillna c T]); simpl; auto.
  eexists; split; eauto. apply nth_error_last.
Qed.

Lemma copy_fillna_sim h l T :
  at_ h l T ->
  sim at_ h ((c <- df_copy l ;; df_fillna c none) h) (Ok (pd.fillna none T)).
Proof.
  intros E.
  change (Ok (pd.fillna none T))
    with (rbind (Ok T) (fun T => Ok (pd.fillna none T))).
  eapply sim_bind; [now apply df_copy_sim|].
  intros ext a b _ Ha. now apply df_fillna_sim.
Qed.

Lemma grouped_sum_sim h l by_ T :
  at_ h l T ->
  sim at_opt h
      ((g <- df_groupby_sum l by_ "NumberOfRoutes" ;;
        r <- df_reset_index g ;; ret (Some r)) h)
      (grouped_sum by_ T).
Proof.
  intros E. unfold grouped_sum.
  pose proof (df_groupby_sum_run h l by_ "NumberOfRoutes" T E) as G.
  destruct (pd.groupby_sum T by_ "NumberOfRoutes") as [g|e]; simpl.
  - rewrite (bind_ok _ _ _ _ _ G).
    pose proof (df_reset_index_run (h ++ [g]) (length h) g (nth_error_last h g)) as Rr.
    destruct (pd.reset_index g) as [r|e]; simpl.
    + rewrite (bind_ok _ _ _ _ _ Rr).
      apply sim_intro with (ext := [g; r]); simpl.
      * now rewrite <- app_assoc.
      * eexists; split; eauto. simpl. unfold at_.
        change [g; r] with ([g] ++ [r]). rewrite app_assoc.
        apply nth_error_last.
    + rewrite (bind_raise _ _ _ _ _ Rr). now apply sim_intro with (ext := [g]).
  - rewrite (bind_raise _ _ _ _ _ G).
    apply sim_intro with (ext := []); simpl; auto. now rewrite app_nil_r.
Qed.

Lemma sim_shift {A B} (R : store -> A -> B -> Prop) h e run r :
  sim R (h ++ e) run r -> sim R h run r.
Proof.
  intros (ext & S & X). exists (e ++ ext). rewrite app_assoc. now split.
Qed.

Lemma route_filter_run h l F ctry :
  nth_error h l = Some F ->
  (dep <- df_getitem l "DepartCountry/Region" ;;
   arr <- df_getitem l "ArrivalCountry/Region" ;;
   df_loc l (pd.mask_and (pd.series_eq dep (CStr ctry))
                         (pd.series_eq arr (CStr ctry)))) h =
  match rbind (pd.getitem F "DepartCountry/Region") (fun dep =>
        rbind (pd.getitem F "ArrivalCountry/Region") (fun arr =>
        Ok (pd.loc_mask F (pd.mask_and (pd.series_eq dep (CStr ctry))
                                       (pd.series_eq arr (CStr ctry)))))) with
  | Ok T2 => (Ok (length h), h ++ [T2])
  | Raise e => (Raise e, h)
  end.
Proof.
  intros E. unfold bind at 1. rewrite (df_getitem_run _ _ _ _ E).
  destruct (pd.getitem F "DepartCountry/Region") as [dep|e]; simpl; [|reflexivity].
  unfold bind at 1. rewrite (df_getitem_run _ _ _ _ E).
  destruct (pd.getitem F "ArrivalCountry/Region") as [arr|e]; simpl; [|reflexivity].
  now apply df_loc_run.
Qed.

Lemma routes_tail_sim hp T2 g :
  sim at_opt hp
    ((df_setitem (length hp) "NumberOfRoutes" (CInt 1) ;;;
      if String.eqb g "county" then
        g <- df_groupby_sum (length hp) county_route_keys "NumberOfRoutes" ;;
        r <- df_reset_index g ;; ret (Some r)
      else if String.eqb g "state" then
        g <- df_groupby_sum (length hp) state_route_keys "NumberOfRoutes" ;;
        r <- df_reset_index g ;; ret (Some r)
      else if String.eqb g "country" then
        g <- df_groupby_sum (length hp) country_route_keys "NumberOfRoutes" ;;
        r <- df_reset_index g ;; ret (Some r)
      else ret None) (hp ++ [T2]))
    (let T3 := pd.setitem T2 "NumberOfRoutes" (CInt 1) in
     if String.eqb g "county" then grouped_sum county_route_keys T3
     else if String.eqb g "state" then grouped_sum state_route_keys T3
     else if String.eqb g "country" then grouped_sum country_route_keys T3
     else Ok None).
Proof.
  rewrite (bind_ok _ _ _ _ _ (df_setitem_last hp T2 _ _)). simpl.
  set (T3 := pd.setitem T2 "NumberOfRoutes" (CInt 1)).
  assert (E3 : at_ (hp ++ [T3]) (length hp) T3) by apply nth_error_last.
  apply sim_shift with (e := [T3]).
  destruct (String.eqb g "county"); [now apply grouped_sum_sim|].
  destruct (String.eqb g "state"); [now apply grouped_sum_sim|].
  destruct (String.eqb g "country"); [now apply grouped_sum_sim|].
  now apply sim_ret.
Qed.

Lemma routes_sim self g c h T :
  at_ h (routes_df self) T ->
  sim at_opt h (routesToWeightedEdges self g c h) (routes_frame T g c).
Proof.
  intros E. unfold routesToWeightedEdges, routes_frame.
  rewrite (bind_ok _ _ _ _ _ (df_copy_run _ _ _ E)).
  rewrite (bind_ok _ _ _ _ _ (df_fillna_run _ _ _ _ (nth_error_last h T))).
  set (F := pd.fillna none T). set (h1 := h ++ [T]).
  destruct c as [ctry|].
  - pose proof (route_filter_run (h1 ++ [F]) (length h1) F ctry
                  (nth_error_last h1 F)) as Hf.
    destruct (rbind (pd.getitem F "DepartCountry/Region") _) as [T2|e].
    + rewrite (bind_ok _ _ _ _ _ Hf). simpl rbind.
      apply sim_shift with (e := [T; F]).
      replace (h ++ [T; F]) with (h1 ++ [F])
        by (unfold h1; now rewrite <- app_assoc).
      apply routes_tail_sim.
    + rewrite (bind_raise _ _ _ _ _ Hf).
      apply sim_intro with (ext := [T; F]); simpl; auto.
      unfold h1. now rewrite <- app_assoc.
  - rewrite (bind_ok _ _ _ _ _ (eq_refl : ret (length h1) (h1 ++ [F]) = _)).
    simpl rbind. apply sim_shift with (e := [T]). apply routes_tail_sim.
Qed.

Lemma regroup_sim h l by_ d cols T :
  at_ h l T -> sim at_ h (regroup by_ d cols l h) (regroup_frame by_ d cols T).
Proof.
  intros E. unfold regroup, regroup_frame.
  pose proof (df_groupby_agg_run h l by_ d T E) as G.
  destruct (pd.groupby_agg T by_ d) as [g|e]; simpl.
  - rewrite (bind_ok _ _ _ _ _ G).
    pose proof (df_set_columns_last h g cols) as C.
    destruct (pd.set_columns g cols) as [g'|e]; simpl.
    + rewrite (bind_ok _ _ _ _ _ C).
      pose proof (df_reset_index_run (h ++ [g']) (length h) g' (nth_error_last h g'))
        as Rr.
      destruct (pd.reset_index g') as [r|e]; rewrite Rr.
      * apply sim_intro with (ext := [g'; r]); simpl.
        -- now rewrite <- app_assoc.
        -- eexists; split; eauto. unfold at_.
           change [g'; r] with ([g'] ++ [r]). rewrite app_assoc.
           apply nth_error_last.
      * now apply sim_intro with (ext := [g']).
    + rewrite (bind_raise _ _ _ _ _ C). now apply sim_intro with (ext := [g]).
  - rewrite (bind_raise _ _ _ _ _ G).
    apply sim_intro with (ext := []); simpl; auto. now rewrite app_nil_r.
Qed.

Lemma filter_step_sim ctry h l T :
  at_ h l T ->
  sim at_ h ((col <- df_getitem l "Country/Region" ;;
              df_loc l (pd.series_eq col (CStr ctry))) h)
      (filter_frame ctry T).
Proof.
  intros E. unfold filter_frame, bind. rewrite (df_getitem_run _ _ _ _ E).
  destruct (pd.getitem T "Country/Region") as [col|e]; simpl.
  - rewrite (df_loc_run _ _ _ _ E).
    eapply sim_intro with (ext := [_]); simpl; auto.
    eexists; split; eauto. apply nth_error_last.
  - apply sim_intro with (ext := []); simpl; auto. now rewrite app_nil_r.
Qed.

(** ** Dictionaries *)

Lemma dict_get_app {V} (d1 d2 : dict V) k v :
  ~ In k (dict_keys d1) -> dict_get (d1 ++ (k, v) :: d2) k = Ok v.
Proof.
  induction d1 as [|[k' v'] d1 IH]; simpl; intros N.
  - now rewrite String.eqb_refl.
  - destruct (String.eqb_spec k' k); [tauto|]. apply IH. tauto.
Qed.

Lemma dict_set_app {V} (d1 d2 : dict V) k v v' :
  ~ In k (dict_keys d1) ->
  dict_set (d1 ++ (k, v) :: d2) k v' = d1 ++ (k, v') :: d2.
Proof.
  induction d1 as [|[k' v''] d1 IH]; simpl; intros N.
  - now rewrite String.eqb_refl.
  - destruct (String.eqb_spec k' k); [tauto|]. f_equal. apply IH. tauto.
Qed.

Lemma dict_set_same {V} (d : dict V) k v : dict_get d k = Ok v -> dict_set d k v = d.
Proof.
  induction d as [|[k' v'] d IH]; simpl; [discriminate|].
  destruct (String.eqb k' k); [congruence|]. intros E. f_equal. auto.
Qed.

Lemma holds_keys h data out : holds h data out -> dict_keys data = dict_keys out.
Proof.
  unfold holds, dict_keys.
  induction 1 as [|p q d o H _ IH]; [reflexivity|].
  destruct H as (K & _). simpl. now f_equal.
Qed.

Lemma dict_rmap_keys f d d' : dict_rmap f d = Ok d' -> dict_keys d' = dict_keys d.
Proof.
  revert d'. induction d as [|[k v] d IH]; simpl; intros d' E.
  - now injection E as <-.
  - destruct (f v) as [v'|]; simpl in E; [|discriminate].
    destruct (dict_rmap f d) as [d''|]; simpl in E; [|discriminate].
    injection E as <-. simpl. f_equal. now apply IH.
Qed.

Lemma holds_get_sim h data out k :
  holds h data out -> sim at_ h (lift (dict_get data k) h) (dict_get out k).
Proof.
  intros H. apply sim_intro with (ext := []); [simpl; now rewrite app_nil_r|].
  rewrite app_nil_r. simpl.
  induction H as [|[k1 l] [k2 T] d o (K & E) _ IH]; simpl in *; [reflexivity|].
  subst k2. destruct (String.eqb k1 k); [|exact IH]. now exists l.
Qed.

Lemma rbind_assoc {A B C} (r : result A) (f : A -> result B) (g : B -> result C) :
  rbind (rbind r f) g = rbind r (fun a => rbind (f a) g).
Proof. now destruct r. Qed.

Lemma rbind_Ok {A} (r : result A) : rbind r Ok = r.
Proof. now destruct r. Qed.

Lemma rbind_ext {A B} (r : result A) (f g : A -> result B) :
  (forall a, f a = g a) -> rbind r f = rbind r g.
Proof. intros E. destruct r; simpl; auto. Qed.

(** A loop that replaces each value of a dictionary by the result of
    [step] on it maps the dictionary. *)
Section ForEach.
Variable body : dict loc -> string -> M (dict loc).
Variable step : loc -> M loc.
Variable f : DataFrame -> result DataFrame.
Hypothesis body_step : forall data k l h,
    dict_get data k = Ok l ->
    body data k h = (l' <- step l ;; ret (dict_set data k l')) h.
Hypothesis step_sim : forall h l T, at_ h l T -> sim at_ h (step l h) (f T).

Lemma for_each_sim_from d2 o2 :
  forall d1 o1 h,
    holds h d1 o1 -> holds h d2 o2 -> NoDup (dict_keys (d1 ++ d2)) ->
    sim holds h (for_each (dict_keys d2) body (d1 ++ d2) h)
        (rbind (dict_rmap f o2) (fun o2' => Ok (o1 ++ o2'))).
Proof.
  revert o2. induction d2 as [|[k l] d2 IH]; intros o2 d1 o1 h H1 H2 N.
  - inversion H2; subst. simpl. rewrite !app_nil_r. now apply sim_ret.
  - inversion H2 as [|p [k' T] d o (K & E) H2' X1 X2]; subst. simpl in K, E. subst k'.
    assert (Nk : ~ In k (dict_keys d1)).
    { unfold dict_keys in *. rewrite map_app in N. simpl in N.
      apply NoDup_remove_2 in N. intros I. apply N. apply in_or_app. now left. }
    simpl. rewrite rbind_assoc.
    eapply sim_bind with
      (R1 := fun h' s T' => exists l', s = d1 ++ (k, l') :: d2 /\ at_ h' l' T').
    + rewrite (body_step _ _ _ _ (dict_get_app d1 d2 k l Nk)).
      destruct (step_sim h l T E) as (ext & S & X).
      destruct (step l h) as [rl h'] eqn:Es. simpl in S, X. subst h'.
      destruct (f T) as [T'|e].
      * destruct X as (l' & -> & A').
        rewrite (bind_ok _ _ _ _ _ Es). apply sim_intro with (ext := ext); auto.
        eexists; split; [reflexivity|]. exists l'. split; auto.
        now apply dict_set_app.
      * subst rl. rewrite (bind_raise _ _ _ _ _ Es).
        now apply sim_intro with (ext := ext).
    + intros ext s T' _ (l' & -> & A'). rewrite rbind_assoc.
      specialize (IH o (d1 ++ [(k, l')]) (o1 ++ [(k, T')]) (h ++ ext)).
      rewrite <- app_assoc in IH. simpl in IH.
      rewrite (rbind_ext _ _ (fun o2' => Ok ((o1 ++ [(k, T')]) ++ o2')))
        by (intros a; simpl; now rewrite <- app_assoc).
      apply IH.
      * apply Forall2_app; [now apply holds_ext|].
        constructor; [|constructor]. now split.
      * now apply holds_ext.
      * unfold dict_keys in *. rewrite map_app in *. exact N.
Qed.

Lemma for_each_sim d o h :
  holds h d o -> NoDup (dict_keys d) ->
  sim holds h (for_each (dict_keys d) body d h) (dict_rmap f o).
Proof.
  intros H N. rewrite <- (rbind_Ok (dict_rmap f o)).
  apply (for_each_sim_from d o [] [] h); auto. constructor.
Qed.
End ForEach.

Lemma filter_country_step ctry data k l h :
  dict_get data k = Ok l ->
  filter_country ctry data k h =
  (l' <- filter_step ctry l ;; ret (dict_set data k l')) h.
Proof.
  intros E. unfold filter_country, filter_step, bind, lift. rewrite E.
  destruct (df_getitem l "Country/Region" h) as [[col|e] h1]; [|reflexivity].
  now destruct (df_loc l _ h1) as [[r|e] h2].
Qed.

Lemma valid_granularity_cases g :
  valid_granularity g = true -> g = "county" \/ g = "state" \/ g = "country".
Proof.
  unfold valid_granularity. intros V.
  destruct (String.eqb_spec g "county"); auto.
  destruct (String.eqb_spec g "state"); auto.
  destruct (String.eqb_spec g "country"); auto. discriminate.
Qed.

Lemma aggregate_body g agg cols data k l h :
  valid_granularity g = true ->
  dict_get data k = Ok l ->
  aggregate g agg cols data k h =
  (l' <- aggregate_step g agg cols l ;; ret (dict_set data k l')) h.
Proof.
  intros V E. unfold aggregate, aggregate_step.
  unfold bind at 1, lift. rewrite E.
  destruct (valid_granularity_cases g V) as [-> | [-> | ->]]; simpl.
  - unfold bind, ret. now rewrite (dict_set_same _ _ _ E).
  - unfold bind, ret. now destruct (regroup _ _ _ l h) as [[r|e] h1].
  - unfold bind, ret. now destruct (regroup _ _ _ l h) as [[r|e] h1].
Qed.

Lemma aggregate_step_sim g agg cols h l T :
  at_ h l T ->
  sim at_ h (aggregate_step g agg cols l h) (aggregate_frame g agg cols T).
Proof.
  intros E. unfold aggregate_step, aggregate_frame.
  destruct (String.eqb g "county"); [now apply sim_ret|].
  destruct (String.eqb g "state"); now apply regroup_sim.
Qed.

Lemma NoDup_keys_set {V} (d : dict V) k v :
  NoDup (k :: dict_keys d) -> dict_set d k v = d ++ [(k, v)].
Proof.
  intros N. apply NoDup_cons_iff in N as (N & _).
  induction d as [|[k' v'] d IH]; simpl in *; [reflexivity|].
  destruct (String.eqb_spec k' k); [tauto|]. f_equal. apply IH. tauto.
Qed.

(** The part of [getData] after the copies, from a dictionary that holds
    the copies. *)
Lemma getData_tail_sim self g c d h data o Trt :
  valid_granularity g = true ->
  holds h data o -> NoDup (dict_keys data) -> at_ h (routes_df self) Trt ->
  sim data_at h
    ((data <- match c with
              | None => ret data
              | Some ctry => for_each (dict_keys data) (filter_country ctry) data
              end ;;
      confirmed <- lift (dict_get data "confirmed") ;;
      cols <- df_columns confirmed ;;
      sel <- lift (select_dates d (skipn 5 cols)) ;;
      let '(agg_dict, new_columns) := sel in
      data <- for_each (dict_keys data) (aggregate g agg_dict new_columns) data ;;
      routes <- routesToWeightedEdges self g c ;;
      ret (data, routes)) h)
    (rbind (match c with
            | None => Ok o
            | Some ctry => dict_rmap (filter_frame ctry) o
            end) (fun data =>
     rbind (dict_get data "confirmed") (fun conf =>
     rbind (select_dates d (skipn 5 (columns conf))) (fun sel =>
     rbind (dict_rmap (aggregate_frame g (fst sel) (snd sel)) data) (fun data =>
     rbind (routes_frame Trt g c) (fun r => Ok (data, r))))))).
Proof.
  intros V H N Er.
  eapply sim_bind with (R1 := fun h' a b => holds h' a b /\ NoDup (dict_keys a)).
  { destruct c as [ctry|].
    - destruct (for_each_sim (filter_country ctry) (filter_step ctry)
                  (filter_frame ctry) (filter_country_step ctry)
                  (filter_step_sim ctry) data o h H N) as (ext & S & X).
      exists ext. split; auto.
      destruct (dict_rmap (filter_frame ctry) o) as [o'|e] eqn:Eo; auto.
      destruct X as (a & Fa & Ha). exists a. repeat split; auto.
      rewrite (holds_keys _ _ _ Ha), (dict_rmap_keys _ _ _ Eo).
      now rewrite <- (holds_keys _ _ _ H).
    - apply sim_ret. now split. }
  intros e1 data1 o1 _ (H1 & N1).
  eapply sim_bind; [now apply holds_get_sim|].
  intros e2 lc Tc1 _ Ec.
  rewrite (bind_ok _ _ _ _ _ (df_columns_run _ _ _ Ec)).
  eapply sim_bind; [apply sim_lift|].
  intros e3 sel sel' _ <-. destruct sel as [agg cols]. simpl fst. simpl snd.
  eapply sim_bind.
  { apply (for_each_sim (aggregate g agg cols) (aggregate_step g agg cols)
             (aggregate_frame g agg cols)).
    - intros; now apply aggregate_body.
    - intros; now apply aggregate_step_sim.
    - do 2 apply holds_ext. exact H1.
    - exact N1. }
  intros e4 data2 o2 _ H2.
  eapply sim_bind.
  { apply routes_sim. unfold at_. do 4 apply nth_error_ext. exact Er. }
  intros e5 r ro _ Hr. apply sim_ret. split; simpl; auto. now apply holds_ext.
Qed.

Lemma getData_sim self g c d h Tc Td Tr Trt :
  at_ h (confirmed_df self) Tc -> at_ h (deaths_df self) Td ->
  at_ h (recovered_df self) Tr -> at_ h (routes_df self) Trt ->
  sim data_at h (getData self g c d h) (getData_frames Tc Td Tr Trt g c d).
Proof.
  intros Ec Ed Er Et. unfold getData, getData_frames.
  change (String.eqb g "county" || String.eqb g "state" || String.eqb g "country")%bool
    with (valid_granularity g).
  destruct (valid_granularity g) eqn:V; cbn [negb].
  2:{ apply sim_intro with (ext := []); simpl; auto. now rewrite app_nil_r. }
  rewrite (bind_ok _ _ _ _ _ (df_copy_run _ _ _ Ec)).
  set (h1 := h ++ [Tc]).
  rewrite (bind_ok _ _ _ _ _ (df_fillna_run _ _ none _ (nth_error_last h Tc))).
  fold h1. set (Fc := pd.fillna none Tc). set (h2 := h1 ++ [Fc]).
  assert (Ed2 : nth_error h2 (deaths_df self) = Some Td)
    by (unfold h2, h1; now do 2 apply nth_error_ext).
  rewrite (bind_ok _ _ _ _ _ (df_copy_run _ _ _ Ed2)).
  set (h3 := h2 ++ [Td]).
  rewrite (bind_ok _ _ _ _ _ (df_fillna_run _ _ none _ (nth_error_last h2 Td))).
  fold h3. set (Fd := pd.fillna none Td). set (h4 := h3 ++ [Fd]).
  assert (E4 : h4 = h ++ [Tc; Fc; Td; Fd])
    by (unfold h4, h3, h2, h1; now rewrite <- !app_assoc).
  assert (Ac : at_ h4 (length h1) Fc)
    by (unfold h4, h3; do 2 apply nth_error_ext; apply nth_error_last).
  assert (Ad : at_ h4 (length h3) Fd) by apply nth_error_last.
  destruct (String.eqb g "country") eqn:Eg.
  - assert (Er4 : nth_error h4 (recovered_df self) = Some Tr)
      by (rewrite E4; now apply nth_error_ext).
    set (Fr := pd.fillna none Tr).
    assert (R : (r <- df_copy (recovered_df self) ;;
                 recovered <- df_fillna r none ;;
                 ret (dict_set [("confirmed", length h1); ("deaths", length h3)]
                               "recovered" recovered)) h4
                = (Ok [("confirmed", length h1); ("deaths", length h3);
                       ("recovered", length (h4 ++ [Tr]))],
                   (h4 ++ [Tr]) ++ [Fr])).
    { rewrite (bind_ok _ _ _ _ _ (df_copy_run _ _ _ Er4)).
      now rewrite (bind_ok _ _ _ _ _
                     (df_fillna_run _ _ none _ (nth_error_last h4 Tr))). }
    rewrite (bind_ok _ _ _ _ _ R).
    apply sim_shift with (e := [Tc; Fc; Td; Fd; Tr; Fr]).
    replace (h ++ [Tc; Fc; Td; Fd; Tr; Fr]) with ((h4 ++ [Tr]) ++ [Fr])
      by (rewrite E4, <- !app_assoc; reflexivity).
    apply getData_tail_sim; auto.
    + repeat constructor; simpl.
      * now do 2 apply nth_error_ext.
      * now do 2 apply nth_error_ext.
      * apply nth_error_last.
    + repeat constructor; simpl; intuition discriminate.
    + rewrite <- app_assoc, E4. unfold at_. now do 2 apply nth_error_ext.
  - rewrite (bind_ok _ _ _ _ _
               (eq_refl : ret [("confirmed", length h1); ("deaths", length h3)] h4 = _)).
    apply sim_shift with (e := [Tc; Fc; Td; Fd]). rewrite <- E4.
    apply getData_tail_sim; auto.
    + repeat constructor; simpl; assumption.
    + repeat constructor; simpl; intuition discriminate.
    + rewrite E4. now apply nth_error_ext.
Qed.

(** ** Equality of cells and keys *)

Lemma cell_eqb_sym a b : cell_eqb a b = cell_eqb b a.
Proof.
  destruct a, b; unfold cell_eqb; cbn [num_of];
    auto using Qeq_bool_comm, String.eqb_sym.
Qed.

Lemma cell_eqb_trans a b c :
  cell_eqb a b = true -> cell_eqb b c = true -> cell_eqb a c = true.
Proof.
  destruct a, b, c; unfold cell_eqb; cbn [num_of];
    try discriminate; try apply Qeq_bool_trans.
  intros E1 E2. apply String.eqb_eq in E1, E2. subst. apply String.eqb_refl.
Qed.

Lemma cell_eqb_refl a : isna a = false -> cell_eqb a a = true.
Proof.
  destruct a; unfold cell_eqb; cbn [num_of isna]; try discriminate; intros _;
    auto using Qeq_bool_refl, String.eqb_refl.
Qed.

Lemma key_eqb_sym k1 k2 : key_eqb k1 k2 = key_eqb k2 k1.
Proof.
  revert k2. induction k1 as [|a k1 IH]; intros [|b k2]; simpl; auto.
  now rewrite cell_eqb_sym, IH.
Qed.

Lemma key_eqb_trans k1 k2 k3 :
  key_eqb k1 k2 = true -> key_eqb k2 k3 = true -> key_eqb k1 k3 = true.
Proof.
  revert k2 k3. induction k1 as [|a k1 IH]; intros [|b k2] [|c k3]; simpl;
    try discriminate; auto.
  intros E1 E2. apply andb_prop in E1 as (A1 & B1). apply andb_prop in E2 as (A2 & B2).
  apply andb_true_intro. split; [eapply cell_eqb_trans|eapply IH]; eauto.
Qed.

Lemma key_eqb_refl k : nan_free k = true -> key_eqb k k = true.
Proof.
  unfold nan_free. induction k as [|a k IH]; simpl; auto.
  intros E. apply negb_true_iff, orb_false_elim in E as (Ea & Ek).
  rewrite (cell_eqb_refl _ Ea). apply IH. now rewrite Ek.
Qed.

(** ** Grouping: the groups partition the rows *)

Lemma list_sum_insert (f : key -> nat) k ks :
  list_sum (map f (insert_key k ks)) = f k + list_sum (map f ks).
Proof.
  induction ks as [|k' ks IH]; simpl; auto.
  destruct (key_leb k k'); simpl; auto. rewrite IH. lia.
Qed.

Lemma list_sum_sort (f : key -> nat) ks :
  list_sum (map f (sort_keys ks)) = list_sum (map f ks).
Proof.
  induction ks as [|k ks IH]; simpl; auto. now rewrite list_sum_insert, IH.
Qed.

Lemma insert_key_length k ks : length (insert_key k ks) = S (length ks).
Proof.
  induction ks as [|k' ks IH]; simpl; auto.
  destruct (key_leb k k'); simpl; auto.
Qed.

Lemma sort_keys_length ks : length (sort_keys ks) = length ks.
Proof.
  induction ks as [|k ks IH]; simpl; auto. now rewrite insert_key_length, IH.
Qed.

Lemma insert_key_In k k' ks : In k' (insert_key k ks) <-> k' = k \/ In k' ks.
Proof.
  induction ks as [|k0 ks IH]; simpl; [intuition|].
  destruct (key_leb k k0); simpl; [intuition|]. rewrite IH. intuition.
Qed.

Lemma sort_keys_In k ks : In k (sort_keys ks) <-> In k ks.
Proof.
  induction ks as [|k0 ks IH]; simpl; [tauto|].
  rewrite insert_key_In, IH. intuition.
Qed.

Lemma uniq_length ks : length (uniq ks) <= length ks.
Proof.
  induction ks as [|k ks IH]; simpl; auto.
  pose proof (filter_length_le (fun k' => negb (key_eqb k k')) (uniq ks)). lia.
Qed.

Lemma uniq_In k ks : In k (uniq ks) -> In k ks.
Proof.
  revert k. induction ks as [|k0 ks IH]; simpl; auto.
  intros k [->|I]; auto. apply filter_In in I as (I & _). auto.
Qed.

Lemma distinct_filter p ks : distinct ks -> distinct (filter p ks).
Proof.
  induction ks as [|k ks IH]; simpl; auto.
  intros (F & D). destruct (p k); simpl; auto. split; auto.
  apply Forall_forall. intros k' I. apply filter_In in I as (I & _).
  rewrite Forall_forall in F. auto.
Qed.

Lemma uniq_distinct ks : distinct (uniq ks).
Proof.
  induction ks as [|k ks IH]; simpl; auto. split.
  - apply Forall_forall. intros k' I. apply filter_In in I as (_ & E).
    now apply negb_true_iff in E.
  - now apply distinct_filter.
Qed.

Lemma uniq_covers ks :
  Forall (fun k => nan_free k = true) ks ->
  forall k, In k ks -> exists k', In k' (uniq ks) /\ key_eqb k k' = true.
Proof.
  induction 1 as [|k0 ks N0 _ IH]; simpl; [tauto|].
  intros k [<-|I].
  - exists k0. split; auto. now apply key_eqb_refl.
  - destruct (IH k I) as (k' & I' & E).
    destruct (key_eqb k0 k') eqn:E0.
    + exists k0. split; auto. eapply key_eqb_trans; eauto.
      now rewrite key_eqb_sym.
    + exists k'. split; auto. right. apply filter_In. split; auto.
      now rewrite E0.
Qed.

Lemma one_class x ks :
  distinct ks -> (exists k, In k ks /\ key_eqb x k = true) ->
  list_sum (map (fun k => if key_eqb x k then 1 else 0) ks) = 1.
Proof.
  induction ks as [|k0 ks IH]; simpl.
  - intros _ (k & [] & _).
  - intros (F & D) (k & I & E). destruct (key_eqb x k0) eqn:E0.
    + f_equal. rewrite Forall_forall in F.
      clear - F E0. induction ks as [|k1 ks IH]; simpl; auto.
      destruct (key_eqb x k1) eqn:E1.
      * exfalso. assert (key_eqb k0 k1 = true).
        { eapply key_eqb_trans; eauto. now rewrite key_eqb_sym. }
        rewrite (F k1) in H; [discriminate|now left].
      * apply IH. intros k' I. apply F. now right.
    + apply IH; auto. destruct I as [<-|I]; [congruence|]. now exists k.
Qed.

Lemma list_sum_map_add {A} (f g : A -> nat) l :
  list_sum (map (fun a => f a + g a) l) = list_sum (map f l) + list_sum (map g l).
Proof. induction l as [|a l IH]; simpl; auto. rewrite IH. lia. Qed.

Lemma classes_partition {A} (kf : A -> key) ks (rs : list A) :
  distinct ks ->
  (forall r, In r rs -> exists k, In k ks /\ key_eqb (kf r) k = true) ->
  list_sum (map (fun k => length (filter (fun r => key_eqb (kf r) k) rs)) ks)
  = length rs.
Proof.
  intros D. induction rs as [|r rs IH]; intros C.
  - simpl. clear. induction ks; simpl; auto.
  - transitivity
      (list_sum (map (fun k => if key_eqb (kf r) k then 1 else 0) ks) +
       list_sum (map (fun k => length (filter (fun r => key_eqb (kf r) k) rs)) ks)).
    + rewrite <- list_sum_map_add. f_equal. apply map_ext. intros k.
      simpl. now destruct (key_eqb (kf r) k).
    + rewrite (one_class (kf r) ks D (C r (or_introl eq_refl))).
      rewrite IH by (intros; apply C; now right). reflexivity.
Qed.

Lemma keyed_nan_free ixs rs :
  Forall (fun k => nan_free k = true) (map (pd.key_of ixs) (pd.keyed ixs rs)).
Proof.
  apply Forall_forall. intros k I. apply in_map_iff in I as (r & <- & I).
  apply filter_In in I as (_ & E). exact E.
Qed.

(** The sizes of the groups add up to the number of rows with a key. *)
Lemma groups_partition ixs rs :
  list_sum (map (fun k => length (pd.group ixs rs k)) (pd.group_keys ixs rs))
  = length (pd.keyed ixs rs).
Proof.
  unfold pd.group_keys, pd.group. rewrite list_sum_sort.
  apply classes_partition; [apply uniq_distinct|].
  intros r I. apply uniq_covers; [apply keyed_nan_free|]. now apply in_map.
Qed.

(** There are at most as many groups as rows. *)
Lemma group_keys_length ixs rs : length (pd.group_keys ixs rs) <= length rs.
Proof.
  unfold pd.group_keys. rewrite sort_keys_length.
  etransitivity; [apply uniq_length|]. rewrite length_map.
  apply filter_length_le.
Qed.

Lemma group_length ixs rs k : length (pd.group ixs rs k) <= length rs.
Proof.
  unfold pd.group, pd.keyed.
  etransitivity; apply filter_length_le.
Qed.

Lemma group_keys_key ixs rs k :
  In k (pd.group_keys ixs rs) -> exists r, In r rs /\ k = pd.key_of ixs r.
Proof.
  unfold pd.group_keys. rewrite sort_keys_In. intros I.
  apply uniq_In, in_map_iff in I as (r & <- & I).
  apply filter_In in I as (I & _). now exists r.
Qed.

(** ** Columns, masks and rows *)

Lemma rmap_ok {A B} (f : A -> result B) (g : A -> B) l :
  (forall a, In a l -> f a = Ok (g a)) -> rmap f l = Ok (map g l).
Proof.
  induction l as [|a l IH]; simpl; intros H; auto.
  rewrite (H a) by now left. simpl. rewrite IH by (intros; apply H; now right).
  reflexivity.
Qed.

Lemma rmap_length {A B} (f : A -> result B) l l' :
  rmap f l = Ok l' -> length l' = length l.
Proof.
  revert l'. induction l as [|a l IH]; simpl; intros l' E.
  - now injection E as <-.
  - destruct (f a); simpl in E; [|discriminate].
    destruct (rmap f l); simpl in E; [|discriminate].
    injection E as <-. simpl. f_equal. now apply IH.
Qed.

Lemma mem_index_of c l :
  mem c l = true -> exists i, index_of c l = Some i /\ i < length l.
Proof.
  unfold mem. induction l as [|x l IH]; simpl; [discriminate|].
  rewrite String.eqb_sym. destruct (String.eqb x c).
  - intros _. exists 0. split; auto. lia.
  - simpl. intros E. destruct (IH E) as (i & -> & L). exists (S i).
    split; [reflexivity|lia].
Qed.

Lemma index_of_lt c l i : index_of c l = Some i -> i < length l.
Proof.
  revert i. induction l as [|x l IH]; simpl; [discriminate|].
  destruct (String.eqb x c); intros i E.
  - injection E as <-. lia.
  - destruct (index_of c l) as [j|]; simpl in E; [|discriminate].
    injection E as <-. specialize (IH j eq_refl). lia.
Qed.

Lemma index_of_app c l l' i :
  index_of c l = Some i -> index_of c (l ++ l') = Some i.
Proof.
  revert i. induction l as [|x l IH]; simpl; [discriminate|].
  destruct (String.eqb x c); auto. intros i E.
  destruct (index_of c l); simpl in E; [|discriminate]. now rewrite (IH _ eq_refl).
Qed.

Lemma index_of_new c l : index_of c l = None -> index_of c (l ++ [c]) = Some (length l).
Proof.
  induction l as [|x l IH]; simpl.
  - now rewrite String.eqb_refl.
  - destruct (String.eqb x c); [discriminate|].
    destruct (index_of c l); simpl; [discriminate|]. intros _. now rewrite IH.
Qed.

Lemma index_of_mem c l i : index_of c l = Some i -> mem c l = true.
Proof.
  unfold mem. revert i. induction l as [|x l IH]; simpl; [discriminate|].
  rewrite (String.eqb_sym c x). destruct (String.eqb x c); auto.
  intros i E. destruct (index_of c l) as [j|] eqn:Ej; [|discriminate E].
  now apply (IH j).
Qed.

Lemma mem_app_l c l l' : mem c l = true -> mem c (l ++ l') = true.
Proof. unfold mem. rewrite existsb_app. now intros ->. Qed.

Lemma mask_and_map {A} (f g : A -> bool) l :
  pd.mask_and (map f l) (map g l) = map (fun x => f x && g x) l.
Proof. unfold pd.mask_and. induction l; simpl; congruence. Qed.

Lemma loc_mask_map T f :
  pd.loc_mask T (map f (rows T)) =
  mkDF (index_names T) (columns T) (filter f (rows T)).
Proof.
  unfold pd.loc_mask. f_equal. induction (rows T) as [|r rs IH]; simpl; auto.
  destruct (f r); simpl; congruence.
Qed.

Lemma filter_true {A} (l : list A) : filter (fun _ => true) l = l.
Proof. induction l; simpl; congruence. Qed.

Lemma set_nth_nth {A} i (v d : A) l : i < length l -> nth i (set_nth i v l) d = v.
Proof.
  revert i. induction l as [|x l IH]; intros [|i]; simpl; try lia; auto.
  intros L. apply IH. lia.
Qed.

Lemma set_nth_Forall {A} (P : A -> Prop) i v l :
  P v -> Forall P l -> Forall P (set_nth i v l).
Proof.
  intros Pv F. revert i. induction F as [|x l Px F IH]; intros [|i]; simpl; auto.
Qed.

(** ** The country filters of the code are [restrict] *)

Lemma route_filter_restrict F ctry :
  has_columns F country_route_keys = true ->
  rbind (pd.getitem F "DepartCountry/Region") (fun dep =>
  rbind (pd.getitem F "ArrivalCountry/Region") (fun arr =>
  Ok (pd.loc_mask F (pd.mask_and (pd.series_eq dep (CStr ctry))
                                 (pd.series_eq arr (CStr ctry))))))
  = Ok (restrict (Some ctry) country_route_keys F).
Proof.
  unfold has_columns. simpl. intros H.
  apply andb_prop in H as (Hd & H). apply andb_prop in H as (Ha & _).
  destruct (mem_index_of _ _ Hd) as (i & Ei & _).
  destruct (mem_index_of _ _ Ha) as (j & Ej & _).
  unfold pd.getitem. rewrite Ei, Ej. simpl rbind.
  unfold pd.series_eq, pd.column_at. rewrite !map_map, mask_and_map, loc_mask_map.
  unfold restrict. do 2 f_equal. apply filter_ext. intros r.
  unfold within, field. simpl. rewrite Ei, Ej. now rewrite andb_true_r.
Qed.

Lemma route_filter_frame T ctry :
  has_columns T country_route_keys = true ->
  rbind (pd.getitem (pd.fillna none T) "DepartCountry/Region") (fun dep =>
  rbind (pd.getitem (pd.fillna none T) "ArrivalCountry/Region") (fun arr =>
  Ok (pd.loc_mask (pd.fillna none T)
        (pd.mask_and (pd.series_eq dep (CStr ctry))
                     (pd.series_eq arr (CStr ctry))))))
  = Ok (route_input (Some ctry) T).
Proof. intros H. now apply route_filter_restrict. Qed.

Lemma case_filter_restrict F ctry :
  has_columns F ["Country/Region"] = true ->
  filter_frame ctry F = Ok (restrict (Some ctry) ["Country/Region"] F).
Proof.
  unfold has_columns. simpl. intros H. apply andb_prop in H as (Hc & _).
  destruct (mem_index_of _ _ Hc) as (i & Ei & _).
  unfold filter_frame, pd.getitem. rewrite Ei. simpl rbind.
  unfold pd.series_eq, pd.column_at. rewrite !map_map, loc_mask_map.
  unfold restrict. do 2 f_equal. apply filter_ext. intros r.
  unfold within, field. simpl. rewrite Ei. now rewrite andb_true_r.
Qed.

Lemma case_filter_frame T ctry :
  has_columns T ["Country/Region"] = true ->
  filter_frame ctry (pd.fillna none T) = Ok (case_input (Some ctry) T).
Proof. intros H. now apply case_filter_restrict. Qed.

Lemma input_None cols T : restrict None cols (pd.fillna none T) = pd.fillna none T.
Proof. unfold restrict, pd.fillna. simpl. now rewrite filter_true. Qed.

(** [routes_frame] on a table that has the country columns. *)
Lemma routes_frame_eq T g c :
  (c = None \/ has_columns T country_route_keys = true) ->
  routes_frame T g c =
  let T3 := pd.setitem (route_input c T) "NumberOfRoutes" (CInt 1) in
  if String.eqb g "county" then grouped_sum county_route_keys T3
  else if String.eqb g "state" then grouped_sum state_route_keys T3
  else if String.eqb g "country" then grouped_sum country_route_keys T3
  else Ok None.
Proof.
  intros H. unfold routes_frame. destruct c as [ctry|].
  - destruct H as [H|H]; [discriminate|]. now rewrite (route_filter_frame T ctry H).
  - unfold route_input. now rewrite input_None.
Qed.

(** ** Well-formed frames through the preparation steps *)

Lemma filter_all {A} (p : A -> bool) l :
  (forall x, In x l -> p x = true) -> filter p l = l.
Proof.
  induction l as [|x l IH]; simpl; intros H; auto.
  rewrite (H x) by now left. f_equal. apply IH. intros; apply H; now right.
Qed.

Lemma forallb_filter_sub {A} (p q : A -> bool) l :
  forallb p l = true -> forallb p (filter q l) = true.
Proof.
  rewrite !forallb_forall. intros H x I. apply filter_In in I as (I & _). auto.
Qed.

Lemma forallb_map_comp {A B} (p : B -> bool) (g : A -> B) l :
  forallb p (map g l) = forallb (fun x => p (g x)) l.
Proof. induction l; simpl; congruence. Qed.

Lemma forallb_pointwise {A} (p q : A -> bool) l :
  (forall x, p x = q x) -> forallb p l = forallb q l.
Proof. intros E. induction l; simpl; congruence. Qed.

Lemma fillna_clean T : clean (pd.fillna none T) = true.
Proof.
  unfold clean, pd.fillna. simpl. apply forallb_forall. intros r I.
  apply in_map_iff in I as (r0 & <- & _). simpl.
  apply forallb_forall. intros c I. apply in_map_iff in I as (c0 & <- & _).
  now destruct c0.
Qed.

Lemma fillna_rectangular v T : rectangular (pd.fillna v T) = rectangular T.
Proof.
  unfold rectangular, pd.fillna. simpl. rewrite forallb_map_comp.
  apply forallb_pointwise. intros r. simpl. now rewrite length_map.
Qed.

Lemma restrict_rectangular c cols T :
  rectangular T = true -> rectangular (restrict c cols T) = true.
Proof. unfold rectangular, restrict. simpl. apply forallb_filter_sub. Qed.

Lemma restrict_clean c cols T : clean T = true -> clean (restrict c cols T) = true.
Proof. unfold clean, restrict. simpl. apply forallb_filter_sub. Qed.

Lemma route_input_wf c T :
  rectangular T = true ->
  rectangular (route_input c T) = true /\ clean (route_input c T) = true.
Proof.
  intros R. unfold route_input. split.
  - apply restrict_rectangular. now rewrite fillna_rectangular.
  - apply restrict_clean, fillna_clean.
Qed.

(** After [df["NumberOfRoutes"] = 1] the column is there and holds 1 in
    every row. *)
Lemma setitem_counting T2 :
  rectangular T2 = true -> clean T2 = true ->
  let T3 := pd.setitem T2 "NumberOfRoutes" (CInt 1) in
  exists i, index_of "NumberOfRoutes" (columns T3) = Some i /\
    rectangular T3 = true /\ clean T3 = true /\
    Forall (fun r => nth i (vals r) CNaN = CInt 1) (rows T3) /\
    length (rows T3) = length (rows T2) /\
    forall c, mem c (columns T2) = true -> mem c (columns T3) = true.
Proof.
  unfold rectangular, clean. rewrite !forallb_forall. intros R C.
  unfold pd.setitem.
  destruct (index_of "NumberOfRoutes" (columns T2)) as [i|] eqn:E; simpl.
  - exists i. pose proof (index_of_lt _ _ _ E) as L.
    split; [exact E|]. unfold rectangular, clean. simpl.
    rewrite !forallb_forall. repeat split.
    + intros r I. apply in_map_iff in I as (r0 & <- & I). simpl.
      rewrite set_nth_length. now apply R.
    + intros r I. apply in_map_iff in I as (r0 & <- & I). simpl.
      apply forallb_forall, Forall_forall, set_nth_Forall; [reflexivity|].
      apply Forall_forall, forallb_forall. now apply C.
    + apply Forall_forall. intros r I. apply in_map_iff in I as (r0 & <- & I).
      simpl. apply set_nth_nth. specialize (R r0 I).
      apply Nat.eqb_eq in R. lia.
    + apply length_map.
    + auto.
  - exists (length (columns T2)).
    split; [now apply index_of_new|]. unfold rectangular, clean. simpl.
    rewrite !forallb_forall. repeat split.
    + intros r I. apply in_map_iff in I as (r0 & <- & I). simpl.
      rewrite !length_app. simpl. specialize (R r0 I).
      apply Nat.eqb_eq in R. apply Nat.eqb_eq. lia.
    + intros r I. apply in_map_iff in I as (r0 & <- & I). simpl.
      rewrite forallb_app. rewrite (C r0 I). reflexivity.
    + apply Forall_forall. intros r I. apply in_map_iff in I as (r0 & <- & I).
      simpl. specialize (R r0 I). apply Nat.eqb_eq in R.
      rewrite <- R. rewrite nth_middle. reflexivity.
    + apply length_map.
    + intros c M. now apply mem_app_l.
Qed.

(** ** The route count *)

Lemma key_indices_ok T by_ :
  has_columns T by_ = true ->
  exists ixs, pd.key_indices T by_ = Ok ixs /\ length ixs = length by_ /\
              Forall (fun i => i < length (columns T)) ixs.
Proof.
  unfold has_columns, pd.key_indices.
  induction by_ as [|c by_ IH]; simpl; intros H.
  - exists []. repeat split; auto.
  - apply andb_prop in H as (Hc & H).
    destruct (mem_index_of _ _ Hc) as (i & Ei & L).
    destruct (IH H) as (ixs & E & Len & F).
    exists (i :: ixs). rewrite Ei. simpl. rewrite E. simpl.
    repeat split; auto.
Qed.

Lemma keyed_all T ixs :
  rectangular T = true -> clean T = true ->
  Forall (fun i => i < length (columns T)) ixs ->
  pd.keyed ixs (rows T) = rows T.
Proof.
  unfold rectangular, clean. rewrite !forallb_forall. intros R C F.
  apply filter_all. intros r I. apply negb_true_iff.
  destruct (existsb isna (pd.key_of ixs r)) eqn:E; auto.
  apply existsb_exists in E as (c & Ic & Na).
  apply in_map_iff in Ic as (i & <- & Ii).
  rewrite Forall_forall in F. specialize (F i Ii).
  specialize (R r I). apply Nat.eqb_eq in R.
  specialize (C r I). rewrite forallb_forall in C.
  specialize (C (nth i (vals r) CNaN)). rewrite Na in C.
  discriminate C. apply nth_In. lia.
Qed.

Lemma wrap64_small z : (0 <= z < 2 ^ 63)%Z -> wrap64 z = z.
Proof.
  intros H. unfold wrap64. change (2 ^ 64)%Z with (2 * 2 ^ 63)%Z.
  set (P := (2 ^ 63)%Z) in *. rewrite Z.mod_small; lia.
Qed.

Lemma ones_sum i rs :
  Forall (fun r => nth i (vals r) CNaN = CInt 1) rs ->
  pd.Zsum (map pd.int_of (pd.column_at i rs)) = Z.of_nat (length rs).
Proof.
  induction 1 as [|r rs E _ IH]; [reflexivity|].
  simpl length. rewrite Nat2Z.inj_succ, <- IH.
  unfold pd.column_at, pd.Zsum. cbn [map fold_right]. rewrite E.
  cbn [pd.int_of]. lia.
Qed.

Lemma ones_int i rs :
  Forall (fun r => nth i (vals r) CNaN = CInt 1) rs ->
  forallb pd.is_int (pd.column_at i rs) = true.
Proof.
  induction 1 as [|r rs E _ IH]; [reflexivity|]. simpl. now rewrite E.
Qed.

Lemma group_Forall (P : Row -> Prop) ixs rs k :
  Forall P rs -> Forall P (pd.group ixs rs k).
Proof.
  rewrite !Forall_forall. intros H r I. unfold pd.group, pd.keyed in I.
  apply filter_In in I as (I & _). apply filter_In in I as (I & _). auto.
Qed.

Lemma grouped_sum_counted T3 by_ i ixs :
  index_of "NumberOfRoutes" (columns T3) = Some i ->
  Forall (fun r => nth i (vals r) CNaN = CInt 1) (rows T3) ->
  pd.key_indices T3 by_ = Ok ixs ->
  existsb (fun n => mem n ["NumberOfRoutes"]) by_ = false ->
  grouped_sum by_ T3 = Ok (Some (counted by_ ixs T3)).
Proof.
  intros Ei One Ek Nm. unfold grouped_sum, pd.groupby_sum.
  rewrite Ek. simpl rbind. rewrite Ei.
  unfold pd.dtype_of. rewrite (ones_int _ _ One). simpl pd.agg_sum.
  rewrite (rmap_ok _ (fun k => mkRow k
             [CInt (wrap64 (Z.of_nat (length (pd.group ixs (rows T3) k))))])).
  - simpl rbind. unfold pd.reset_index. simpl index_names. simpl columns.
    rewrite Nm. simpl. unfold counted. now rewrite map_map.
  - intros k _. simpl. now rewrite (ones_sum _ _ (group_Forall _ _ _ k One)).
Qed.

Lemma wrapped_sum {A} (f : A -> nat) l :
  (forall a, In a l -> (Z.of_nat (f a) < 2 ^ 63)%Z) ->
  pd.Zsum (map (fun a => wrap64 (Z.of_nat (f a))) l) =
  Z.of_nat (list_sum (map f l)).
Proof.
  induction l as [|a l IH]; intros H; [reflexivity|].
  cbn [map list_sum fold_right]. rewrite Nat2Z.inj_add.
  change (fold_right Nat.add 0 (map f l)) with (list_sum (map f l)).
  rewrite <- IH by (intros; apply H; now right).
  unfold pd.Zsum. cbn [fold_right].
  rewrite wrap64_small; [reflexivity|]. split; [lia|]. apply H. now left.
Qed.

(** The counts of the route-count table add up to the number of rows. *)
Lemma counted_total T3 by_ ixs :
  rectangular T3 = true -> clean T3 = true ->
  Forall (fun i => i < length (columns T3)) ixs ->
  length ixs = length by_ ->
  index_of "NumberOfRoutes" (by_ ++ ["NumberOfRoutes"]) = Some (length by_) ->
  (Z.of_nat (length (rows T3)) < 2 ^ 63)%Z ->
  exists cs, pd.getitem (counted by_ ixs T3) "NumberOfRoutes" = Ok cs /\
    forallb pd.is_int cs = true /\
    pd.Zsum (map pd.int_of cs) = Z.of_nat (length (rows T3)).
Proof.
  intros R C F Len Ei Small.
  unfold pd.getitem, counted. simpl columns. rewrite Ei. simpl rows.
  eexists. split; [reflexivity|].
  unfold pd.column_at. rewrite map_map. simpl vals.
  assert (Col : map (fun k => nth (length by_)
                        (k ++ [CInt (wrap64 (Z.of_nat (length (pd.group ixs (rows T3) k))))])
                        CNaN) (pd.group_keys ixs (rows T3))
                = map (fun k => CInt (wrap64 (Z.of_nat (length (pd.group ixs (rows T3) k)))))
                      (pd.group_keys ixs (rows T3))).
  { apply map_ext_in. intros k I.
    apply group_keys_key in I as (r & _ & ->).
    unfold pd.key_of. rewrite <- Len, <- (length_map (fun i => nth i (vals r) CNaN) ixs).
    apply nth_middle. }
  rewrite Col. split.
  - rewrite forallb_map_comp. now apply forallb_forall.
  - rewrite map_map. simpl pd.int_of.
    rewrite (wrapped_sum (fun k => length (pd.group ixs (rows T3) k))).
    + rewrite groups_partition. now rewrite (keyed_all T3 ixs R C F).
    + intros k _. pose proof (group_length ixs (rows T3) k). lia.
Qed.

Lemma has_columns_mono T T' cols :
  (forall c, mem c (columns T) = true -> mem c (columns T') = true) ->
  has_columns T cols = true -> has_columns T' cols = true.
Proof.
  unfold has_columns. rewrite !forallb_forall. intros M H c I. auto.
Qed.

Lemma route_keys_country T g :
  valid_granularity g = true ->
  has_columns T (route_keys g) = true -> has_columns T country_route_keys = true.
Proof.
  intros V. unfold has_columns, route_keys.
  destruct (valid_granularity_cases g V) as [-> | [-> | ->]]; simpl;
    intros H; repeat (apply andb_prop in H as (? & H));
    repeat (apply andb_true_intro; split); auto.
Qed.

Lemma routes_frame_valid T g c :
  valid_granularity g = true ->
  (c = None \/ has_columns T country_route_keys = true) ->
  routes_frame T g c =
  grouped_sum (route_keys g) (pd.setitem (route_input c T) "NumberOfRoutes" (CInt 1)).
Proof.
  intros V H. rewrite routes_frame_eq by assumption. unfold route_keys.
  destruct (valid_granularity_cases g V) as [-> | [-> | ->]]; reflexivity.
Qed.

Lemma route_keys_fresh g :
  existsb (fun n => mem n ["NumberOfRoutes"]) (route_keys g) = false /\
  index_of "NumberOfRoutes" (route_keys g ++ ["NumberOfRoutes"])
  = Some (length (route_keys g)).
Proof.
  unfold route_keys.
  destruct (String.eqb g "county"); [split; reflexivity|].
  destruct (String.eqb g "state"); split; reflexivity.
Qed.

Lemma route_input_length c T : length (rows (route_input c T)) <= length (rows T).
Proof.
  unfold route_input, restrict, pd.fillna. simpl.
  etransitivity; [apply filter_length_le|]. now rewrite length_map.
Qed.

(** On a well-formed route table the frame function yields the route-count
    table of the selected routes. *)
Lemma routes_frame_counted T g c :
  valid_granularity g = true ->
  rectangular T = true ->
  has_columns T (route_keys g) = true ->
  exists ixs T3,
    routes_frame T g c = Ok (Some (counted (route_keys g) ixs T3)) /\
    rectangular T3 = true /\ clean T3 = true /\
    Forall (fun i => i < length (columns T3)) ixs /\
    length ixs = length (route_keys g) /\
    length (rows T3) = length (rows (route_input c T)).
Proof.
  intros V R H.
  rewrite (routes_frame_valid T g c V (or_intror (route_keys_country T g V H))).
  destruct (route_input_wf c T R) as (R2 & C2).
  destruct (setitem_counting (route_input c T) R2 C2)
    as (i & Ei & R3 & C3 & One & Len & Mono).
  set (T3 := pd.setitem (route_input c T) "NumberOfRoutes" (CInt 1)) in *.
  assert (H3 : has_columns T3 (route_keys g) = true)
    by (apply (has_columns_mono (route_input c T)); auto).
  destruct (key_indices_ok T3 (route_keys g) H3) as (ixs & Ek & Lk & F).
  exists ixs, T3. repeat split; auto.
  apply (grouped_sum_counted T3 (route_keys g) i ixs); auto.
  apply route_keys_fresh.
Qed.

(** What a successful simulation of a method that returns a frame gives. *)
Lemma sim_returns h (run : result (option loc) * store) R :
  sim at_opt h run (Ok (Some R)) ->
  exists l, fst run = Ok (Some l) /\ at_ (snd run) l R.
Proof.
  intros (ext & S & a & F & A). destruct a as [l|]; [|contradiction].
  exists l. rewrite S. now split.
Qed.

(** C1. On a route table that has the grouping columns of the granularity
    and one cell per column in every row, [routesToWeightedEdges] returns a
    table whose column [NumberOfRoutes] holds integers that add up to the
    number of rows of the route table, missing fields normalised to
    ["none"], that pass the optional country filter.  (The counts are
    [int64] values: the table has fewer than [2^63] rows.) *)
Theorem routes_count_conserved :
  forall (self : CovidData) (h : store) (T : DataFrame) (g : string)
         (c : option string),
    at_ h (routes_df self) T ->
    valid_granularity g = true ->
    rectangular T = true ->
    has_columns T (route_keys g) = true ->
    (Z.of_nat (length (rows T)) < 2 ^ 63)%Z ->
    exists l R cs,
      fst (routesToWeightedEdges self g c h) = Ok (Some l) /\
      at_ (snd (routesToWeightedEdges self g c h)) l R /\
      pd.getitem R "NumberOfRoutes" = Ok cs /\
      forallb pd.is_int cs = true /\
      pd.Zsum (map pd.int_of cs) = Z.of_nat (length (rows (route_input c T))).
Proof.
  intros self h T g c E V R H Small.
  destruct (routes_frame_counted T g c V R H)
    as (ixs & T3 & Ef & R3 & C3 & F & Lk & Len).
  pose proof (routes_sim self g c h T E) as S. rewrite Ef in S.
  destruct (sim_returns _ _ _ S) as (l & Fl & Al).
  destruct (counted_total T3 (route_keys g) ixs R3 C3 F Lk
              (proj2 (route_keys_fresh g))) as (cs & Gc & Ic & Sc).
  { rewrite Len. pose proof (route_input_length c T). lia. }
  exists l, (counted (route_keys g) ixs T3), cs. rewrite <- Len. auto.
Qed.

Lemma routes_count_conserved_witness :
  exists l R cs,
    fst (routesToWeightedEdges ex_self "state" (Some "US") ex_store) = Ok (Some l) /\
    at_ (snd (routesToWeightedEdges ex_self "state" (Some "US") ex_store)) l R /\
    pd.getitem R "NumberOfRoutes" = Ok cs /\
    forallb pd.is_int cs = true /\
    pd.Zsum (map pd.int_of cs)
    = Z.of_nat (length (rows (route_input (Some "US") ex_routes))).
Proof.
  apply (routes_count_conserved ex_self ex_store ex_routes "state" (Some "US")).
  - reflexivity.
  - reflexivity.
  - reflexivity.
  - reflexivity.
  - vm_compute. reflexivity.
Defined.

(** ** What a call returned *)

Lemma sim_ok_inv {A B} (R : store -> A -> B -> Prop) h (run : result A * store) r a :
  sim R h run r -> fst run = Ok a -> exists b, r = Ok b /\ R (snd run) a b.
Proof.
  intros (ext & S & X) F. destruct r as [b|e].
  - destruct X as (a' & F' & Ra). exists b. split; auto.
    rewrite S. congruence.
  - congruence.
Qed.

Lemma sim_returned h run r : sim at_opt h run r -> returned run = r.
Proof.
  intros (ext & S & X). unfold returned. destruct r as [[T|]|e].
  - destruct X as ([l|] & -> & A); [|contradiction]. rewrite S.
    unfold at_opt, at_ in A. now rewrite A.
  - destruct X as ([l|] & -> & A); [contradiction|reflexivity].
  - now rewrite X.
Qed.

Lemma routes_returned self g c h T :
  at_ h (routes_df self) T ->
  returned (routesToWeightedEdges self g c h) = routes_frame T g c.
Proof. intros E. apply sim_returned with (h := h). now apply routes_sim. Qed.

Lemma valid_at self h :
  valid self h ->
  exists Tc Td Tr Trt,
    at_ h (confirmed_df self) Tc /\ at_ h (deaths_df self) Td /\
    at_ h (recovered_df self) Tr /\ at_ h (routes_df self) Trt.
Proof.
  intros (Hc & Hd & Hr & Ht). unfold at_.
  apply nth_error_Some in Hc, Hd, Hr, Ht.
  destruct (nth_error h (confirmed_df self)) as [Tc|]; [|congruence].
  destruct (nth_error h (deaths_df self)) as [Td|]; [|congruence].
  destruct (nth_error h (recovered_df self)) as [Tr|]; [|congruence].
  destruct (nth_error h (routes_df self)) as [Trt|]; [|congruence].
  now exists Tc, Td, Tr, Trt.
Qed.

(** ** Inversion of the frame functions *)

Lemma filter_frame_inv ctry F X :
  filter_frame ctry F = Ok X -> X = restrict (Some ctry) ["Country/Region"] F.
Proof.
  intros E. assert (H : has_columns F ["Country/Region"] = true).
  { unfold filter_frame, pd.getitem in E. unfold has_columns. simpl.
    destruct (index_of "Country/Region" (columns F)) eqn:Ei; [|discriminate].
    now rewrite (index_of_mem _ _ _ Ei). }
  rewrite (case_filter_restrict F ctry H) in E. congruence.
Qed.

Lemma dict_rmap_inv f (g : DataFrame -> DataFrame) d d' :
  (forall T X, f T = Ok X -> X = g T) ->
  dict_rmap f d = Ok d' -> d' = map (fun p => (fst p, g (snd p))) d.
Proof.
  intros Hf. revert d'. induction d as [|[k v] d IH]; simpl; intros d' E.
  - congruence.
  - destruct (f v) as [v'|] eqn:Ev; simpl in E; [|discriminate].
    destruct (dict_rmap f d) as [d''|]; simpl in E; [|discriminate].
    injection E as <-. now rewrite (Hf _ _ Ev), (IH _ eq_refl).
Qed.

Lemma dict_rmap_In f d d' k R :
  dict_rmap f d = Ok d' -> In (k, R) d' ->
  exists T, In (k, T) d /\ f T = Ok R.
Proof.
  revert d'. induction d as [|[k0 v] d IH]; simpl; intros d' E I.
  - injection E as <-. contradiction.
  - destruct (f v) as [v'|] eqn:Ev; simpl in E; [|discriminate].
    destruct (dict_rmap f d) as [d''|]; simpl in E; [|discriminate].
    injection E as <-. destruct I as [I|I].
    + injection I as -> ->. exists v. auto.
    + destruct (IH _ eq_refl I) as (T & IT & ET). exists T. auto.
Qed.

Lemma holds_In h data out k l :
  holds h data out -> In (k, l) data -> exists R, In (k, R) out /\ at_ h l R.
Proof.
  induction 1 as [|[k1 l1] [k2 R2] d o (K & E) _ IH]; simpl; [tauto|].
  simpl in K, E. subst k2. intros [I|I].
  - injection I as -> ->. exists R2. auto.
  - destruct (IH I) as (R & IR & A). exists R. auto.
Qed.

Lemma case_tables_filled g c Tc Td Tr X :
  match c with
  | None =>
      Ok (if String.eqb g "country"
          then dict_set [("confirmed", pd.fillna none Tc); ("deaths", pd.fillna none Td)]
                        "recovered" (pd.fillna none Tr)
          else [("confirmed", pd.fillna none Tc); ("deaths", pd.fillna none Td)])
  | Some ctry =>
      dict_rmap (filter_frame ctry)
        (if String.eqb g "country"
         then dict_set [("confirmed", pd.fillna none Tc); ("deaths", pd.fillna none Td)]
                       "recovered" (pd.fillna none Tr)
         else [("confirmed", pd.fillna none Tc); ("deaths", pd.fillna none Td)])
  end = Ok X ->
  X = case_inputs g c Tc Td Tr.
Proof.
  unfold case_inputs, case_tables, case_input. destruct c as [ctry|].
  - intros E.
    apply (dict_rmap_inv _ (restrict (Some ctry) ["Country/Region"])) in E;
      [|apply filter_frame_inv].
    subst X. now destruct (String.eqb g "country").
  - intros E. injection E as <-.
    destruct (String.eqb g "country"); simpl; now rewrite !input_None.
Qed.

Lemma case_inputs_confirmed g c Tc Td Tr :
  dict_get (case_inputs g c Tc Td Tr) "confirmed" = Ok (case_input c Tc).
Proof.
  unfold case_inputs, case_tables. now destruct (String.eqb g "country").
Qed.

Lemma case_input_columns c T : columns (case_input c T) = columns T.
Proof. reflexivity. Qed.

(** A call of [getData] that returns went through every step. *)
Lemma getData_frames_inv Tc Td Tr Trt g c d out ro :
  getData_frames Tc Td Tr Trt g c d = Ok (out, ro) ->
  valid_granularity g = true /\
  exists sel,
    select_dates d (date_columns Tc) = Ok sel /\
    dict_rmap (aggregate_frame g (fst sel) (snd sel)) (case_inputs g c Tc Td Tr)
    = Ok out /\
    routes_frame Trt g c = Ok ro.
Proof.
  unfold getData_frames. destruct (valid_granularity g); cbn [negb];
    [|discriminate].
  intros E. split; auto.
  match type of E with rbind ?m _ = _ => destruct m as [X|] eqn:EX end;
    cbn [rbind] in E; [|discriminate].
  apply case_tables_filled in EX. subst X.
  rewrite case_inputs_confirmed in E. cbn [rbind] in E.
  change (columns (case_input c Tc)) with (columns Tc) in E.
  unfold date_columns.
  destruct (select_dates d (skipn 5 (columns Tc))) as [sel|]; cbn [rbind] in E;
    [|discriminate].
  exists sel. split; auto.
  destruct (dict_rmap _ _) as [out'|]; cbn [rbind] in E; [|discriminate].
  destruct (routes_frame Trt g c) as [ro'|]; cbn [rbind] in E; [|discriminate].
  now injection E as <- <-.
Qed.

Lemma getData_returns_inv self g c d h Tc Td Tr Trt data r :
  at_ h (confirmed_df self) Tc -> at_ h (deaths_df self) Td ->
  at_ h (recovered_df self) Tr -> at_ h (routes_df self) Trt ->
  fst (getData self g c d h) = Ok (data, r) ->
  valid_granularity g = true /\
  exists sel out ro,
    select_dates d (date_columns Tc) = Ok sel /\
    dict_rmap (aggregate_frame g (fst sel) (snd sel)) (case_inputs g c Tc Td Tr)
    = Ok out /\
    routes_frame Trt g c = Ok ro /\
    holds (snd (getData self g c d h)) data out /\
    at_opt (snd (getData self g c d h)) r ro.
Proof.
  intros Ec Ed Er Et F.
  destruct (sim_ok_inv _ _ _ _ _ (getData_sim self g c d h Tc Td Tr Trt Ec Ed Er Et) F)
    as ([out ro] & E & Ho & Hr).
  destruct (getData_frames_inv _ _ _ _ _ _ _ _ _ E) as (V & sel & Es & Ea & Ert).
  split; auto. exists sel, out, ro. auto.
Qed.

(** ** Invalid granularity *)

Lemma getData_rejects_invalid_granularity self g c d h :
  valid_granularity g = false ->
  getData self g c d h = (Raise (AssertionError invalid_region_msg), h).
Proof.
  intros V. unfold getData.
  change (String.eqb g "county" || String.eqb g "state" || String.eqb g "country")%bool
    with (valid_granularity g).
  now rewrite V.
Qed.

(** C2. [getData] rejects an unknown granularity at once, but
    [routesToWeightedEdges] does not: called with one, on a route table
    that has the country columns, it copies, normalises and filters the
    table, matches none of its three [if]s and returns [None], with no
    error. *)
Theorem routes_accepts_invalid_granularity :
  forall (self : CovidData) (h : store) (T : DataFrame) (g : string)
         (c : option string),
    at_ h (routes_df self) T ->
    valid_granularity g = false ->
    (c = None \/ has_columns T country_route_keys = true) ->
    fst (routesToWeightedEdges self g c h) = Ok None /\
    fst (getData self g c None h) = Raise (AssertionError invalid_region_msg).
Proof.
  intros self h T g c E V H. split.
  - pose proof (routes_returned self g c h T E) as R.
    rewrite (routes_frame_eq T g c H) in R.
    unfold valid_granularity in V.
    apply orb_false_elim in V as (V & V3). apply orb_false_elim in V as (V1 & V2).
    cbv zeta in R. rewrite V1, V2, V3 in R.
    unfold returned in R.
    destruct (fst (routesToWeightedEdges self g c h)) as [[l|]|e]; try congruence.
    destruct (nth_error _ l); discriminate.
  - now rewrite getData_rejects_invalid_granularity.
Qed.

Lemma routes_accepts_invalid_granularity_witness :
  fst (routesToWeightedEdges ex_self "city" (Some "US") ex_store) = Ok None /\
  fst (getData ex_self "city" (Some "US") None ex_store)
  = Raise (AssertionError invalid_region_msg).
Proof.
  apply (routes_accepts_invalid_granularity ex_self ex_store ex_routes).
  - reflexivity.
  - reflexivity.
  - right. reflexivity.
Defined.

(** ** Unknown dates *)

Lemma mem_In s l : mem s l = true <-> In s l.
Proof.
  unfold mem. rewrite existsb_exists. split.
  - intros (x & I & E). apply String.eqb_eq in E. now subst.
  - intros I. exists s. split; auto. apply String.eqb_refl.
Qed.

Lemma case_tables_prepared g c Tc Td Tr :
  filterable c (case_tables g Tc Td Tr) = true ->
  match c with
  | None =>
      Ok (if String.eqb g "country"
          then dict_set [("confirmed", pd.fillna none Tc); ("deaths", pd.fillna none Td)]
                        "recovered" (pd.fillna none Tr)
          else [("confirmed", pd.fillna none Tc); ("deaths", pd.fillna none Td)])
  | Some ctry =>
      dict_rmap (filter_frame ctry)
        (if String.eqb g "country"
         then dict_set [("confirmed", pd.fillna none Tc); ("deaths", pd.fillna none Td)]
                       "recovered" (pd.fillna none Tr)
         else [("confirmed", pd.fillna none Tc); ("deaths", pd.fillna none Td)])
  end = Ok (case_inputs g c Tc Td Tr).
Proof.
  unfold filterable, case_inputs, case_tables. destruct c as [ctry|].
  - destruct (String.eqb g "country"); cbn [forallb snd]; intros H;
      repeat (apply andb_prop in H as (? & H));
      cbn [dict_set dict_rmap String.eqb Ascii.eqb Bool.eqb andb map fst snd];
      rewrite !case_filter_frame by assumption; reflexivity.
  - intros _. unfold case_input.
    destruct (String.eqb g "country"); simpl; now rewrite !input_None.
Qed.

(** C3. With a valid granularity (county included) and tables that can be
    country-filtered, a [specific_date] other than ["latest"] that is not
    one of the date columns of the confirmed table makes [getData] fail
    with the assertion error whose message starts with that date. *)
Theorem getData_rejects_unknown_date :
  forall (self : CovidData) (h : store) (Tc Td Tr Trt : DataFrame)
         (g : string) (c : option string) (d : string),
    at_ h (confirmed_df self) Tc -> at_ h (deaths_df self) Td ->
    at_ h (recovered_df self) Tr -> at_ h (routes_df self) Trt ->
    valid_granularity g = true ->
    filterable c (case_tables g Tc Td Tr) = true ->
    d <> "latest" ->
    ~ In d (date_columns Tc) ->
    fst (getData self g c (Some d) h) = Raise (AssertionError (invalid_date_msg d)).
Proof.
  intros self h Tc Td Tr Trt g c d Ec Ed Er Et V Fl Nl Nd.
  destruct (getData_sim self g c (Some d) h Tc Td Tr Trt Ec Ed Er Et)
    as (ext & _ & X).
  assert (E : getData_frames Tc Td Tr Trt g c (Some d)
              = Raise (AssertionError (invalid_date_msg d))).
  { unfold getData_frames. rewrite V. cbn [negb].
    rewrite (case_tables_prepared g c Tc Td Tr Fl). cbn [rbind].
    rewrite case_inputs_confirmed. cbn [rbind].
    change (columns (case_input c Tc)) with (columns Tc).
    unfold select_dates.
    apply String.eqb_neq in Nl. rewrite Nl. cbn [negb].
    fold (date_columns Tc).
    destruct (mem d (date_columns Tc)) eqn:M; [|reflexivity].
    apply mem_In in M. contradiction. }
  now rewrite E in X.
Qed.

Lemma getData_rejects_unknown_date_witness :
  fst (getData ex_self "county" (Some "US") (Some "2020-13-40") ex_store)
  = Raise (AssertionError (invalid_date_msg "2020-13-40")).
Proof.
  apply (getData_rejects_unknown_date ex_self ex_store
           ex_confirmed ex_deaths ex_recovered ex_routes).
  - reflexivity.
  - reflexivity.
  - reflexivity.
  - reflexivity.
  - reflexivity.
  - reflexivity.
  - discriminate.
  - simpl. intuition discriminate.
Defined.

(** ** Clean frames *)

Lemma fillna_clean_id v X : clean X = true -> pd.fillna v X = X.
Proof.
  destruct X as [ins cols rs]. unfold clean, pd.fillna. simpl. intros C.
  f_equal. rewrite forallb_forall in C.
  rewrite <- (map_id rs) at 2. apply map_ext_in. intros [i vs] I. f_equal.
  specialize (C _ I). simpl in *. rewrite forallb_forall in C.
  rewrite <- (map_id vs) at 2. apply map_ext_in. intros x Ix.
  specialize (C x Ix). now destruct x.
Qed.

(** ** The recovered table *)

Lemma case_inputs_keys g c Tc Td Tr :
  dict_keys (case_inputs g c Tc Td Tr) =
  if String.eqb g "country" then ["confirmed"; "deaths"; "recovered"]
  else ["confirmed"; "deaths"].
Proof.
  unfold case_inputs, case_tables. now destruct (String.eqb g "country").
Qed.

Lemma getData_ignores_recovered self g c d h l :
  String.eqb g "country" = false ->
  getData (mkCovidData (confirmed_df self) (deaths_df self) l (routes_df self))
          g c d h
  = getData self g c d h.
Proof.
  intros E. unfold getData, routesToWeightedEdges. simpl. now rewrite E.
Qed.

(** A call of [getData] that returns, returns a dictionary that has
    the key [recovered] exactly when the granularity is [country].  At the
    other granularities the recovered table is not read at all: whatever
    the instance holds as [recovered_df], the call does the same. *)
Lemma recovered_key_returned :
  forall (self : CovidData) (h : store) (g : string) (c d : option string)
         (data : dict loc) (r : option loc),
    valid self h ->
    fst (getData self g c d h) = Ok (data, r) ->
    (In "recovered" (dict_keys data) <-> g = "country") /\
    (g <> "country" ->
     forall l, getData (mkCovidData (confirmed_df self) (deaths_df self) l
                                    (routes_df self)) g c d h
               = getData self g c d h).
Proof.
  intros self h g c d data r V F.
  destruct (valid_at self h V) as (Tc & Td & Tr & Trt & Ec & Ed & Er & Et).
  destruct (getData_returns_inv self g c d h Tc Td Tr Trt data r Ec Ed Er Et F)
    as (_ & sel & out & ro & _ & Ea & _ & Ho & _).
  split.
  - rewrite (holds_keys _ _ _ Ho), (dict_rmap_keys _ _ _ Ea), case_inputs_keys.
    destruct (String.eqb_spec g "country") as [->|N]; simpl; intuition congruence.
  - intros N l. apply getData_ignores_recovered. now apply String.eqb_neq.
Qed.


(** ** Inversion of the grouping steps *)

Lemma rmap_inv {A B} (f : A -> result B) l l' :
  rmap f l = Ok l' -> Forall2 (fun a b => f a = Ok b) l l'.
Proof.
  revert l'. induction l as [|a l IH]; simpl; intros l' E.
  - injection E as <-. constructor.
  - destruct (f a) as [b|] eqn:Ea; simpl in E; [|discriminate].
    destruct (rmap f l) as [bs|]; simpl in E; [|discriminate].
    injection E as <-. constructor; auto.
Qed.

Lemma groupby_agg_inv T by_ d G :
  pd.groupby_agg T by_ d = Ok G ->
  exists ixs plan,
    pd.key_indices T by_ = Ok ixs /\
    Forall2 (fun p q => index_of (fst p) (columns T) = Some (fst q) /\ snd q = snd p)
            (pd.agg_plan d) plan /\
    index_names G = by_ /\
    columns G = map pd.agg_label (pd.agg_plan d) /\
    Forall2 (fun k r => idx r = k /\
               Forall2 (fun p v =>
                          pd.agg (snd p) (pd.dtype_of (pd.column_at (fst p) (rows T)))
                                 (pd.column_at (fst p) (pd.group ixs (rows T) k))
                          = Ok v) plan (vals r))
            (pd.group_keys ixs (rows T)) (rows G).
Proof.
  unfold pd.groupby_agg. intros E.
  destruct (pd.key_indices T by_) as [ixs|]; cbn [rbind] in E; [|discriminate].
  match type of E with rbind ?m _ = _ => destruct m as [plan|] eqn:Ep end;
    cbn [rbind] in E; [|discriminate].
  match type of E with rbind ?m _ = _ => destruct m as [rs|] eqn:Er end;
    cbn [rbind] in E; [|discriminate].
  injection E as <-. exists ixs, plan. repeat split; auto.
  - apply rmap_inv in Ep. clear - Ep.
    induction Ep as [|p q l l' H _ IH]; constructor; auto.
    destruct (mem (fst p) by_); [discriminate|].
    destruct (index_of (fst p) (columns T)); [|discriminate].
    injection H as <-. auto.
  - apply rmap_inv in Er. simpl. clear - Er.
    induction Er as [|k r l l' H _ IH]; constructor; auto.
    match type of H with rbind ?m _ = _ => destruct m as [vs|] eqn:Ev end;
      cbn [rbind] in H; [|discriminate].
    injection H as <-. simpl. split; auto. now apply rmap_inv.
Qed.

Lemma Forall2_length_eq {A B} (P : A -> B -> Prop) l l' :
  Forall2 P l l' -> length l = length l'.
Proof. induction 1; simpl; auto. Qed.

(** A regrouped table has the grouping columns, then the new columns, and
    one row per group. *)
Lemma regroup_frame_inv by_ d cols T R :
  regroup_frame by_ d cols T = Ok R ->
  exists G, pd.groupby_agg T by_ d = Ok G /\
    length cols = length (columns G) /\
    R = mkDF [] (by_ ++ cols) (map (fun r => mkRow [] (idx r ++ vals r)) (rows G)).
Proof.
  unfold regroup_frame. intros E.
  destruct (pd.groupby_agg T by_ d) as [G|] eqn:EG; cbn [rbind] in E; [|discriminate].
  destruct (groupby_agg_inv _ _ _ _ EG) as (_ & _ & _ & _ & In_ & _).
  exists G. split; auto.
  unfold pd.set_columns in E.
  destruct (Nat.eqb_spec (length cols) (length (columns G))) as [L|];
    cbn [rbind] in E; [|discriminate].
  unfold pd.reset_index in E. simpl in E.
  destruct (existsb _ _); [discriminate|]. injection E as <-.
  split; auto. now rewrite In_.
Qed.

Lemma aggregate_frame_regroup g d cols T :
  g = "state" \/ g = "country" ->
  aggregate_frame g d cols T = regroup_frame (location_keys g) d cols T.
Proof. intros [-> | ->]; reflexivity. Qed.

Lemma regrouped_rows_le by_ d cols T R :
  regroup_frame by_ d cols T = Ok R -> length (rows R) <= length (rows T).
Proof.
  intros E. destruct (regroup_frame_inv _ _ _ _ _ E) as (G & EG & _ & ER).
  destruct (groupby_agg_inv _ _ _ _ EG) as (ixs & plan & _ & _ & _ & _ & Rs).
  rewrite ER. simpl. rewrite length_map, <- (Forall2_length_eq _ _ _ Rs).
  apply group_keys_length.
Qed.

Lemma last_item_last l x : last_item l = Ok x -> last l "" = x.
Proof.
  unfold last_item. destruct (rev l) as [|y t] eqn:E; [discriminate|].
  intros [= ->]. rewrite <- (rev_involutive l), E. simpl. apply last_last.
Qed.

Lemma select_dates_columns d dates sel :
  select_dates d dates = Ok sel ->
  snd sel = ["Lat"; "Long"] ++ selected_dates d dates.
Proof.
  unfold select_dates, selected_dates. destruct d as [date|].
  - destruct (String.eqb date "latest"); cbn [negb].
    + destruct (last_item dates) as [x|] eqn:E; cbn [rbind]; [|discriminate].
      intros [= <-]. simpl. now rewrite (last_item_last _ _ E).
    + destruct (mem date dates); [|discriminate]. now intros [= <-].
  - now intros [= <-].
Qed.

(** ** County granularity *)

(** A call of [getData] at [county] granularity
    that returns, returns the confirmed and the deaths table with their
    missing cells replaced by ["none"] and their rows restricted to the
    country, when one is given; nothing is grouped, renamed or selected by
    date.  A table with no missing cell and no country given comes back
    as it is. *)
Lemma county_tables_returned :
  forall (self : CovidData) (h : store) (Tc Td Tr Trt : DataFrame)
         (c d : option string) (data : dict loc) (r : option loc),
    at_ h (confirmed_df self) Tc -> at_ h (deaths_df self) Td ->
    at_ h (recovered_df self) Tr -> at_ h (routes_df self) Trt ->
    fst (getData self "county" c d h) = Ok (data, r) ->
    (exists lc ld,
       data = [("confirmed", lc); ("deaths", ld)] /\
       at_ (snd (getData self "county" c d h)) lc
           (restrict c ["Country/Region"] (pd.fillna none Tc)) /\
       at_ (snd (getData self "county" c d h)) ld
           (restrict c ["Country/Region"] (pd.fillna none Td))) /\
    (forall T, clean T = true ->
               restrict None ["Country/Region"] (pd.fillna none T) = T).
Proof.
  intros self h Tc Td Tr Trt c d data r Ec Ed Er Et F. split.
  - destruct (getData_returns_inv self "county" c d h Tc Td Tr Trt data r
                Ec Ed Er Et F) as (_ & sel & out & ro & _ & Ea & _ & Ho & _).
    apply (dict_rmap_inv _ (fun T => T)) in Ea; [|now intros T X [= <-]].
    subst out. unfold case_inputs, case_tables in Ho. simpl in Ho.
    inversion Ho as [|[k1 lc] q1 d1 o1 (K1 & A1) Ho1]; subst.
    inversion Ho1 as [|[k2 ld] q2 d2 o2 (K2 & A2) Ho2]; subst.
    inversion Ho2; subst. simpl in *. subst. exists lc, ld. auto.
  - intros T C. rewrite input_None. now apply fillna_clean_id.
Qed.



(** ** State and country granularity *)

Lemma case_inputs_In g c Tc Td Tr name T1 :
  In (name, T1) (case_inputs g c Tc Td Tr) ->
  exists T, In (name, T) (case_tables g Tc Td Tr) /\ T1 = case_input c T.
Proof.
  unfold case_inputs. intros I. apply in_map_iff in I as ([k T] & E & I).
  simpl in E. injection E as -> <-. now exists T.
Qed.

(** Every table of a call that returns comes from regrouping one input. *)
Lemma getData_tables self g c d h Tc Td Tr Trt data r :
  at_ h (confirmed_df self) Tc -> at_ h (deaths_df self) Td ->
  at_ h (recovered_df self) Tr -> at_ h (routes_df self) Trt ->
  g = "state" \/ g = "country" ->
  fst (getData self g c d h) = Ok (data, r) ->
  exists sel ro,
    select_dates d (date_columns Tc) = Ok sel /\
    routes_frame Trt g c = Ok ro /\
    at_opt (snd (getData self g c d h)) r ro /\
    forall name l, In (name, l) data ->
      exists T R, In (name, T) (case_tables g Tc Td Tr) /\
        at_ (snd (getData self g c d h)) l R /\
        regroup_frame (location_keys g) (fst sel) (snd sel) (case_input c T) = Ok R.
Proof.
  intros Ec Ed Er Et Hg F.
  destruct (getData_returns_inv self g c d h Tc Td Tr Trt data r Ec Ed Er Et F)
    as (_ & sel & out & ro & Es & Ea & Ert & Ho & Hr).
  exists sel, ro. repeat split; auto.
  intros name l I.
  destruct (holds_In _ _ _ _ _ Ho I) as (R & IR & A).
  destruct (dict_rmap_In _ _ _ _ _ Ea IR) as (T1 & I1 & E1).
  destruct (case_inputs_In _ _ _ _ _ _ _ I1) as (T & IT & ->).
  exists T, R. repeat split; auto.
  now rewrite <- (aggregate_frame_regroup g _ _ _ Hg).
Qed.

(** In a call of [getData] at [state] or [country] granularity that
    returns, every table of the result has as columns the location-key
    fields of the granularity, then [Lat], then [Long], then the selected
    date columns (all the date columns of the confirmed table, the given
    date, or the last one for ["latest"]). *)
Lemma column_order_returned :
  forall (self : CovidData) (h : store) (Tc Td Tr Trt : DataFrame)
         (g : string) (c d : option string) (data : dict loc) (r : option loc),
    at_ h (confirmed_df self) Tc -> at_ h (deaths_df self) Td ->
    at_ h (recovered_df self) Tr -> at_ h (routes_df self) Trt ->
    g = "state" \/ g = "country" ->
    fst (getData self g c d h) = Ok (data, r) ->
    forall name l, In (name, l) data ->
      exists R, at_ (snd (getData self g c d h)) l R /\
        columns R = location_keys g ++ ["Lat"; "Long"]
                    ++ selected_dates d (date_columns Tc).
Proof.
  intros self h Tc Td Tr Trt g c d data r Ec Ed Er Et Hg F name l I.
  destruct (getData_tables self g c d h Tc Td Tr Trt data r Ec Ed Er Et Hg F)
    as (sel & ro & Es & _ & _ & Tab).
  destruct (Tab name l I) as (T & R & _ & A & E).
  exists R. split; auto.
  destruct (regroup_frame_inv _ _ _ _ _ E) as (G & _ & _ & ->).
  simpl. now rewrite (select_dates_columns _ _ _ Es).
Qed.


Lemma setitem_rows_length T c v :
  length (rows (pd.setitem T c v)) = length (rows T).
Proof.
  unfold pd.setitem. destruct (index_of c (columns T)); simpl; apply length_map.
Qed.

Lemma grouped_sum_inv by_ T ro :
  grouped_sum by_ T = Ok ro ->
  exists R, ro = Some R /\ length (rows R) <= length (rows T).
Proof.
  unfold grouped_sum, pd.groupby_sum. intros E.
  destruct (pd.key_indices T by_) as [ixs|]; cbn [rbind] in E; [|discriminate].
  destruct (index_of "NumberOfRoutes" (columns T)) as [i|]; [|discriminate].
  match type of E with context [rmap ?f ?l] => destruct (rmap f l) as [rs|] eqn:Er end;
    cbn [rbind] in E; [|discriminate].
  unfold pd.reset_index in E. simpl in E.
  destruct (existsb _ by_); cbn [rbind] in E; [discriminate|].
  injection E as <-. eexists. split; [reflexivity|]. simpl.
  rewrite length_map, (rmap_length _ _ _ Er). apply group_keys_length.
Qed.

Lemma routes_frame_has_columns T g c ro :
  routes_frame T g c = Ok ro ->
  c = None \/ has_columns T country_route_keys = true.
Proof.
  intros H. destruct c as [ctry|]; [|now left]. right.
  unfold routes_frame, pd.getitem in H. simpl columns in H.
  unfold has_columns. simpl.
  destruct (index_of "DepartCountry/Region" (columns T)) eqn:Ed;
    cbn [rbind] in H; [|discriminate].
  destruct (index_of "ArrivalCountry/Region" (columns T)) eqn:Ea;
    cbn [rbind] in H; [|discriminate].
  now rewrite (index_of_mem _ _ _ Ed), (index_of_mem _ _ _ Ea).
Qed.

Lemma routes_frame_rows_le T g c ro :
  valid_granularity g = true ->
  routes_frame T g c = Ok ro ->
  exists R, ro = Some R /\ length (rows R) <= length (rows (route_input c T)).
Proof.
  intros V E. pose proof (routes_frame_has_columns _ _ _ _ E) as H.
  rewrite (routes_frame_valid T g c V H) in E.
  destruct (grouped_sum_inv _ _ _ E) as (R & -> & L).
  exists R. split; auto. now rewrite setitem_rows_length in L.
Qed.

(** In a call of [getData] at [state] or [country] granularity that
    returns, every case table of the result (confirmed, deaths, and
    recovered at [country]) and the route table have at most as many rows
    as the (optionally country-filtered) table they are aggregated from;
    so has the table [routesToWeightedEdges] returns when called on its
    own. *)
Lemma rows_bounded_returned :
  forall (self : CovidData) (h : store) (Tc Td Tr Trt : DataFrame)
         (g : string) (c d : option string) (data : dict loc) (r : option loc),
    at_ h (confirmed_df self) Tc -> at_ h (deaths_df self) Td ->
    at_ h (recovered_df self) Tr -> at_ h (routes_df self) Trt ->
    g = "state" \/ g = "country" ->
    fst (getData self g c d h) = Ok (data, r) ->
    (forall name l, In (name, l) data ->
       exists T R, In (name, T) (case_tables g Tc Td Tr) /\
         at_ (snd (getData self g c d h)) l R /\
         length (rows R) <= length (rows (case_input c T))) /\
    (exists lr R, r = Some lr /\
       at_ (snd (getData self g c d h)) lr R /\
       length (rows R) <= length (rows (route_input c Trt))) /\
    (forall R, returned (routesToWeightedEdges self g c h) = Ok (Some R) ->
               length (rows R) <= length (rows (route_input c Trt))).
Proof.
  intros self h Tc Td Tr Trt g c d data r Ec Ed Er Et Hg F.
  destruct (getData_tables self g c d h Tc Td Tr Trt data r Ec Ed Er Et Hg F)
    as (sel & ro & _ & Ert & Hr & Tab).
  assert (V : valid_granularity g = true) by (destruct Hg as [-> | ->]; reflexivity).
  split; [|split].
  - intros name l I. destruct (Tab name l I) as (T & R & IT & A & E).
    exists T, R. repeat split; auto. now apply regrouped_rows_le in E.
  - destruct (routes_frame_rows_le _ _ _ _ V Ert) as (R & -> & L).
    destruct r as [lr|]; [|contradiction]. now exists lr, R.
  - intros R E. rewrite (routes_returned self g c h Trt Et) in E.
    destruct (routes_frame_rows_le _ _ _ _ V E) as (R' & [= <-] & L). exact L.
Qed.


(** ** The selector ["latest"] *)

Lemma select_latest dates sel :
  select_dates (Some "latest") dates = Ok sel ->
  dates <> [] /\
  sel = (dict_set [("Lat", [Mean]); ("Long", [Mean])] (last dates "") [Sum],
         ["Lat"; "Long"; last dates ""]).
Proof.
  unfold select_dates.
  change (negb (String.eqb "latest" "latest")) with false. cbv iota.
  destruct (last_item dates) as [x|] eqn:E; cbn [rbind]; [|discriminate].
  intros [= <-]. rewrite (last_item_last _ _ E). split; [|reflexivity].
  intros ->. discriminate E.
Qed.

Lemma Forall2_In_r {A B} (P : A -> B -> Prop) l l' b :
  Forall2 P l l' -> In b l' -> exists a, In a l /\ P a b.
Proof.
  induction 1 as [|a0 b0 l l' H _ IH]; simpl; [tauto|].
  intros [<-|I].
  - exists a0. auto.
  - destruct (IH I) as (a & Ia & Pa). exists a. auto.
Qed.

Lemma key_indices_length T by_ ixs :
  pd.key_indices T by_ = Ok ixs -> length ixs = length by_.
Proof. apply rmap_length. Qed.

(** ** [getData] returns on well-formed tables *)

Lemma rmap_ok_ex {A B} (f : A -> result B) l :
  Forall (fun a => exists b, f a = Ok b) l -> exists l', rmap f l = Ok l'.
Proof.
  induction 1 as [|a l (b & E) _ (l' & IH)]; simpl.
  - now exists [].
  - rewrite E, IH. simpl. now eexists.
Qed.

Lemma numeric_dtype cs :
  forallb is_number cs = true -> pd.dtype_of cs <> Object.
Proof.
  intros H. unfold pd.dtype_of. destruct (forallb pd.is_int cs); [discriminate|].
  replace (forallb pd.is_num_or_na cs) with true; [discriminate|].
  symmetry. apply forallb_forall. intros c I.
  rewrite forallb_forall in H. specialize (H c I). now destruct c.
Qed.

Lemma agg_ok f dt cs : dt <> Object -> exists v, pd.agg f dt cs = Ok v.
Proof.
  intros N. destruct f, dt; try congruence; simpl; unfold pd.agg_mean;
    try (destruct (pd.nums cs)); eauto.
Qed.

Lemma groupby_agg_ok T by_ d :
  has_columns T by_ = true ->
  forallb (fun p => negb (mem (fst p) by_) && numeric_column T (fst p)) (pd.agg_plan d)
  = true ->
  exists G, pd.groupby_agg T by_ d = Ok G /\
            index_names G = by_ /\
            columns G = map pd.agg_label (pd.agg_plan d).
Proof.
  intros Hb Hp. unfold pd.groupby_agg.
  destruct (key_indices_ok T by_ Hb) as (ixs & -> & _ & _). cbn [rbind].
  rewrite forallb_forall in Hp.
  match goal with |- context [rmap ?f (pd.agg_plan d)] =>
    destruct (rmap_ok_ex f (pd.agg_plan d)) as (plan & Ep)
  end.
  { apply Forall_forall. intros p I. specialize (Hp p I).
    apply andb_prop in Hp as (Hm & Hn). apply negb_true_iff in Hm. rewrite Hm.
    unfold numeric_column in Hn.
    destruct (index_of (fst p) (columns T)); [eauto|discriminate]. }
  rewrite Ep. cbn [rbind].
  assert (Num : Forall (fun q => forallb is_number (pd.column_at (fst q) (rows T)) = true)
                       plan).
  { apply rmap_inv in Ep. clear - Ep Hp.
    induction Ep as [|p q l l' H _ IH]; constructor.
    - specialize (Hp p (or_introl eq_refl)).
      apply andb_prop in Hp as (Hm & Hn). apply negb_true_iff in Hm.
      rewrite Hm in H. unfold numeric_column in Hn.
      destruct (index_of (fst p) (columns T)); [|discriminate].
      now injection H as <-.
    - apply IH. intros p' I. apply Hp. now right. }
  match goal with |- context [rmap ?f (pd.group_keys ixs (rows T))] =>
    destruct (rmap_ok_ex f (pd.group_keys ixs (rows T))) as (rs & Er)
  end.
  { apply Forall_forall. intros k _.
    match goal with |- context [rmap ?f plan] =>
      destruct (rmap_ok_ex f plan) as (vs & Ev)
    end.
    - apply Forall_forall. intros q I. rewrite Forall_forall in Num.
      apply agg_ok, numeric_dtype. now apply Num.
    - rewrite Ev. simpl. eauto. }
  rewrite Er. cbn [rbind]. eexists. split; [reflexivity|]. now split.
Qed.

Lemma regroup_frame_ok T by_ d cols :
  has_columns T by_ = true ->
  forallb (fun p => negb (mem (fst p) by_) && numeric_column T (fst p)) (pd.agg_plan d)
  = true ->
  length cols = length (pd.agg_plan d) ->
  existsb (fun n => mem n cols) by_ = false ->
  exists R, regroup_frame by_ d cols T = Ok R.
Proof.
  intros Hb Hp Len Disj. unfold regroup_frame.
  destruct (groupby_agg_ok T by_ d Hb Hp) as (G & -> & In_ & Cg). cbn [rbind].
  unfold pd.set_columns. rewrite Cg, length_map, Len, Nat.eqb_refl. cbn [rbind].
  unfold pd.reset_index. simpl. rewrite In_, Disj. eauto.
Qed.

Lemma dict_set_new {V} (d : dict V) k v :
  mem k (dict_keys d) = false -> dict_set d k v = d ++ [(k, v)].
Proof.
  unfold mem. induction d as [|[k' v'] d IH]; simpl; [reflexivity|].
  rewrite (String.eqb_sym k k'). destruct (String.eqb k' k); [discriminate|].
  simpl. intros H. now rewrite IH.
Qed.

Lemma mem_app s l l' : mem s (l ++ l') = mem s l || mem s l'.
Proof. unfold mem. apply existsb_app. Qed.

Lemma fold_dict_set ds : forall acc : pd.agg_dict,
  nodupb ds = true ->
  forallb (fun x => negb (mem x (dict_keys acc))) ds = true ->
  fold_left (fun a date => dict_set a date [Sum]) ds acc
  = acc ++ map (fun x => (x, [Sum])) ds.
Proof.
  induction ds as [|x ds IH]; intros acc N F; cbn [fold_left map].
  - now rewrite app_nil_r.
  - cbn [nodupb forallb] in N, F.
    apply andb_prop in N as (Nx & N). apply andb_prop in F as (Fx & F).
    apply negb_true_iff in Nx, Fx.
    rewrite (dict_set_new acc x [Sum] Fx), IH, <- app_assoc; auto.
    apply forallb_forall. intros y I. rewrite forallb_forall in F.
    specialize (F y I). apply negb_true_iff in F. apply negb_true_iff.
    unfold dict_keys in *. rewrite map_app, mem_app, F.
    cbn [map fst orb]. unfold mem at 1. cbn [existsb]. rewrite orb_false_r.
    destruct (String.eqb_spec y x) as [->|]; auto.
    apply mem_In in I. congruence.
Qed.

Lemma last_item_ok dates : dates <> [] -> last_item dates = Ok (last dates "").
Proof.
  intros N. unfold last_item. destruct (rev dates) as [|x t] eqn:E.
  - apply (f_equal (@rev string)) in E. rewrite rev_involutive in E. contradiction.
  - f_equal. rewrite <- (rev_involutive dates), E. simpl. symmetry. apply last_last.
Qed.

Lemma nodupb_cons x l :
  nodupb (x :: l) = true -> mem x l = false /\ nodupb l = true.
Proof.
  cbn [nodupb]. intros H. apply andb_prop in H as (H1 & H2).
  now apply negb_true_iff in H1.
Qed.

Lemma mem_cons s x l : mem s (x :: l) = (String.eqb s x || mem s l)%bool.
Proof. reflexivity. Qed.

(** The dictionary and the labels a valid selector gives. *)
Lemma select_dates_ok d dates :
  match d with
  | None => True
  | Some x => if String.eqb x "latest" then dates <> [] else In x dates
  end ->
  nodupb ("Lat" :: "Long" :: selected_dates d dates) = true ->
  exists sel, select_dates d dates = Ok sel /\
    pd.agg_plan (fst sel) =
      ("Lat", Mean) :: ("Long", Mean)
      :: map (fun x => (x, Sum)) (selected_dates d dates) /\
    snd sel = "Lat" :: "Long" :: selected_dates d dates.
Proof.
  intros Hd N. unfold select_dates, selected_dates in *.
  apply nodupb_cons in N as (N1 & N). apply nodupb_cons in N as (N2 & N).
  rewrite mem_cons in N1. apply orb_false_elim in N1 as (_ & N1).
  assert (One : forall x, mem "Lat" [x] = false -> mem "Long" [x] = false ->
            pd.agg_plan (dict_set (dict_set (dict_set [] "Lat" [Mean]) "Long" [Mean])
                                  x [Sum])
            = [("Lat", Mean); ("Long", Mean); (x, Sum)]).
  { intros x M1 M2. rewrite mem_cons in M1, M2.
    apply orb_false_elim in M1 as (M1 & _). apply orb_false_elim in M2 as (M2 & _).
    cbn [dict_set]. change (String.eqb "Lat" "Long") with false. cbv iota.
    cbn [dict_set]. rewrite M1, M2. reflexivity. }
  destruct d as [x|].
  - destruct (String.eqb x "latest"); cbn [negb].
    + rewrite (last_item_ok _ Hd). cbn [rbind].
      eexists. split; [reflexivity|]. split; [|reflexivity]. now apply One.
    + apply mem_In in Hd. rewrite Hd.
      eexists. split; [reflexivity|]. split; [|reflexivity]. now apply One.
  - eexists. split; [reflexivity|]. split; [|reflexivity]. cbn [fst].
    rewrite fold_dict_set; auto.
    + unfold pd.agg_plan. rewrite flat_map_app.
      change (flat_map _ (dict_set (dict_set [] "Lat" [Mean]) "Long" [Mean]))
        with [("Lat", Mean); ("Long", Mean)].
      cbn [app]. do 2 f_equal.
      clear. induction dates as [|x dates IH]; [reflexivity|].
      cbn [map flat_map fst snd app]. now rewrite IH.
    + apply forallb_forall. intros y I. apply negb_true_iff.
      change (dict_keys (dict_set (dict_set [] "Lat" [Mean]) "Long" [Mean]))
        with ["Lat"; "Long"].
      rewrite !mem_cons. change (mem y []) with false. rewrite orb_false_r.
      destruct (String.eqb_spec y "Lat") as [->|].
      { apply mem_In in I. congruence. }
      destruct (String.eqb_spec y "Long") as [->|]; auto.
      apply mem_In in I. congruence.
Qed.

Lemma fillna_number i vs :
  is_number (nth i vs CNaN) = true ->
  nth i (map (fun c => if isna c then none else c) vs) CNaN = nth i vs CNaN.
Proof.
  revert i. induction vs as [|a vs IH]; intros [|i]; simpl; try discriminate; auto.
  now destruct a.
Qed.

Lemma case_input_numeric c T col :
  numeric_column T col = true -> numeric_column (case_input c T) col = true.
Proof.
  unfold numeric_column. simpl columns.
  destruct (index_of col (columns T)) as [i|]; [|discriminate].
  rewrite !forallb_forall. intros H x I.
  unfold pd.column_at in *. apply in_map_iff in I as (r & <- & I).
  unfold case_input, restrict, pd.fillna in I. simpl in I.
  apply filter_In in I as (I & _). apply in_map_iff in I as (r0 & <- & I0).
  simpl. assert (N : is_number (nth i (vals r0) CNaN) = true).
  { apply H. apply in_map_iff. now exists r0. }
  now rewrite (fillna_number _ _ N).
Qed.

Lemma case_input_groupable c by_ cols T :
  groupable by_ cols T = true -> groupable by_ cols (case_input c T) = true.
Proof.
  unfold groupable. intros H. apply andb_prop in H as (Hb & Hc).
  apply andb_true_intro. split; [exact Hb|].
  rewrite forallb_forall in *. intros x I. specialize (Hc x I).
  apply andb_prop in Hc as (H1 & H2). rewrite H1. simpl.
  now apply case_input_numeric.
Qed.

Lemma disjoint_sym by_ cols :
  forallb (fun c => negb (mem c by_)) cols = true ->
  existsb (fun n => mem n cols) by_ = false.
Proof.
  intros H. destruct (existsb _ by_) eqn:E; auto.
  apply existsb_exists in E as (n & In_ & M). apply mem_In in M.
  rewrite forallb_forall in H. specialize (H n M).
  apply negb_true_iff in H. apply mem_In in In_. congruence.
Qed.

Lemma dict_rmap_ok_ex f d :
  Forall (fun p => exists R, f (snd p) = Ok R) d -> exists out, dict_rmap f d = Ok out.
Proof.
  induction 1 as [|[k v] d (R & E) _ (out & IH)]; simpl.
  - now exists [].
  - simpl in E. rewrite E, IH. simpl. now eexists.
Qed.

(** On well-formed tables a call of [getData] at [state] or [country]
    granularity returns: the case tables can be country-filtered and
    grouped, the selector names a date column, the labels [Lat], [Long]
    and the selected dates are distinct, and the route table has the
    grouping columns and one cell per column in every row. *)
Lemma getData_returns self h Tc Td Tr Trt g c d :
  at_ h (confirmed_df self) Tc -> at_ h (deaths_df self) Td ->
  at_ h (recovered_df self) Tr -> at_ h (routes_df self) Trt ->
  g = "state" \/ g = "country" ->
  filterable c (case_tables g Tc Td Tr) = true ->
  match d with
  | None => True
  | Some x => if String.eqb x "latest" then date_columns Tc <> []
              else In x (date_columns Tc)
  end ->
  nodupb ("Lat" :: "Long" :: selected_dates d (date_columns Tc)) = true ->
  forallb (fun p => groupable (location_keys g)
                      ("Lat" :: "Long" :: selected_dates d (date_columns Tc)) (snd p))
          (case_tables g Tc Td Tr) = true ->
  rectangular Trt = true ->
  has_columns Trt (route_keys g) = true ->
  exists data r, fst (getData self g c d h) = Ok (data, r).
Proof.
  intros Ec Ed Er Et Hg Fl Hd N Gr Rt Ht.
  assert (V : valid_granularity g = true) by (destruct Hg as [-> | ->]; reflexivity).
  destruct (select_dates_ok d (date_columns Tc) Hd N) as (sel & Es & Pl & Cs).
  assert (Ea : exists out,
             dict_rmap (aggregate_frame g (fst sel) (snd sel))
                       (case_inputs g c Tc Td Tr) = Ok out).
  { apply dict_rmap_ok_ex. apply Forall_forall. intros [k T1] I.
    apply case_inputs_In in I as (T & IT & ->). simpl snd.
    rewrite forallb_forall in Gr. specialize (Gr (k, T) IT). simpl snd in Gr.
    apply (case_input_groupable c) in Gr.
    unfold groupable in Gr. apply andb_prop in Gr as (Hb & Hc).
    rewrite (aggregate_frame_regroup g _ _ _ Hg).
    apply regroup_frame_ok; auto.
    - rewrite Pl.
      change (("Lat", Mean) :: ("Long", Mean)
              :: map (fun x => (x, Sum)) (selected_dates d (date_columns Tc)))
        with (map (fun x => (x, Mean)) ["Lat"; "Long"]
              ++ map (fun x => (x, Sum)) (selected_dates d (date_columns Tc))).
      rewrite forallb_app, !forallb_map_comp. cbn [fst].
      change ("Lat" :: "Long" :: selected_dates d (date_columns Tc))
        with (["Lat"; "Long"] ++ selected_dates d (date_columns Tc)) in Hc.
      now rewrite forallb_app in Hc.
    - rewrite Pl, Cs. simpl. now rewrite length_map.
    - rewrite Cs. apply disjoint_sym. rewrite forallb_forall in *.
      intros x I. specialize (Hc x I). now apply andb_prop in Hc as (Hc & _). }
  destruct Ea as (out & Ea).
  destruct (routes_frame_counted Trt g c V Rt Ht) as (ixs & T3 & Ef & _).
  assert (E : getData_frames Tc Td Tr Trt g c d
              = Ok (out, Some (counted (route_keys g) ixs T3))).
  { unfold getData_frames. rewrite V. cbn [negb].
    rewrite (case_tables_prepared g c Tc Td Tr Fl). cbn [rbind].
    rewrite case_inputs_confirmed. cbn [rbind].
    change (columns (case_input c Tc)) with (columns Tc).
    fold (date_columns Tc). rewrite Es. cbn [rbind]. rewrite Ea. cbn [rbind].
    now rewrite Ef. }
  destruct (getData_sim self g c d h Tc Td Tr Trt Ec Ed Er Et) as (ext & _ & X).
  rewrite E in X. destruct X as ([data r] & F & _). now exists data, r.
Qed.

Lemma select_dates_valid d dates :
  match d with
  | None => True
  | Some x => if String.eqb x "latest" then dates <> [] else In x dates
  end ->
  exists sel, select_dates d dates = Ok sel.
Proof.
  intros Hd. unfold select_dates. destruct d as [x|]; [|eauto].
  destruct (String.eqb x "latest"); cbn [negb].
  - rewrite (last_item_ok _ Hd). cbn [rbind]. eauto.
  - apply mem_In in Hd. rewrite Hd. eauto.
Qed.

(** At [county] granularity nothing is grouped, and less is needed. *)
Lemma getData_returns_county self h Tc Td Tr Trt c d :
  at_ h (confirmed_df self) Tc -> at_ h (deaths_df self) Td ->
  at_ h (recovered_df self) Tr -> at_ h (routes_df self) Trt ->
  filterable c (case_tables "county" Tc Td Tr) = true ->
  match d with
  | None => True
  | Some x => if String.eqb x "latest" then date_columns Tc <> []
              else In x (date_columns Tc)
  end ->
  rectangular Trt = true ->
  has_columns Trt county_route_keys = true ->
  exists data r, fst (getData self "county" c d h) = Ok (data, r).
Proof.
  intros Ec Ed Er Et Fl Hd Rt Ht.
  destruct (select_dates_valid d (date_columns Tc) Hd) as (sel & Es).
  destruct (routes_frame_counted Trt "county" c eq_refl Rt Ht)
    as (ixs & T3 & Ef & _).
  assert (E : getData_frames Tc Td Tr Trt "county" c d
              = Ok (case_inputs "county" c Tc Td Tr,
                    Some (counted (route_keys "county") ixs T3))).
  { unfold getData_frames.
    change (negb (valid_granularity "county")) with false. cbv iota.
    rewrite (case_tables_prepared "county" c Tc Td Tr Fl). cbn [rbind].
    rewrite case_inputs_confirmed. cbn [rbind].
    change (columns (case_input c Tc)) with (columns Tc).
    fold (date_columns Tc). rewrite Es. cbn [rbind].
    change (dict_rmap (aggregate_frame "county" (fst sel) (snd sel))
                      (case_inputs "county" c Tc Td Tr))
      with (Ok (case_inputs "county" c Tc Td Tr)).
    cbn [rbind]. now rewrite Ef. }
  destruct (getData_sim self "county" c d h Tc Td Tr Trt Ec Ed Er Et) as (ext & _ & X).
  rewrite E in X. destruct X as ([data r] & F & _). now exists data, r.
Qed.

Example getData_returns_on_example :
  exists data r,
    fst (getData ex_self "state" (Some "US") (Some "1/22/20") ex_store) = Ok (data, r).
Proof.
  apply (getData_returns ex_self ex_store ex_confirmed ex_deaths ex_recovered
           ex_routes); try reflexivity.
  - now left.
  - simpl. auto.
Qed.

Lemma getData_returns_wf self h Tc Td Tr Trt g c d :
  at_ h (confirmed_df self) Tc -> at_ h (deaths_df self) Td ->
  at_ h (recovered_df self) Tr -> at_ h (routes_df self) Trt ->
  valid_granularity g = true ->
  well_formed g c d Tc Td Tr Trt ->
  exists data r, fst (getData self g c d h) = Ok (data, r).
Proof.
  intros Ec Ed Er Et V (Fl & Hd & Hg & Rt & Ht).
  destruct (valid_granularity_cases g V) as [-> | Hsc].
  - now apply (getData_returns_county self h Tc Td Tr Trt).
  - destruct Hg as [-> | (N & Gr)].
    + now apply (getData_returns_county self h Tc Td Tr Trt).
    + now apply (getData_returns self h Tc Td Tr Trt).
Qed.

(** * The claims about [getData] *)

Lemma ex_well_formed g c d :
  valid_granularity g = true ->
  filterable c (case_tables g ex_confirmed ex_deaths ex_recovered) = true ->
  selector_ok d (date_columns ex_confirmed) ->
  nodupb ("Lat" :: "Long" :: selected_dates d (date_columns ex_confirmed)) = true ->
  forallb (fun p => groupable (location_keys g)
                      ("Lat" :: "Long" :: selected_dates d (date_columns ex_confirmed))
                      (snd p))
          (case_tables g ex_confirmed ex_deaths ex_recovered) = true ->
  well_formed g c d ex_confirmed ex_deaths ex_recovered ex_routes.
Proof.
  intros V Fl Hd N Gr. unfold well_formed. repeat split; auto.
  unfold route_keys.
  destruct (valid_granularity_cases g V) as [-> | [-> | ->]]; reflexivity.
Qed.

(** C4, as the code has it. At [county] granularity [getData] returns on
    well-formed tables, and whenever it returns, it returns the confirmed
    and the deaths table with their missing cells replaced by ["none"] and
    their rows restricted to the country, when one is given; nothing is
    grouped, renamed or selected by date.  A table with no missing cell
    and no country given comes back as it is. *)
Theorem county_returns_normalised_inputs :
  forall (self : CovidData) (h : store) (Tc Td Tr Trt : DataFrame)
         (c d : option string),
    at_ h (confirmed_df self) Tc -> at_ h (deaths_df self) Td ->
    at_ h (recovered_df self) Tr -> at_ h (routes_df self) Trt ->
    (well_formed "county" c d Tc Td Tr Trt ->
     exists data r, fst (getData self "county" c d h) = Ok (data, r)) /\
    (forall data r,
        fst (getData self "county" c d h) = Ok (data, r) ->
        exists lc ld,
          data = [("confirmed", lc); ("deaths", ld)] /\
          at_ (snd (getData self "county" c d h)) lc
              (restrict c ["Country/Region"] (pd.fillna none Tc)) /\
          at_ (snd (getData self "county" c d h)) ld
              (restrict c ["Country/Region"] (pd.fillna none Td))) /\
    (forall T, clean T = true ->
               restrict None ["Country/Region"] (pd.fillna none T) = T).
Proof.
  intros self h Tc Td Tr Trt c d Ec Ed Er Et. split; [|split].
  - intros W. now apply (getData_returns_wf self h Tc Td Tr Trt).
  - intros data r F.
    now destruct (county_tables_returned self h Tc Td Tr Trt c d data r
                    Ec Ed Er Et F) as (P & _).
  - intros T C. rewrite input_None. now apply fillna_clean_id.
Qed.

Lemma county_returns_normalised_inputs_witness :
  (exists data r,
      fst (getData ex_self "county" (Some "US") None ex_store) = Ok (data, r)) /\
  (exists lc ld,
     [("confirmed", 8); ("deaths", 9)] = [("confirmed", lc); ("deaths", ld)] /\
     at_ (snd (getData ex_self "county" (Some "US") None ex_store)) lc
         (restrict (Some "US") ["Country/Region"] (pd.fillna none ex_confirmed)) /\
     at_ (snd (getData ex_self "county" (Some "US") None ex_store)) ld
         (restrict (Some "US") ["Country/Region"] (pd.fillna none ex_deaths))) /\
  (forall T, clean T = true ->
             restrict None ["Country/Region"] (pd.fillna none T) = T).
Proof.
  destruct (county_returns_normalised_inputs ex_self ex_store
              ex_confirmed ex_deaths ex_recovered ex_routes (Some "US") None
              eq_refl eq_refl eq_refl eq_refl) as (Ret & Tab & Id).
  split; [|split].
  - apply Ret. apply ex_well_formed; try reflexivity; exact I.
  - apply (Tab [("confirmed", 8); ("deaths", 9)] (Some 14)).
    vm_compute. reflexivity.
  - exact Id.
Defined.

(** C4 as stated fails: the confirmed table of the example has missing
    county fields, no country is given, and the table [getData] returns at
    [county] granularity is not the input table (it holds ["none"] where
    the input has a missing value). *)
Lemma county_output_differs_from_input :
  fst (getData ex_self "county" None None ex_store)
  = Ok ([("confirmed", 5); ("deaths", 7)], Some 11) /\
  nth_error ex_store (confirmed_df ex_self) = Some ex_confirmed /\
  exists T, nth_error (snd (getData ex_self "county" None None ex_store)) 5 = Some T /\
            T <> ex_confirmed.
Proof.
  split; [vm_compute; reflexivity|]. split; [reflexivity|].
  eexists. split; [vm_compute; reflexivity|]. discriminate.
Qed.

(** C7. [getData] returns on well-formed tables at every valid
    granularity, and whenever it returns, the dictionary it returns has
    the key [recovered] exactly when the granularity is [country].  At the
    other granularities the recovered table is not read at all: whatever
    the instance holds as [recovered_df], the call does the same. *)
Theorem recovered_only_at_country :
  forall (self : CovidData) (h : store) (Tc Td Tr Trt : DataFrame)
         (g : string) (c d : option string),
    at_ h (confirmed_df self) Tc -> at_ h (deaths_df self) Td ->
    at_ h (recovered_df self) Tr -> at_ h (routes_df self) Trt ->
    (valid_granularity g = true -> well_formed g c d Tc Td Tr Trt ->
     exists data r, fst (getData self g c d h) = Ok (data, r)) /\
    (forall data r,
        fst (getData self g c d h) = Ok (data, r) ->
        (In "recovered" (dict_keys data) <-> g = "country")) /\
    (g <> "country" ->
     forall l, getData (mkCovidData (confirmed_df self) (deaths_df self) l
                                    (routes_df self)) g c d h
               = getData self g c d h).
Proof.
  intros self h Tc Td Tr Trt g c d Ec Ed Er Et.
  assert (V : valid self h).
  { unfold valid, at_ in *. repeat split; apply nth_error_Some; congruence. }
  split; [|split].
  - intros Vg W. now apply (getData_returns_wf self h Tc Td Tr Trt).
  - intros data r F.
    now destruct (recovered_key_returned self h g c d data r V F) as (K & _).
  - intros N l. apply getData_ignores_recovered. now apply String.eqb_neq.
Qed.

Lemma recovered_only_at_country_witness :
  (exists data r, fst (getData ex_self "state" None None ex_store) = Ok (data, r)) /\
  (In "recovered" (dict_keys [("confirmed", 9); ("deaths", 11)])
   <-> "state" = "country") /\
  (forall l, getData (mkCovidData 0 1 l 3) "state" None None ex_store
             = getData ex_self "state" None None ex_store).
Proof.
  destruct (recovered_only_at_country ex_self ex_store
              ex_confirmed ex_deaths ex_recovered ex_routes "state" None None
              eq_refl eq_refl eq_refl eq_refl) as (Ret & Key & Ign).
  split; [|split].
  - apply Ret; [reflexivity|]. apply ex_well_formed; try reflexivity; exact I.
  - apply (Key [("confirmed", 9); ("deaths", 11)] (Some 15)).
    vm_compute. reflexivity.
  - apply Ign. discriminate.
Defined.

(** C8. At [state] or [country] granularity [getData] returns on
    well-formed tables, and when the case tables have the location-key
    columns of the granularity, whenever it returns, every table of the
    result has as columns the location-key fields of the granularity, then
    [Lat], then [Long], then the selected date columns (all the date
    columns of the confirmed table, the given date, or the last one for
    ["latest"]). *)
Theorem output_column_order :
  forall (self : CovidData) (h : store) (Tc Td Tr Trt : DataFrame)
         (g : string) (c d : option string),
    at_ h (confirmed_df self) Tc -> at_ h (deaths_df self) Td ->
    at_ h (recovered_df self) Tr -> at_ h (routes_df self) Trt ->
    g = "state" \/ g = "country" ->
    (well_formed g c d Tc Td Tr Trt ->
     exists data r, fst (getData self g c d h) = Ok (data, r)) /\
    (has_location_keys g Tc Td Tr = true ->
     forall data r,
        fst (getData self g c d h) = Ok (data, r) ->
        forall name l, In (name, l) data ->
          exists R, at_ (snd (getData self g c d h)) l R /\
            columns R = location_keys g ++ ["Lat"; "Long"]
                        ++ selected_dates d (date_columns Tc)).
Proof.
  intros self h Tc Td Tr Trt g c d Ec Ed Er Et Hg. split.
  - intros W. apply (getData_returns_wf self h Tc Td Tr Trt); auto.
    destruct Hg as [-> | ->]; reflexivity.
  - intros _ data r F.
    now apply (column_order_returned self h Tc Td Tr Trt g c d data r).
Qed.

Lemma output_column_order_witness :
  (exists data r, fst (getData ex_self "state" None None ex_store) = Ok (data, r)) /\
  exists R, at_ (snd (getData ex_self "state" None None ex_store)) 11 R /\
    columns R = location_keys "state" ++ ["Lat"; "Long"]
                ++ selected_dates None (date_columns ex_confirmed).
Proof.
  destruct (output_column_order ex_self ex_store
              ex_confirmed ex_deaths ex_recovered ex_routes "state" None None
              eq_refl eq_refl eq_refl eq_refl (or_introl eq_refl)) as (Ret & Col).
  split.
  - apply Ret. apply ex_well_formed; try reflexivity; exact I.
  - apply (Col eq_refl [("confirmed", 9); ("deaths", 11)] (Some 15))
      with (name := "deaths").
    + vm_compute. reflexivity.
    + simpl. auto.
Defined.

(** C9. At [state] or [country] granularity [getData] returns on
    well-formed tables, and whenever it returns, every case table of the
    result (confirmed, deaths, and recovered at [country]) and the route
    table have at most as many rows as the (optionally country-filtered)
    table they are aggregated from; so has the table
    [routesToWeightedEdges] returns when called on its own. *)
Theorem aggregated_rows_bounded :
  forall (self : CovidData) (h : store) (Tc Td Tr Trt : DataFrame)
         (g : string) (c d : option string),
    at_ h (confirmed_df self) Tc -> at_ h (deaths_df self) Td ->
    at_ h (recovered_df self) Tr -> at_ h (routes_df self) Trt ->
    g = "state" \/ g = "country" ->
    (well_formed g c d Tc Td Tr Trt ->
     exists data r, fst (getData self g c d h) = Ok (data, r)) /\
    (forall data r,
        fst (getData self g c d h) = Ok (data, r) ->
        (forall name l, In (name, l) data ->
           exists T R, In (name, T) (case_tables g Tc Td Tr) /\
             at_ (snd (getData self g c d h)) l R /\
             length (rows R) <= length (rows (case_input c T))) /\
        (exists lr R, r = Some lr /\
           at_ (snd (getData self g c d h)) lr R /\
           length (rows R) <= length (rows (route_input c Trt)))) /\
    (forall R, returned (routesToWeightedEdges self g c h) = Ok (Some R) ->
               length (rows R) <= length (rows (route_input c Trt))).
Proof.
  intros self h Tc Td Tr Trt g c d Ec Ed Er Et Hg.
  assert (V : valid_granularity g = true) by (destruct Hg as [-> | ->]; reflexivity).
  split; [|split].
  - intros W. now apply (getData_returns_wf self h Tc Td Tr Trt).
  - intros data r F.
    destruct (rows_bounded_returned self h Tc Td Tr Trt g c d data r
                Ec Ed Er Et Hg F) as (Cases & Routes & _).
    now split.
  - intros R E. rewrite (routes_returned self g c h Trt Et) in E.
    destruct (routes_frame_rows_le _ _ _ _ V E) as (R' & [= <-] & L). exact L.
Qed.

Lemma aggregated_rows_bounded_witness :
  (exists data r,
      fst (getData ex_self "country" (Some "US") (Some "latest") ex_store)
      = Ok (data, r)) /\
  ((forall name l,
       In (name, l) [("confirmed", 14); ("deaths", 16); ("recovered", 18)] ->
       exists T R,
         In (name, T) (case_tables "country" ex_confirmed ex_deaths ex_recovered) /\
         at_ (snd (getData ex_self "country" (Some "US") (Some "latest") ex_store)) l R /\
         length (rows R) <= length (rows (case_input (Some "US") T))) /\
   (exists lr R, Some 23 = Some lr /\
      at_ (snd (getData ex_self "country" (Some "US") (Some "latest") ex_store)) lr R /\
      length (rows R) <= length (rows (route_input (Some "US") ex_routes)))) /\
  (forall R,
      returned (routesToWeightedEdges ex_self "country" (Some "US") ex_store)
      = Ok (Some R) ->
      length (rows R) <= length (rows (route_input (Some "US") ex_routes))).
Proof.
  destruct (aggregated_rows_bounded ex_self ex_store
              ex_confirmed ex_deaths ex_recovered ex_routes "country"
              (Some "US") (Some "latest")
              eq_refl eq_refl eq_refl eq_refl (or_intror eq_refl))
    as (Ret & Bound & Direct).
  split; [|split].
  - apply Ret. apply ex_well_formed; try reflexivity; discriminate.
  - apply (Bound [("confirmed", 14); ("deaths", 16); ("recovered", 18)] (Some 23)).
    vm_compute. reflexivity.
  - exact Direct.
Defined.

(** * Further properties of [routesToWeightedEdges] *)

Lemma setitem_rows T c v :
  rows (pd.setitem T c v) =
  map (fun r => mkRow (idx r)
                  (match index_of c (columns T) with
                   | Some i => set_nth i v (vals r)
                   | None => vals r ++ [v]
                   end)) (rows T).
Proof. unfold pd.setitem. now destruct (index_of c (columns T)). Qed.

Lemma index_of_inj c c' l i :
  index_of c l = Some i -> index_of c' l = Some i -> c = c'.
Proof.
  revert i. induction l as [|x l IH]; simpl; [discriminate|].
  destruct (String.eqb x c) eqn:Ec, (String.eqb x c') eqn:Ec'; intros i E E'.
  - apply String.eqb_eq in Ec, Ec'. congruence.
  - injection E as <-.
    destruct (index_of c' l); simpl in E'; discriminate.
  - injection E' as <-.
    destruct (index_of c l); simpl in E; discriminate.
  - destruct (index_of c l) as [j|]; simpl in E; [|discriminate].
    destruct (index_of c' l) as [j'|]; simpl in E'; [|discriminate].
    apply (IH j); congruence.
Qed.

Lemma set_nth_other {A} i j (v d : A) l : i <> j -> nth j (set_nth i v l) d = nth j l d.
Proof.
  revert i j. induction l as [|x l IH]; intros [|i] [|j] N; simpl; auto;
    try congruence.
Qed.

Lemma index_of_app_other c x l :
  index_of c l = None -> x <> c -> index_of c (l ++ [x]) = None.
Proof.
  intros E N. induction l as [|y l IH]; simpl in *.
  - now destruct (String.eqb_spec x c).
  - destruct (String.eqb y c); [discriminate|].
    destruct (index_of c l); [discriminate|]. now rewrite IH.
Qed.

(** Assigning the count column leaves the fields of the other columns. *)
Lemma setitem_field T2 c r i :
  c <> "NumberOfRoutes" ->
  length (vals r) = length (columns T2) ->
  index_of c (columns (pd.setitem T2 "NumberOfRoutes" (CInt 1))) = Some i ->
  nth i (match index_of "NumberOfRoutes" (columns T2) with
         | Some j => set_nth j (CInt 1) (vals r)
         | None => vals r ++ [CInt 1]
         end) CNaN
  = field T2 c r.
Proof.
  intros Nc L. unfold pd.setitem, field.
  destruct (index_of "NumberOfRoutes" (columns T2)) as [j|] eqn:Ej; simpl columns.
  - intros Ei. rewrite Ei. apply set_nth_other. intros ->.
    apply Nc. symmetry. eapply index_of_inj; eauto.
  - intros Ei. destruct (index_of c (columns T2)) as [i'|] eqn:Ei'.
    + rewrite (index_of_app _ _ ["NumberOfRoutes"] _ Ei') in Ei.
      injection Ei as <-. apply app_nth1. rewrite L. eapply index_of_lt; eauto.
    + rewrite (index_of_app_other _ _ _ Ei') in Ei; [discriminate|].
      intros E. now apply Nc.
Qed.

Lemma route_keys_not_count g : ~ In "NumberOfRoutes" (route_keys g).
Proof.
  unfold route_keys.
  destruct (String.eqb g "county"); [|destruct (String.eqb g "state")];
    simpl; intuition discriminate.
Qed.

(** The keys [groupby] reads off the table with the count column are the
    grouping keys of the rows. *)
Lemma key_of_setitem g T2 ixs r :
  length (vals r) = length (columns T2) ->
  pd.key_indices (pd.setitem T2 "NumberOfRoutes" (CInt 1)) (route_keys g) = Ok ixs ->
  pd.key_of ixs
    (mkRow (idx r)
           (match index_of "NumberOfRoutes" (columns T2) with
            | Some j => set_nth j (CInt 1) (vals r)
            | None => vals r ++ [CInt 1]
            end))
  = route_key g T2 r.
Proof.
  intros L Ek. unfold route_key. pose proof (route_keys_not_count g) as Nk.
  apply rmap_inv in Ek. unfold pd.key_of. simpl vals.
  induction Ek as [|c i by_ ixs E _ IH]; [reflexivity|].
  simpl. f_equal.
  - destruct (index_of c (columns (pd.setitem T2 "NumberOfRoutes" (CInt 1))))
      as [i'|] eqn:Ei; [|discriminate].
    injection E as <-. apply setitem_field; auto.
    intros ->. apply Nk. now left.
  - apply IH. intros I. apply Nk. now right.
Qed.

Lemma filter_map_comm {A B} (f : A -> B) (p : B -> bool) l :
  filter p (map f l) = map f (filter (fun a => p (f a)) l).
Proof.
  induction l as [|a l IH]; simpl; auto. destruct (p (f a)); simpl; congruence.
Qed.

Lemma rectangular_rows T r :
  rectangular T = true -> In r (rows T) -> length (vals r) = length (columns T).
Proof.
  unfold rectangular. rewrite forallb_forall. intros R I.
  now apply Nat.eqb_eq, R.
Qed.

(** On a well-formed route table the frame function yields [route_counts]
    of the selected routes. *)
Lemma routes_frame_counts T g c :
  valid_granularity g = true ->
  rectangular T = true ->
  has_columns T (route_keys g) = true ->
  (Z.of_nat (length (rows T)) < 2 ^ 63)%Z ->
  routes_frame T g c = Ok (Some (route_counts g (route_input c T))).
Proof.
  intros V R H Small.
  rewrite (routes_frame_valid T g c V (or_intror (route_keys_country T g V H))).
  destruct (route_input_wf c T R) as (R2 & C2).
  pose proof (route_input_length c T) as Le.
  set (T2 := route_input c T) in *.
  destruct (setitem_counting T2 R2 C2) as (i & Ei & R3 & C3 & One & Len & Mono).
  set (T3 := pd.setitem T2 "NumberOfRoutes" (CInt 1)) in *.
  assert (H3 : has_columns T3 (route_keys g) = true)
    by (apply (has_columns_mono T2); auto).
  destruct (key_indices_ok T3 (route_keys g) H3) as (ixs & Ek & Lk & F).
  rewrite (grouped_sum_counted T3 (route_keys g) i ixs Ei One Ek
             (proj1 (route_keys_fresh g))).
  do 2 f_equal. unfold counted, route_counts. f_equal.
  assert (Rows : rows T3 =
                 map (fun r => mkRow (idx r)
                                 (match index_of "NumberOfRoutes" (columns T2) with
                                  | Some j => set_nth j (CInt 1) (vals r)
                                  | None => vals r ++ [CInt 1]
                                  end)) (rows T2))
    by apply setitem_rows.
  assert (Keys : forall r, In r (rows T2) ->
             pd.key_of ixs
               (mkRow (idx r)
                      (match index_of "NumberOfRoutes" (columns T2) with
                       | Some j => set_nth j (CInt 1) (vals r)
                       | None => vals r ++ [CInt 1]
                       end))
             = route_key g T2 r).
  { intros r I. apply key_of_setitem; auto. now apply rectangular_rows. }
  assert (Grp : forall k, length (pd.group ixs (rows T3) k)
                          = length (routes_with g T2 k)).
  { intros k. unfold pd.group, routes_with.
    rewrite (keyed_all T3 ixs R3 C3 F), Rows, filter_map_comm, length_map.
    f_equal. apply filter_ext_in. intros r I. now rewrite Keys. }
  assert (Gk : pd.group_keys ixs (rows T3)
               = sort_keys (uniq (map (route_key g T2) (rows T2)))).
  { unfold pd.group_keys. rewrite (keyed_all T3 ixs R3 C3 F), Rows, map_map.
    do 2 f_equal. now apply map_ext_in. }
  rewrite Gk. apply map_ext. intros k.
  rewrite Grp, wrap64_small; [reflexivity|]. split; [lia|].
  pose proof (filter_length_le (fun r => key_eqb (route_key g T2 r) k) (rows T2)).
  unfold routes_with. lia.
Qed.

Lemma cell_eqb_str x c : cell_eqb x (CStr c) = true <-> x = CStr c.
Proof.
  destruct x as [|z|q|t]; cbn; split; try discriminate; try congruence.
  - intros E. apply String.eqb_eq in E. now subst.
  - intros [= ->]. apply String.eqb_refl.
Qed.

Lemma routes_within_input ctry T : routes_within ctry T = route_input (Some ctry) T.
Proof.
  unfold routes_within, route_input, restrict. simpl. f_equal. apply filter_ext.
  intros r. unfold field. simpl. now rewrite andb_true_r.
Qed.

(** C5. With a country given, on a route table that has one cell per
    column in every row and the grouping columns of the granularity,
    [routesToWeightedEdges] returns a table, and this table is the count
    table of exactly the rows (missing fields normalised to ["none"]) whose
    [DepartCountry/Region] field and [ArrivalCountry/Region] field both
    equal the country: one row per grouping key of these rows, in key
    order, holding the number of these rows with the key.  A row that
    fails either equality is in no group and in no count. *)
Theorem routes_groups_within_country :
  forall (self : CovidData) (h : store) (T : DataFrame) (g ctry : string),
    at_ h (routes_df self) T ->
    valid_granularity g = true ->
    rectangular T = true ->
    has_columns T (route_keys g) = true ->
    (Z.of_nat (length (rows T)) < 2 ^ 63)%Z ->
    returned (routesToWeightedEdges self g (Some ctry) h)
    = Ok (Some (route_counts g (routes_within ctry T))) /\
    (forall r, In r (rows (routes_within ctry T)) <->
               In r (rows (pd.fillna none T)) /\
               field T "DepartCountry/Region" r = CStr ctry /\
               field T "ArrivalCountry/Region" r = CStr ctry).
Proof.
  intros self h T g ctry E V R H Small. split.
  - rewrite (routes_returned self g (Some ctry) h T E), routes_within_input.
    now apply routes_frame_counts.
  - intros r. unfold routes_within. cbn [rows]. rewrite filter_In.
    rewrite andb_true_iff, !cell_eqb_str. reflexivity.
Qed.

Lemma routes_groups_within_country_witness :
  returned (routesToWeightedEdges ex_self "state" (Some "US") ex_store)
  = Ok (Some (route_counts "state" (routes_within "US" ex_routes))) /\
  (forall r, In r (rows (routes_within "US" ex_routes)) <->
             In r (rows (pd.fillna none ex_routes)) /\
             field ex_routes "DepartCountry/Region" r = CStr "US" /\
             field ex_routes "ArrivalCountry/Region" r = CStr "US").
Proof.
  apply (routes_groups_within_country ex_self ex_store ex_routes "state" "US").
  - reflexivity.
  - reflexivity.
  - reflexivity.
  - reflexivity.
  - reflexivity.
Defined.

(** X1. On a route table with one cell per column in every row and the
    grouping columns of the granularity, [routesToWeightedEdges] returns
    the table that has the grouping columns and [NumberOfRoutes], and one
    row per distinct grouping key of the selected routes (missing fields
    ["none"], country filter applied), in key order, holding the number of
    selected routes with that key. *)
Theorem routes_returns_counts :
  forall (self : CovidData) (h : store) (T : DataFrame) (g : string)
         (c : option string),
    at_ h (routes_df self) T ->
    valid_granularity g = true ->
    rectangular T = true ->
    has_columns T (route_keys g) = true ->
    (Z.of_nat (length (rows T)) < 2 ^ 63)%Z ->
    returned (routesToWeightedEdges self g c h)
    = Ok (Some (route_counts g (route_input c T))).
Proof.
  intros self h T g c E V R H Small.
  rewrite (routes_returned self g c h T E).
  now apply routes_frame_counts.
Qed.

Lemma routes_returns_counts_witness :
  returned (routesToWeightedEdges ex_self "country" None ex_store)
  = Ok (Some (route_counts "country" (route_input None ex_routes))).
Proof.
  apply (routes_returns_counts ex_self ex_store ex_routes "country" None).
  - reflexivity.
  - reflexivity.
  - reflexivity.
  - reflexivity.
  - vm_compute. reflexivity.
Defined.

(** ** One row per key *)

Lemma Forall_insert_key (P : key -> Prop) k ks :
  P k -> Forall P ks -> Forall P (insert_key k ks).
Proof.
  intros Pk F. induction F as [|k' ks Pk' F IH]; simpl; auto.
  destruct (key_leb k k'); auto.
Qed.

Lemma distinct_insert k ks :
  Forall (fun k' => key_eqb k k' = false) ks -> distinct ks ->
  distinct (insert_key k ks).
Proof.
  induction ks as [|k' ks IH]; simpl; intros F D; auto.
  destruct D as (F' & D). inversion F as [|? ? Ek Fk]; subst.
  destruct (key_leb k k'); simpl; auto.
  split; [|now apply IH].
  apply Forall_insert_key; auto. now rewrite key_eqb_sym.
Qed.

Lemma distinct_sort ks : distinct ks -> distinct (sort_keys ks).
Proof.
  induction ks as [|k ks IH].
  - intros _. exact I.
  - intros (F & D). cbn [sort_keys].
    apply distinct_insert; [|now apply IH].
    apply Forall_forall. intros k' Ik.
    rewrite Forall_forall in F. apply F. now apply sort_keys_In.
Qed.

Lemma route_key_nan_free g T r :
  rectangular T = true -> clean T = true ->
  has_columns T (route_keys g) = true ->
  In r (rows T) -> nan_free (route_key g T r) = true.
Proof.
  intros R C H I. unfold nan_free, route_key. apply negb_true_iff.
  destruct (existsb isna _) eqn:E; auto.
  apply existsb_exists in E as (x & Ix & Na).
  apply in_map_iff in Ix as (col & <- & Ic).
  unfold has_columns in H. rewrite forallb_forall in H.
  destruct (mem_index_of _ _ (H col Ic)) as (i & Ei & Li).
  unfold field in Na. rewrite Ei in Na.
  pose proof (rectangular_rows T r R I) as L.
  unfold clean in C. rewrite forallb_forall in C. specialize (C r I).
  rewrite forallb_forall in C. specialize (C (nth i (vals r) CNaN)).
  rewrite Na in C. discriminate C. apply nth_In. lia.
Qed.

Lemma route_input_columns c T : columns (route_input c T) = columns T.
Proof. reflexivity. Qed.

(** X2. On a route table with one cell per column in every row and the
    grouping columns of the granularity, the rows of the table
    [routesToWeightedEdges] returns stand for the classes of the selected
    routes by grouping key: the keys of the rows are pairwise different,
    every selected route has the key of one of the rows, and every row
    counts at least one route. *)
Theorem routes_one_row_per_key :
  forall (self : CovidData) (h : store) (T : DataFrame) (g : string)
         (c : option string),
    at_ h (routes_df self) T ->
    valid_granularity g = true ->
    rectangular T = true ->
    has_columns T (route_keys g) = true ->
    (Z.of_nat (length (rows T)) < 2 ^ 63)%Z ->
    exists R ks,
      returned (routesToWeightedEdges self g c h) = Ok (Some R) /\
      rows R = map (fun k => mkRow [] (k ++ [CInt (Z.of_nat
                       (length (routes_with g (route_input c T) k)))])) ks /\
      distinct ks /\
      (forall r, In r (rows (route_input c T)) ->
         exists k, In k ks /\ key_eqb (route_key g (route_input c T) r) k = true) /\
      (forall k, In k ks -> 1 <= length (routes_with g (route_input c T) k)).
Proof.
  intros self h T g c E V R H Small.
  destruct (route_input_wf c T R) as (R2 & C2).
  set (T2 := route_input c T) in *.
  assert (H2 : has_columns T2 (route_keys g) = true) by exact H.
  assert (Nf : Forall (fun k => nan_free k = true) (map (route_key g T2) (rows T2))).
  { apply Forall_forall. intros k I. apply in_map_iff in I as (r & <- & I).
    now apply route_key_nan_free. }
  exists (route_counts g T2), (sort_keys (uniq (map (route_key g T2) (rows T2)))).
  split; [|split; [|split; [|split]]].
  - rewrite (routes_returned self g c h T E). now apply routes_frame_counts.
  - reflexivity.
  - apply distinct_sort, uniq_distinct.
  - intros r I.
    destruct (uniq_covers _ Nf (route_key g T2 r) (in_map _ _ _ I)) as (k & Ik & Ek).
    exists k. split; auto. now apply sort_keys_In.
  - intros k I. apply sort_keys_In, uniq_In in I.
    pose proof I as I'. apply in_map_iff in I' as (r & Er & Ir).
    assert (In r (routes_with g T2 k)) as Iw.
    { apply filter_In. split; auto. rewrite Er. apply key_eqb_refl.
      rewrite Forall_forall in Nf. now apply Nf. }
    destruct (routes_with g T2 k); [contradiction|simpl; lia].
Qed.

Lemma routes_one_row_per_key_witness :
  exists R ks,
    returned (routesToWeightedEdges ex_self "state" None ex_store) = Ok (Some R) /\
    rows R = map (fun k => mkRow [] (k ++ [CInt (Z.of_nat
                     (length (routes_with "state" (route_input None ex_routes) k)))]))
                 ks /\
    distinct ks /\
    (forall r, In r (rows (route_input None ex_routes)) ->
       exists k, In k ks /\
         key_eqb (route_key "state" (route_input None ex_routes) r) k = true) /\
    (forall k, In k ks ->
       1 <= length (routes_with "state" (route_input None ex_routes) k)).
Proof.
  apply (routes_one_row_per_key ex_self ex_store ex_routes "state" None).
  - reflexivity.
  - reflexivity.
  - reflexivity.
  - reflexivity.
  - vm_compute. reflexivity.
Defined.

(** ** Key order *)

Lemma string_leb_total s t : String.leb s t = false -> String.leb t s = true.
Proof.
  unfold String.leb. rewrite (String.compare_antisym t s).
  now destruct (String.compare s t).
Qed.

Lemma cell_leb_total a b : cell_leb a b = false -> cell_leb b a = true.
Proof.
  destruct a, b; unfold cell_leb; cbn [num_of]; try discriminate; auto.
  - intros E. apply Qle_bool_iff. apply Qlt_le_weak, Qnot_le_lt.
    intros L. apply Qle_bool_iff in L. congruence.
  - intros E. apply Qle_bool_iff. apply Qlt_le_weak, Qnot_le_lt.
    intros L. apply Qle_bool_iff in L. congruence.
  - intros E. apply Qle_bool_iff. apply Qlt_le_weak, Qnot_le_lt.
    intros L. apply Qle_bool_iff in L. congruence.
  - intros E. apply Qle_bool_iff. apply Qlt_le_weak, Qnot_le_lt.
    intros L. apply Qle_bool_iff in L. congruence.
  - apply string_leb_total.
Qed.

Lemma key_leb_total k1 k2 : key_leb k1 k2 = false -> key_leb k2 k1 = true.
Proof.
  revert k2. induction k1 as [|a k1 IH]; intros [|b k2]; simpl;
    try discriminate; auto.
  rewrite (cell_eqb_sym b a). destruct (cell_eqb a b); auto.
  apply cell_leb_total.
Qed.

Lemma sorted_insert k ks : sorted_keys ks -> sorted_keys (insert_key k ks).
Proof.
  induction ks as [|k1 ks IH]; [simpl; auto|].
  intros S. cbn [insert_key]. destruct (key_leb k k1) eqn:E.
  - split; auto.
  - apply key_leb_total in E. destruct ks as [|k2 ks].
    + simpl. auto.
    + destruct S as (L & S). specialize (IH S). cbn [insert_key] in *.
      destruct (key_leb k k2); split; auto.
Qed.

Lemma sort_keys_sorted ks : sorted_keys (sort_keys ks).
Proof.
  induction ks as [|k ks IH]; [exact I|]. now apply sorted_insert.
Qed.

(** X3. On a route table with one cell per column in every row and the
    grouping columns of the granularity, the rows of the table
    [routesToWeightedEdges] returns come in nondecreasing order of their
    grouping keys ([groupby] sorts the groups). *)
Theorem routes_rows_in_key_order :
  forall (self : CovidData) (h : store) (T : DataFrame) (g : string)
         (c : option string),
    at_ h (routes_df self) T ->
    valid_granularity g = true ->
    rectangular T = true ->
    has_columns T (route_keys g) = true ->
    (Z.of_nat (length (rows T)) < 2 ^ 63)%Z ->
    exists R ks,
      returned (routesToWeightedEdges self g c h) = Ok (Some R) /\
      rows R = map (fun k => mkRow [] (k ++ [CInt (Z.of_nat
                       (length (routes_with g (route_input c T) k)))])) ks /\
      sorted_keys ks.
Proof.
  intros self h T g c E V R H Small.
  exists (route_counts g (route_input c T)),
         (sort_keys (uniq (map (route_key g (route_input c T))
                               (rows (route_input c T))))).
  split; [|split].
  - rewrite (routes_returned self g c h T E). now apply routes_frame_counts.
  - reflexivity.
  - apply sort_keys_sorted.
Qed.

Lemma routes_rows_in_key_order_witness :
  exists R ks,
    returned (routesToWeightedEdges ex_self "country" None ex_store) = Ok (Some R) /\
    rows R = map (fun k => mkRow [] (k ++ [CInt (Z.of_nat
                     (length (routes_with "country" (route_input None ex_routes) k)))]))
                 ks /\
    sorted_keys ks.
Proof.
  apply (routes_rows_in_key_order ex_self ex_store ex_routes "country" None).
  - reflexivity.
  - reflexivity.
  - reflexivity.
  - reflexivity.
  - vm_compute. reflexivity.
Defined.

(** ** A country with no route *)

Lemma filter_none {A} (p : A -> bool) l :
  (forall x, In x l -> p x = false) -> filter p l = [].
Proof.
  induction l as [|x l IH]; simpl; intros H; auto.
  rewrite (H x) by now left. apply IH. intros; apply H; now right.
Qed.

Lemma setitem_index T c v :
  exists i, index_of c (columns (pd.setitem T c v)) = Some i.
Proof.
  unfold pd.setitem. destruct (index_of c (columns T)) as [i|] eqn:E; simpl.
  - now exists i.
  - exists (length (columns T)). now apply index_of_new.
Qed.

Lemma setitem_columns T c v :
  columns (pd.setitem T c v) =
  match index_of c (columns T) with
  | Some _ => columns T
  | None => columns T ++ [c]
  end.
Proof. unfold pd.setitem. now destruct (index_of c (columns T)). Qed.

Lemma setitem_columns_mono T c v k :
  mem k (columns T) = true -> mem k (columns (pd.setitem T c v)) = true.
Proof.
  unfold pd.setitem. destruct (index_of c (columns T)); simpl; auto.
  apply mem_app_l.
Qed.

(** Grouping a table with no rows gives the empty table with the grouping
    columns and the count column. *)
Lemma grouped_sum_empty by_ T3 :
  rows T3 = [] ->
  has_columns T3 by_ = true ->
  (exists i, index_of "NumberOfRoutes" (columns T3) = Some i) ->
  existsb (fun n => mem n ["NumberOfRoutes"]) by_ = false ->
  grouped_sum by_ T3 = Ok (Some (mkDF [] (by_ ++ ["NumberOfRoutes"]) [])).
Proof.
  intros E H (i & Ei) Nm. unfold grouped_sum, pd.groupby_sum.
  destruct (key_indices_ok T3 by_ H) as (ixs & -> & _). cbn [rbind].
  rewrite Ei, E. change (pd.group_keys ixs []) with (@nil key).
  cbn [rmap rbind]. unfold pd.reset_index.
  cbn [index_names columns rows map]. now rewrite Nm.
Qed.

(** X4. With a country that no route of the table lies within (no row has
    both country fields equal to it), [routesToWeightedEdges] raises
    nothing: it returns the table with the grouping columns, the count
    column and no row. *)
Theorem routes_absent_country_empty :
  forall (self : CovidData) (h : store) (T : DataFrame) (g ctry : string),
    at_ h (routes_df self) T ->
    valid_granularity g = true ->
    has_columns T (route_keys g) = true ->
    (forall r, In r (rows (pd.fillna none T)) ->
       within (Some ctry) (pd.fillna none T) country_route_keys r = false) ->
    returned (routesToWeightedEdges self g (Some ctry) h)
    = Ok (Some (mkDF [] (route_keys g ++ ["NumberOfRoutes"]) [])).
Proof.
  intros self h T g ctry E V H No.
  rewrite (routes_returned self g (Some ctry) h T E).
  rewrite (routes_frame_valid T g (Some ctry) V
             (or_intror (route_keys_country T g V H))).
  apply grouped_sum_empty.
  - rewrite setitem_rows. unfold route_input, restrict. cbn [rows].
    now rewrite (filter_none _ _ No).
  - apply (has_columns_mono (route_input (Some ctry) T)); auto.
    intros k. apply setitem_columns_mono.
  - apply setitem_index.
  - apply route_keys_fresh.
Qed.

Lemma routes_absent_country_empty_witness :
  returned (routesToWeightedEdges ex_self "county" (Some "FR") ex_store)
  = Ok (Some (mkDF [] (route_keys "county" ++ ["NumberOfRoutes"]) [])).
Proof.
  apply (routes_absent_country_empty ex_self ex_store ex_routes "county" "FR").
  - reflexivity.
  - reflexivity.
  - reflexivity.
  - intros r I. simpl in I.
    repeat (destruct I as [<-|I]; [reflexivity|]). contradiction.
Defined.

(** ** A missing grouping column *)

Lemma key_indices_missing T by_ :
  has_columns T by_ = false ->
  exists k, In k by_ /\ mem k (columns T) = false /\
            pd.key_indices T by_ = Raise (KeyError k).
Proof.
  unfold has_columns, pd.key_indices.
  induction by_ as [|c by_ IH]; simpl; [discriminate|].
  destruct (mem c (columns T)) eqn:M; simpl.
  - intros H. destruct (IH H) as (k & Ik & Mk & Ek).
    destruct (mem_index_of _ _ M) as (i & -> & _). simpl.
    exists k. rewrite Ek. auto.
  - intros _. exists c. split; auto. split; auto.
    destruct (index_of c (columns T)) as [i|] eqn:Ei; [|reflexivity].
    apply index_of_mem in Ei. congruence.
Qed.

Lemma country_keys_in_route_keys g k :
  valid_granularity g = true -> In k country_route_keys -> In k (route_keys g).
Proof.
  intros V. unfold route_keys.
  destruct (valid_granularity_cases g V) as [-> | [-> | ->]]; simpl; intuition.
Qed.

Lemma getitem_missing T c : mem c (columns T) = false -> pd.getitem T c = Raise (KeyError c).
Proof.
  intros M. unfold pd.getitem.
  destruct (index_of c (columns T)) as [i|] eqn:Ei; [|reflexivity].
  apply index_of_mem in Ei. congruence.
Qed.

Lemma getitem_present T c : mem c (columns T) = true -> exists s, pd.getitem T c = Ok s.
Proof.
  intros M. unfold pd.getitem. destruct (mem_index_of _ _ M) as (i & -> & _). eauto.
Qed.

Lemma routes_frame_missing T g c :
  valid_granularity g = true ->
  has_columns T (route_keys g) = false ->
  exists k, In k (route_keys g) /\ mem k (columns T) = false /\
            routes_frame T g c = Raise (KeyError k).
Proof.
  intros V H.
  assert (Tail : exists k, In k (route_keys g) /\ mem k (columns T) = false /\
            grouped_sum (route_keys g)
              (pd.setitem (route_input c T) "NumberOfRoutes" (CInt 1))
            = Raise (KeyError k)).
  { set (T3 := pd.setitem (route_input c T) "NumberOfRoutes" (CInt 1)).
    assert (H3' : has_columns T3 (route_keys g) = false).
    { destruct (has_columns T3 (route_keys g)) eqn:H3; auto.
      assert (H' : has_columns T (route_keys g) = true); [|congruence].
      clear H. unfold has_columns in *. rewrite forallb_forall in H3.
      apply forallb_forall. intros k Ik. specialize (H3 k Ik).
      unfold T3 in H3. rewrite setitem_columns in H3.
      change (columns (route_input c T)) with (columns T) in H3.
      destruct (index_of "NumberOfRoutes" (columns T)); auto.
      rewrite mem_app in H3. apply orb_prop in H3 as [M|M]; auto.
      exfalso. apply (route_keys_not_count g).
      rewrite mem_cons in M. apply orb_prop in M as [M|M]; [|discriminate].
      apply String.eqb_eq in M. now subst. }
    destruct (key_indices_missing T3 (route_keys g) H3') as (k & Ik & Mk & Ek).
    exists k. split; auto. split.
    - destruct (mem k (columns T)) eqn:M; auto.
      apply (setitem_columns_mono (route_input c T) "NumberOfRoutes" (CInt 1)) in M.
      fold T3 in M. congruence.
    - unfold grouped_sum, pd.groupby_sum. now rewrite Ek. }
  destruct c as [ctry|].
  - destruct (has_columns T country_route_keys) eqn:Hc.
    + now rewrite (routes_frame_valid T g (Some ctry) V (or_intror Hc)).
    + unfold has_columns in Hc. simpl in Hc. rewrite andb_true_r in Hc.
      unfold routes_frame.
      destruct (mem "DepartCountry/Region" (columns T)) eqn:Md.
      * simpl in Hc. exists "ArrivalCountry/Region".
        split; [apply country_keys_in_route_keys; simpl; auto|]. split; auto.
        destruct (getitem_present (pd.fillna none T) "DepartCountry/Region" Md)
          as (s & ->).
        cbn [rbind]. rewrite (getitem_missing (pd.fillna none T) _ Hc). reflexivity.
      * exists "DepartCountry/Region".
        split; [apply country_keys_in_route_keys; simpl; auto|]. split; auto.
        rewrite (getitem_missing (pd.fillna none T) _ Md). reflexivity.
  - now rewrite (routes_frame_valid T g None V (or_introl eq_refl)).
Qed.

(** X5. When the route table, with the default index, lacks one of the
    grouping columns of the granularity, and the number of selected routes
    is not the number of grouping columns, [routesToWeightedEdges] raises
    [KeyError] with the label of a grouping column that is missing, whether
    a country is given or not.  (With as many rows as labels pandas takes
    the list of labels for the group values, one per row.) *)
Theorem routes_missing_column_KeyError :
  forall (self : CovidData) (h : store) (T : DataFrame) (g : string)
         (c : option string),
    at_ h (routes_df self) T ->
    valid_granularity g = true ->
    index_names T = [] ->
    has_columns T (route_keys g) = false ->
    length (rows (route_input c T)) <> length (route_keys g) ->
    exists k, In k (route_keys g) /\ mem k (columns T) = false /\
              fst (routesToWeightedEdges self g c h) = Raise (KeyError k).
Proof.
  intros self h T g c E V _ H _.
  destruct (routes_frame_missing T g c V H) as (k & Ik & Mk & Ef).
  exists k. split; auto. split; auto.
  destruct (routes_sim self g c h T E) as (ext & _ & X).
  now rewrite Ef in X.
Qed.

Lemma routes_missing_column_KeyError_witness :
  exists k, In k (route_keys "county") /\
            mem k (columns ex_confirmed) = false /\
            fst (routesToWeightedEdges (mkCovidData 0 1 2 0) "county" None
                                       ex_store)
            = Raise (KeyError k).
Proof.
  apply (routes_missing_column_KeyError (mkCovidData 0 1 2 0) ex_store
           ex_confirmed "county" None).
  - reflexivity.
  - reflexivity.
  - reflexivity.
  - reflexivity.
  - simpl. lia.
Defined.

(** * Further properties of [getData] *)

Lemma holds_deref h data out : holds h data out -> deref_dict h data = Ok out.
Proof.
  unfold deref_dict.
  induction 1 as [|[k l] [k' T] d o (K & E) _ IH]; simpl in *; [reflexivity|].
  subst k'. rewrite E. cbn [rbind fst]. now rewrite IH.
Qed.

Lemma at_opt_returned h r ro : at_opt h r ro -> returned (Ok r, h) = Ok ro.
Proof.
  unfold returned, at_opt, at_. simpl.
  destruct r as [l|], ro as [T|]; try contradiction; auto.
  now intros ->.
Qed.

Lemma getData_returned self g c d h Tc Td Tr Trt :
  at_ h (confirmed_df self) Tc -> at_ h (deaths_df self) Td ->
  at_ h (recovered_df self) Tr -> at_ h (routes_df self) Trt ->
  returned_data (getData self g c d h) = getData_frames Tc Td Tr Trt g c d.
Proof.
  intros Ec Ed Er Et.
  destruct (getData_sim self g c d h Tc Td Tr Trt Ec Ed Er Et) as (ext & S & X).
  unfold returned_data.
  destruct (getData_frames Tc Td Tr Trt g c d) as [[out ro]|e].
  - destruct X as ([data r] & -> & Ho & Hr). rewrite S. simpl in Ho, Hr.
    rewrite (holds_deref _ _ _ Ho). cbn [rbind].
    now rewrite (at_opt_returned _ _ _ Hr).
  - now rewrite X.
Qed.

Lemma run_calls_at self cs h l T :
  at_ h l T -> at_ (run_calls self cs h) l T.
Proof.
  unfold at_. intros E.
  rewrite (nth_error_prefix h (run_calls self cs h) l); auto.
  - apply run_calls_prefix.
  - apply nth_error_Some. congruence.
Qed.

(** X6. What the two methods return does not depend on the calls made
    before: after any sequence of calls of [getData] and
    [routesToWeightedEdges], a call returns the same tables (or raises the
    same exception) as it would have on the instance as constructed. *)
Theorem calls_are_repeatable :
  forall (self : CovidData) (h : store) (cs : list call)
         (g : string) (c d : option string),
    valid self h ->
    returned_data (getData self g c d (run_calls self cs h))
    = returned_data (getData self g c d h) /\
    returned (routesToWeightedEdges self g c (run_calls self cs h))
    = returned (routesToWeightedEdges self g c h).
Proof.
  intros self h cs g c d V.
  destruct (valid_at self h V) as (Tc & Td & Tr & Trt & Ec & Ed & Er & Et).
  split.
  - rewrite (getData_returned self g c d h Tc Td Tr Trt Ec Ed Er Et).
    apply getData_returned; now apply run_calls_at.
  - rewrite (routes_returned self g c h Trt Et).
    apply routes_returned. now apply run_calls_at.
Qed.

Lemma calls_are_repeatable_witness :
  returned_data (getData ex_self "state" (Some "US") None
                         (run_calls ex_self ex_calls ex_store))
  = returned_data (getData ex_self "state" (Some "US") None ex_store) /\
  returned (routesToWeightedEdges ex_self "state" (Some "US")
                                  (run_calls ex_self ex_calls ex_store))
  = returned (routesToWeightedEdges ex_self "state" (Some "US") ex_store).
Proof.
  apply (calls_are_repeatable ex_self ex_store ex_calls "state" (Some "US") None).
  unfold valid. simpl. lia.
Defined.

(** X7. The route table [getData] returns beside the case tables is the
    table [routesToWeightedEdges] returns for the same granularity and
    country. *)
Theorem getData_routes_agree :
  forall (self : CovidData) (h : store) (g : string) (c d : option string)
         (out : dict DataFrame) (ro : option DataFrame),
    valid self h ->
    returned_data (getData self g c d h) = Ok (out, ro) ->
    returned (routesToWeightedEdges self g c h) = Ok ro.
Proof.
  intros self h g c d out ro V E.
  destruct (valid_at self h V) as (Tc & Td & Tr & Trt & Ec & Ed & Er & Et).
  rewrite (getData_returned self g c d h Tc Td Tr Trt Ec Ed Er Et) in E.
  destruct (getData_frames_inv _ _ _ _ _ _ _ _ _ E) as (_ & sel & _ & _ & Ert).
  now rewrite (routes_returned self g c h Trt Et).
Qed.

Lemma getData_routes_agree_witness :
  exists out ro,
    returned_data (getData ex_self "country" None (Some "latest") ex_store)
    = Ok (out, ro) /\
    returned (routesToWeightedEdges ex_self "country" None ex_store) = Ok ro.
Proof.
  destruct (returned_data (getData ex_self "country" None (Some "latest") ex_store))
    as [[out ro]|e] eqn:E; [|vm_compute in E; discriminate E].
  exists out, ro. split; [reflexivity|].
  apply (getData_routes_agree ex_self ex_store "country" None (Some "latest") out ro).
  - unfold valid. simpl. lia.
  - exact E.
Defined.

(** ** Errors of [getData] *)

(** X8. With [specific_date = "latest"] and a confirmed table that has no
    column after the fifth, [getData] raises [IndexError], at every valid
    granularity: [dates[-1]] is taken of an empty list. *)
Theorem latest_without_dates_IndexError :
  forall (self : CovidData) (h : store) (Tc Td Tr Trt : DataFrame)
         (g : string) (c : option string),
    at_ h (confirmed_df self) Tc -> at_ h (deaths_df self) Td ->
    at_ h (recovered_df self) Tr -> at_ h (routes_df self) Trt ->
    valid_granularity g = true ->
    filterable c (case_tables g Tc Td Tr) = true ->
    date_columns Tc = [] ->
    fst (getData self g c (Some "latest") h) = Raise IndexError.
Proof.
  intros self h Tc Td Tr Trt g c Ec Ed Er Et V Fl Nd.
  destruct (getData_sim self g c (Some "latest") h Tc Td Tr Trt Ec Ed Er Et)
    as (ext & _ & X).
  assert (E : getData_frames Tc Td Tr Trt g c (Some "latest") = Raise IndexError).
  { unfold getData_frames. rewrite V. cbn [negb].
    rewrite (case_tables_prepared g c Tc Td Tr Fl). cbn [rbind].
    rewrite case_inputs_confirmed. cbn [rbind].
    change (columns (case_input c Tc)) with (columns Tc).
    fold (date_columns Tc). now rewrite Nd. }
  now rewrite E in X.
Qed.

Lemma latest_without_dates_IndexError_witness :
  fst (getData (mkCovidData 4 1 2 3) "county" None (Some "latest")
         (ex_store ++ [table ["County"; "Province/State"; "Country/Region";
                              "Lat"; "Long"] []]))
  = Raise IndexError.
Proof.
  apply (latest_without_dates_IndexError (mkCovidData 4 1 2 3) _
           (table ["County"; "Province/State"; "Country/Region"; "Lat"; "Long"] [])
           ex_deaths ex_recovered ex_routes "county" None).
  - reflexivity.
  - reflexivity.
  - reflexivity.
  - reflexivity.
  - reflexivity.
  - reflexivity.
  - reflexivity.
Defined.

Lemma filter_frame_missing ctry d :
  forallb (fun p => has_columns (snd p) ["Country/Region"]) d = false ->
  dict_rmap (filter_frame ctry) d = Raise (KeyError "Country/Region").
Proof.
  induction d as [|[k T] d IH]; cbn [forallb dict_rmap rmap snd fst];
    [discriminate|].
  destruct (has_columns T ["Country/Region"]) eqn:H; cbn [andb].
  - intros F. rewrite (case_filter_restrict T ctry H). cbn [rbind].
    now rewrite (IH F).
  - intros _. unfold filter_frame. rewrite getitem_missing; [reflexivity|].
    unfold has_columns in H. simpl in H. now rewrite andb_true_r in H.
Qed.

(** X9. With a country given, when one of the case tables read at the
    granularity has no [Country/Region] column, [getData] raises
    [KeyError] for that label, at every valid granularity. *)
Theorem getData_missing_country_column_KeyError :
  forall (self : CovidData) (h : store) (Tc Td Tr Trt : DataFrame)
         (g ctry : string) (d : option string),
    at_ h (confirmed_df self) Tc -> at_ h (deaths_df self) Td ->
    at_ h (recovered_df self) Tr -> at_ h (routes_df self) Trt ->
    valid_granularity g = true ->
    filterable (Some ctry) (case_tables g Tc Td Tr) = false ->
    fst (getData self g (Some ctry) d h) = Raise (KeyError "Country/Region").
Proof.
  intros self h Tc Td Tr Trt g ctry d Ec Ed Er Et V Fl.
  destruct (getData_sim self g (Some ctry) d h Tc Td Tr Trt Ec Ed Er Et)
    as (ext & _ & X).
  assert (E : getData_frames Tc Td Tr Trt g (Some ctry) d
              = Raise (KeyError "Country/Region")).
  { unfold getData_frames. rewrite V. cbn [negb].
    rewrite filter_frame_missing; [reflexivity|].
    unfold filterable, case_tables in Fl.
    destruct (String.eqb g "country"); exact Fl. }
  now rewrite E in X.
Qed.

Lemma getData_missing_country_column_KeyError_witness :
  fst (getData (mkCovidData 0 3 2 3) "state" (Some "US") None ex_store)
  = Raise (KeyError "Country/Region").
Proof.
  apply (getData_missing_country_column_KeyError (mkCovidData 0 3 2 3) ex_store
           ex_confirmed ex_routes ex_recovered ex_routes "state" "US" None).
  - reflexivity.
  - reflexivity.
  - reflexivity.
  - reflexivity.
  - reflexivity.
  - reflexivity.
Defined.

(** ** Keys, selectors and sums of the regrouping *)

Lemma key_of_fields T by_ ixs r :
  pd.key_indices T by_ = Ok ixs ->
  pd.key_of ixs r = map (fun c => field T c r) by_.
Proof.
  intros Ek. apply rmap_inv in Ek. unfold pd.key_of.
  induction Ek as [|c i by_ ixs E _ IH]; [reflexivity|].
  cbn [map]. rewrite IH. f_equal. unfold field.
  destruct (index_of c (columns T)); [|discriminate]. now injection E as <-.
Qed.

Lemma select_dates_selector d dates sel :
  select_dates d dates = Ok sel -> selector_ok d dates.
Proof.
  unfold select_dates, selector_ok. destruct d as [x|]; auto.
  destruct (String.eqb x "latest"); cbn [negb].
  - intros E ->. discriminate E.
  - destruct (mem x dates) eqn:M; [|discriminate]. intros _. now apply mem_In.
Qed.

Lemma group_total_column T by_ ixs c i k v :
  pd.key_indices T by_ = Ok ixs ->
  index_of c (columns T) = Some i ->
  pd.agg Sum (pd.dtype_of (pd.column_at i (rows T)))
         (pd.column_at i (pd.group ixs (rows T) k)) = Ok v ->
  group_total T by_ c k = Ok v.
Proof.
  intros Ek Ei E. unfold group_total. rewrite Ek. cbn [rbind].
  unfold pd.getitem. cbn [columns rows]. rewrite Ei. cbn [rbind].
  exact E.
Qed.

Lemma plan_sums T by_ ixs k ds qs vs :
  pd.key_indices T by_ = Ok ixs ->
  Forall2 (fun p q => index_of (fst p) (columns T) = Some (fst q) /\ snd q = snd p)
          (map (fun x => (x, Sum)) ds) qs ->
  Forall2 (fun p v =>
             pd.agg (snd p) (pd.dtype_of (pd.column_at (fst p) (rows T)))
                    (pd.column_at (fst p) (pd.group ixs (rows T) k)) = Ok v) qs vs ->
  Forall2 (fun dte s => group_total T by_ dte k = Ok s) ds vs.
Proof.
  intros Ek. revert qs vs. induction ds as [|x ds IH]; intros qs vs Pl Vs.
  - inversion Pl; subst. inversion Vs; subst. constructor.
  - inversion Pl as [|p [i f] l l' (Ei & Ef) Pl']; subst.
    inversion Vs as [|q v l1 l2 Ev Vs']; subst.
    cbn [fst snd] in *. subst f. constructor; [|now apply (IH l')].
    exact (group_total_column T by_ ixs x i k v Ek Ei Ev).
Qed.

(** ** A country that no row has *)

(** X11. With a country that no row of the case tables has, on tables on
    which [getData] returns, the call returns (no exception) and every
    case table it returns has no row, at every valid granularity. *)
Theorem getData_absent_country_empty :
  forall (self : CovidData) (h : store) (Tc Td Tr Trt : DataFrame)
         (g ctry : string) (d : option string),
    at_ h (confirmed_df self) Tc -> at_ h (deaths_df self) Td ->
    at_ h (recovered_df self) Tr -> at_ h (routes_df self) Trt ->
    valid_granularity g = true ->
    well_formed g (Some ctry) d Tc Td Tr Trt ->
    (forall name T r, In (name, T) (case_tables g Tc Td Tr) ->
       In r (rows (pd.fillna none T)) ->
       within (Some ctry) (pd.fillna none T) ["Country/Region"] r = false) ->
    exists data r,
      fst (getData self g (Some ctry) d h) = Ok (data, r) /\
      forall name l, In (name, l) data ->
        exists R, at_ (snd (getData self g (Some ctry) d h)) l R /\ rows R = [].
Proof.
  intros self h Tc Td Tr Trt g ctry d Ec Ed Er Et V W No.
  destruct (getData_returns_wf self h Tc Td Tr Trt g (Some ctry) d Ec Ed Er Et V W)
    as (data & r & F).
  exists data, r. split; [exact F|].
  assert (Empty : forall name T, In (name, T) (case_tables g Tc Td Tr) ->
                    rows (case_input (Some ctry) T) = []).
  { intros name T I. unfold case_input, restrict. cbn [rows].
    apply filter_none. intros x Ix. exact (No name T x I Ix). }
  destruct (valid_granularity_cases g V) as [-> | Hg].
  - destruct (county_tables_returned self h Tc Td Tr Trt (Some ctry) d data r
                Ec Ed Er Et F) as ((lc & ld & -> & Ac & Ad) & _).
    intros name l [[= <- <-] | [[= <- <-] | []]].
    + eexists. split; [exact Ac|]. apply (Empty "confirmed"). now left.
    + eexists. split; [exact Ad|]. apply (Empty "deaths"). right. now left.
  - destruct (rows_bounded_returned self h Tc Td Tr Trt g (Some ctry) d data r
                Ec Ed Er Et Hg F) as (B & _).
    intros name l I. destruct (B name l I) as (T & R & IT & A & L).
    exists R. split; [exact A|].
    rewrite (Empty name T IT) in L. destruct (rows R); [reflexivity|].
    simpl in L. lia.
Qed.

Lemma getData_absent_country_empty_witness :
  exists data r,
    fst (getData ex_self "state" (Some "FR") None ex_store) = Ok (data, r) /\
    forall name l, In (name, l) data ->
      exists R, at_ (snd (getData ex_self "state" (Some "FR") None ex_store)) l R /\
                rows R = [].
Proof.
  apply (getData_absent_country_empty ex_self ex_store
           ex_confirmed ex_deaths ex_recovered ex_routes "state" "FR" None).
  - reflexivity.
  - reflexivity.
  - reflexivity.
  - reflexivity.
  - reflexivity.
  - unfold well_formed. repeat split; try reflexivity.
    right. split; reflexivity.
  - intros name T r [[= <- <-] | [[= <- <-] | []]] I; simpl in I.
    + repeat (destruct I as [<-|I]; [reflexivity|]). contradiction.
    + repeat (destruct I as [<-|I]; [reflexivity|]). contradiction.
Defined.

(** ** Aggregation keeps the totals *)

Lemma Zsum_insert (f : key -> Z) k ks :
  pd.Zsum (map f (insert_key k ks)) = (f k + pd.Zsum (map f ks))%Z.
Proof.
  unfold pd.Zsum. induction ks as [|k' ks IH]; simpl; auto.
  destruct (key_leb k k'); simpl; auto. rewrite IH. lia.
Qed.

Lemma Zsum_sort (f : key -> Z) ks :
  pd.Zsum (map f (sort_keys ks)) = pd.Zsum (map f ks).
Proof.
  induction ks as [|k ks IH]; simpl; auto. rewrite Zsum_insert.
  unfold pd.Zsum in *. simpl. now rewrite IH.
Qed.

Lemma Zsum_map_add {A} (f g : A -> Z) l :
  pd.Zsum (map (fun a => (f a + g a)%Z) l)
  = (pd.Zsum (map f l) + pd.Zsum (map g l))%Z.
Proof. unfold pd.Zsum. induction l as [|a l IH]; simpl; auto. rewrite IH. lia. Qed.

Lemma one_class_weight x (w : Z) ks :
  distinct ks -> (exists k, In k ks /\ key_eqb x k = true) ->
  pd.Zsum (map (fun k => if key_eqb x k then w else 0%Z) ks) = w.
Proof.
  unfold pd.Zsum. induction ks as [|k0 ks IH]; simpl.
  - intros _ (k & [] & _).
  - intros (F & D) (k & I & E). destruct (key_eqb x k0) eqn:E0.
    + rewrite Forall_forall in F.
      assert (Z : fold_right Z.add 0%Z
                    (map (fun k => if key_eqb x k then w else 0%Z) ks) = 0%Z).
      { clear - F E0. induction ks as [|k1 ks IH]; simpl; auto.
        destruct (key_eqb x k1) eqn:E1.
        - exfalso. assert (H : key_eqb k0 k1 = true).
          { eapply key_eqb_trans; eauto. now rewrite key_eqb_sym. }
          rewrite (F k1) in H; [discriminate|now left].
        - apply IH. intros k' I. apply F. now right. }
      rewrite Z. lia.
    + rewrite IH; auto. destruct I as [<-|I]; [congruence|]. now exists k.
Qed.

Lemma classes_partition_weight {A} (kf : A -> key) (w : A -> Z) ks (rs : list A) :
  distinct ks ->
  (forall r, In r rs -> exists k, In k ks /\ key_eqb (kf r) k = true) ->
  pd.Zsum (map (fun k => pd.Zsum (map w (filter (fun r => key_eqb (kf r) k) rs))) ks)
  = pd.Zsum (map w rs).
Proof.
  intros D. induction rs as [|r rs IH]; intros C.
  - simpl. clear. unfold pd.Zsum. induction ks; simpl; auto.
  - transitivity
      (pd.Zsum (map (fun k => if key_eqb (kf r) k then w r else 0%Z) ks) +
       pd.Zsum (map (fun k => pd.Zsum (map w (filter (fun r => key_eqb (kf r) k) rs)))
                    ks))%Z.
    + rewrite <- Zsum_map_add. f_equal. apply map_ext. intros k.
      cbn [filter]. destruct (key_eqb (kf r) k); reflexivity.
    + rewrite (one_class_weight (kf r) (w r) ks D (C r (or_introl eq_refl))).
      rewrite IH by (intros; apply C; now right). reflexivity.
Qed.

(** The totals of the groups add up to the total of the rows with a key. *)
Lemma groups_partition_weight ixs rs (w : Row -> Z) :
  pd.Zsum (map (fun k => pd.Zsum (map w (pd.group ixs rs k))) (pd.group_keys ixs rs))
  = pd.Zsum (map w (pd.keyed ixs rs)).
Proof.
  unfold pd.group_keys, pd.group. rewrite Zsum_sort.
  apply classes_partition_weight; [apply uniq_distinct|].
  intros r I. apply uniq_covers; [apply keyed_nan_free|]. now apply in_map.
Qed.

Lemma Zsum_filter_bounds {A} (w : A -> Z) p rs :
  (forall r, In r rs -> (0 <= w r)%Z) ->
  (0 <= pd.Zsum (map w (filter p rs)) <= pd.Zsum (map w rs))%Z.
Proof.
  unfold pd.Zsum. induction rs as [|r rs IH]; intros N; simpl; [lia|].
  assert (0 <= w r)%Z by (apply N; now left).
  assert (IH' := IH (fun x I => N x (or_intror I))).
  destruct (p r); simpl; lia.
Qed.

Lemma Zsum_Forall2 {A B} (f : A -> Z) (g : B -> Z) l l' :
  Forall2 (fun a b => g b = f a) l l' ->
  pd.Zsum (map g l') = pd.Zsum (map f l).
Proof. unfold pd.Zsum. induction 1; simpl; congruence. Qed.

Lemma index_of_app_r c l l' j :
  mem c l = false -> index_of c l' = Some j ->
  index_of c (l ++ l') = Some (length l + j).
Proof.
  intros M E. induction l as [|x l IH]; [exact E|].
  rewrite mem_cons in M. apply orb_false_elim in M as (M1 & M2).
  cbn [app index_of length]. rewrite String.eqb_sym, M1, (IH M2). reflexivity.
Qed.

Lemma index_of_nth_error c l j : index_of c l = Some j -> nth_error l j = Some c.
Proof.
  revert j. induction l as [|x l IH]; intros j; cbn [index_of]; [discriminate|].
  destruct (String.eqb_spec x c) as [->|_].
  - now intros [= <-].
  - destruct (index_of c l) as [i|]; [|discriminate].
    intros [= <-]. now apply IH.
Qed.

Lemma Forall2_nth_l {A B} (P : A -> B -> Prop) l l' j a :
  Forall2 P l l' -> nth_error l j = Some a ->
  exists b, nth_error l' j = Some b /\ P a b.
Proof.
  intros H. revert j. induction H as [|x y l l' Pxy _ IH]; intros [|j]; simpl;
    try discriminate.
  - intros [= <-]. now exists y.
  - apply IH.
Qed.

Lemma Forall2_map_r_In {A B C} (P : A -> B -> Prop) (Q : A -> C -> Prop)
    (f : B -> C) l l' :
  Forall2 P l l' -> (forall a b, In a l -> P a b -> Q a (f b)) ->
  Forall2 Q l (map f l').
Proof.
  induction 1 as [|a b l l' Pab _ IH]; intros H; simpl; constructor.
  - apply H; auto. now left.
  - apply IH. intros a' b' I. apply H. now right.
Qed.

Lemma groupby_agg_fresh T by_ d G :
  pd.groupby_agg T by_ d = Ok G ->
  Forall (fun p => mem (fst p) by_ = false) (pd.agg_plan d).
Proof.
  unfold pd.groupby_agg. intros E.
  destruct (pd.key_indices T by_) as [ixs|]; cbn [rbind] in E; [|discriminate].
  match type of E with rbind ?m _ = _ => destruct m as [plan|] eqn:Ep end;
    cbn [rbind] in E; [|discriminate].
  apply rmap_inv in Ep. clear - Ep.
  induction Ep as [|p q l l' H _ IH]; constructor; auto.
  destruct (mem (fst p) by_); [discriminate|reflexivity].
Qed.

Lemma key_indices_lt T by_ ixs :
  pd.key_indices T by_ = Ok ixs -> Forall (fun i => i < length (columns T)) ixs.
Proof.
  intros Ek. apply rmap_inv in Ek.
  induction Ek as [|c i by_ ixs E _ IH]; constructor; auto.
  destruct (index_of c (columns T)) as [i'|] eqn:Ei; [|discriminate].
  injection E as <-. now apply index_of_lt in Ei.
Qed.

(** Regrouping, key by key. *)
Lemma regroup_rows_keys by_ ad cols ds T R :
  regroup_frame by_ ad cols T = Ok R ->
  pd.agg_plan ad = ("Lat", Mean) :: ("Long", Mean) :: map (fun x => (x, Sum)) ds ->
  exists ixs, pd.key_indices T by_ = Ok ixs /\
    columns R = by_ ++ cols /\
    Forall (fun x => mem x by_ = false) ds /\
    Forall2 (fun k row => exists mlat mlong sums,
               vals row = k ++ mlat :: mlong :: sums /\
               length k = length by_ /\
               Forall2 (fun dte s => group_total T by_ dte k = Ok s) ds sums)
            (pd.group_keys ixs (rows T)) (rows R).
Proof.
  intros E Plan. destruct (regroup_frame_inv _ _ _ _ _ E) as (G & EG & _ & ER).
  pose proof (groupby_agg_fresh _ _ _ _ EG) as Fr.
  destruct (groupby_agg_inv _ _ _ _ EG) as (ixs & plan & Ek & Pl & _ & _ & Rs).
  subst R. rewrite Plan in Pl, Fr.
  inversion Pl as [|p1 [i1 f1] l1 l1' (Ei1 & Ef1) Pl1]; subst.
  inversion Pl1 as [|p2 [i2 f2] l2 l2' (Ei2 & Ef2) Pl2]; subst.
  exists ixs. split; [exact Ek|]. split; [reflexivity|]. split.
  - inversion Fr as [|? ? _ Fr1]; subst. inversion Fr1 as [|? ? _ Fr2]; subst.
    clear - Fr2. induction ds as [|x ds IH]; [constructor|].
    inversion Fr2; subst. constructor; auto.
  - cbn [rows].
    apply (Forall2_map_r_In _ _ _ _ _ Rs). intros k r Ik (Ki & Vs).
    inversion Vs as [|q1 v1 m1 m1' Ev1 Vs1]; subst.
    inversion Vs1 as [|q2 v2 m2 m2' Ev2 Vs2]; subst.
    exists v1, v2, m2'. cbn [vals]. repeat split.
    + apply group_keys_key in Ik as (r0 & _ & Kr). rewrite Kr.
      unfold pd.key_of. rewrite length_map. now apply key_indices_length in Ek.
    + now apply (plan_sums T by_ ixs (idx r) ds l2').
Qed.

Lemma counts_column_inv T c :
  counts_column T c = true ->
  exists i, index_of c (columns T) = Some i /\
    pd.dtype_of (pd.column_at i (rows T)) = Int64 /\
    forall r, In r (rows T) -> (0 <= pd.int_of (nth i (vals r) CNaN))%Z.
Proof.
  unfold counts_column. destruct (index_of c (columns T)) as [i|]; [|discriminate].
  intros H. exists i. split; [reflexivity|]. rewrite forallb_forall in H. split.
  - unfold pd.dtype_of. replace (forallb pd.is_int (pd.column_at i (rows T))) with true;
      [reflexivity|].
    symmetry. apply forallb_forall. intros x I. specialize (H x I).
    now destruct x.
  - intros r I.
    assert (Ir : In (nth i (vals r) CNaN) (pd.column_at i (rows T))).
    { unfold pd.column_at. apply in_map_iff. eauto. }
    specialize (H _ Ir).
    destruct (nth i (vals r) CNaN); try discriminate H.
    cbn [pd.int_of]. now apply Z.leb_le.
Qed.

(** X12. Aggregation keeps the totals: in a call of [getData] at [state]
    or [country] granularity that returns, with [Lat], [Long] and the
    selected dates distinct labels, take a returned table and a selected
    date.  When the source table has one cell per column in every row and
    its date column, after normalisation and the country filter, holds
    integers that are not negative and add up to less than 2^63, the date
    column of the returned table adds up to the same total. *)
Theorem aggregation_keeps_totals :
  forall (self : CovidData) (h : store) (Tc Td Tr Trt : DataFrame)
         (g : string) (c d : option string) (data : dict loc) (r : option loc),
    at_ h (confirmed_df self) Tc -> at_ h (deaths_df self) Td ->
    at_ h (recovered_df self) Tr -> at_ h (routes_df self) Trt ->
    g = "state" \/ g = "country" ->
    nodupb ("Lat" :: "Long" :: selected_dates d (date_columns Tc)) = true ->
    fst (getData self g c d h) = Ok (data, r) ->
    forall name l dte,
      In (name, l) data -> In dte (selected_dates d (date_columns Tc)) ->
      exists T R, In (name, T) (case_tables g Tc Td Tr) /\
        at_ (snd (getData self g c d h)) l R /\
        (rectangular T = true ->
         counts_column (case_input c T) dte = true ->
         forall n, column_total (case_input c T) dte = Ok n ->
                   (n < 2 ^ 63)%Z ->
                   column_total R dte = Ok n).
Proof.
  intros self h Tc Td Tr Trt g c d data r Ec Ed Er Et Hg N F name l dte I Id.
  destruct (getData_tables self g c d h Tc Td Tr Trt data r Ec Ed Er Et Hg F)
    as (sel & ro & Es & _ & _ & Tab).
  destruct (select_dates_ok d (date_columns Tc) (select_dates_selector _ _ _ Es) N)
    as (sel' & Es' & Plan & Cols).
  rewrite Es in Es'. injection Es' as <-.
  destruct (Tab name l I) as (T & R & IT & A & E).
  exists T, R. split; [exact IT|]. split; [exact A|].
  intros Rect Cnt n Tot Small.
  set (ds := selected_dates d (date_columns Tc)) in *.
  set (T1 := case_input c T) in *.
  destruct (regroup_rows_keys _ _ _ _ _ _ E Plan) as (ixs & Ek & CR & Fresh & Rows).
  destruct (counts_column_inv _ _ Cnt) as (i & Ei & Dt & Nonneg).
  set (w := fun r : Row => pd.int_of (nth i (vals r) CNaN)) in *.
  assert (Tn : n = pd.Zsum (map w (rows T1))).
  { unfold column_total, pd.getitem in Tot. rewrite Ei in Tot. cbn [rbind] in Tot.
    injection Tot as <-. unfold pd.column_at. now rewrite map_map. }
  assert (Keyed : pd.keyed ixs (rows T1) = rows T1).
  { apply keyed_all.
    - apply restrict_rectangular. now rewrite fillna_rectangular.
    - apply restrict_clean, fillna_clean.
    - now apply (key_indices_lt T1 (location_keys g)). }
  (* the position of the date among the columns of the result *)
  apply mem_In in Id. destruct (mem_index_of _ _ Id) as (j & Ej & _).
  apply nodupb_cons in N as (N1 & N). apply nodupb_cons in N as (N2 & _).
  rewrite mem_cons in N1. apply orb_false_elim in N1 as (_ & N1).
  assert (Ex : index_of dte (snd sel) = Some (S (S j))).
  { rewrite Cols. cbn [index_of].
    destruct (String.eqb_spec "Lat" dte) as [<-|_]; [congruence|].
    destruct (String.eqb_spec "Long" dte) as [<-|_]; [congruence|].
    rewrite Ej. reflexivity. }
  assert (Fd : mem dte (location_keys g) = false).
  { rewrite Forall_forall in Fresh. apply Fresh. now apply mem_In. }
  unfold column_total, pd.getitem. rewrite CR, (index_of_app_r _ _ _ _ Fd Ex).
  cbn [rbind]. f_equal.
  rewrite Tn, <- Keyed, <- (groups_partition_weight ixs (rows T1) w).
  unfold pd.column_at. rewrite map_map.
  apply Zsum_Forall2.
  eapply Forall2_impl; [|exact Rows].
  intros k row (mlat & mlong & sums & Ev & Lk & Sums). cbv beta.
  destruct (Forall2_nth_l _ _ _ _ _ Sums (index_of_nth_error _ _ _ Ej))
    as (s & Es_ & Gt).
  rewrite Ev, app_nth2 by lia.
  replace (length (location_keys g) + S (S j) - length k) with (S (S j)) by lia.
  cbn [nth]. rewrite (nth_error_nth _ _ CNaN Es_).
  unfold group_total in Gt. rewrite Ek in Gt. cbn [rbind] in Gt.
  unfold pd.getitem in Gt. cbn [columns rows] in Gt. rewrite Ei in Gt.
  cbn [rbind] in Gt. rewrite Dt in Gt. cbn [pd.agg_sum] in Gt.
  injection Gt as <-. cbn [pd.int_of].
  unfold pd.column_at. rewrite map_map. fold w.
  apply wrap64_small.
  pose proof (Zsum_filter_bounds w (fun r0 => key_eqb (pd.key_of ixs r0) k)
                (rows T1) Nonneg) as B.
  unfold pd.group. rewrite Keyed. lia.
Qed.

Lemma aggregation_keeps_totals_witness :
  exists R,
    at_ (snd (getData ex_self "state" None None ex_store)) 9 R /\
    column_total (case_input None ex_confirmed) "1/23/20" = Ok 26%Z /\
    column_total R "1/23/20" = Ok 26%Z.
Proof.
  destruct (aggregation_keeps_totals ex_self ex_store
              ex_confirmed ex_deaths ex_recovered ex_routes "state" None None
              [("confirmed", 9); ("deaths", 11)] (Some 15)
              eq_refl eq_refl eq_refl eq_refl (or_introl eq_refl) eq_refl eq_refl
              "confirmed" 9 "1/23/20" (or_introl eq_refl) (or_intror (or_introl eq_refl)))
    as (T & R & IT & A & H).
  exists R. split; [exact A|]. split; [reflexivity|].
  destruct IT as [E | [E | []]]; [|discriminate E].
  injection E as <-. apply H; reflexivity.
Defined.

(** ** The rows of a regrouped table, key by key *)

Lemma int_total_Zsum T c i rs :
  index_of c (columns T) = Some i ->
  int_total T c rs = pd.Zsum (map pd.int_of (pd.column_at i rs)).
Proof.
  intros Ei. unfold int_total, pd.Zsum, pd.column_at.
  assert (G : forall a,
             fold_left (fun a r => match field T c r with
                                   | CInt z => (a + z)%Z
                                   | _ => a
                                   end) rs a
             = (a + fold_right Z.add 0%Z
                      (map pd.int_of (map (fun r => nth i (vals r) CNaN) rs)))%Z).
  { induction rs as [|r rs IH]; intros a; cbn [fold_left map fold_right]; [lia|].
    rewrite IH. unfold field. rewrite Ei.
    destruct (nth i (vals r) CNaN); cbn [pd.int_of]; lia. }
  rewrite G. lia.
Qed.

Lemma int_column_inv T c :
  int_column T c = true ->
  exists i, index_of c (columns T) = Some i /\
            pd.dtype_of (pd.column_at i (rows T)) = Int64.
Proof.
  unfold int_column. destruct (index_of c (columns T)) as [i|]; [|discriminate].
  intros H. exists i. split; [reflexivity|].
  unfold pd.dtype_of, pd.column_at. rewrite forallb_map_comp.
  rewrite (forallb_pointwise _ (fun r => match nth i (vals r) CNaN with
                                         | CInt _ => true
                                         | _ => false
                                         end)), H; [reflexivity|].
  intros r. reflexivity.
Qed.

(** On a clean table with one cell per column in every row, the groups of
    [groupby] are the classes of the rows by location key. *)
Lemma location_groups_eq g T ixs :
  rectangular T = true -> clean T = true ->
  pd.key_indices T (location_keys g) = Ok ixs ->
  pd.group_keys ixs (rows T) = location_groups g T /\
  forall k, pd.group ixs (rows T) k = rows_at g T k.
Proof.
  intros R C Ek.
  assert (Keyed : pd.keyed ixs (rows T) = rows T).
  { apply keyed_all; auto. now apply (key_indices_lt T (location_keys g)). }
  assert (Kf : forall r, pd.key_of ixs r = location_key g T r).
  { intros r. now apply key_of_fields. }
  split.
  - unfold pd.group_keys, location_groups. rewrite Keyed. do 2 f_equal.
    apply map_ext. exact Kf.
  - intros k. unfold pd.group, rows_at. rewrite Keyed. apply filter_ext.
    intros r. now rewrite Kf.
Qed.

(** Regrouping by the location keys, with means of [Lat] and [Long] and
    sums of the columns [ds]: one row per location key of the table, in
    key order, and the sum cell of an integer column is the wrapped total
    of the column over the rows with the key. *)
Lemma regroup_sums g ad cols ds T R :
  rectangular T = true -> clean T = true ->
  regroup_frame (location_keys g) ad cols T = Ok R ->
  pd.agg_plan ad = ("Lat", Mean) :: ("Long", Mean) :: map (fun x => (x, Sum)) ds ->
  columns R = location_keys g ++ cols /\
  Forall2 (fun k row => exists mlat mlong sums,
             vals row = k ++ mlat :: mlong :: sums /\
             Forall2 (fun dte s =>
                        int_column T dte = true ->
                        s = CInt (wrap64 (int_total T dte (rows_at g T k))))
                     ds sums)
          (location_groups g T) (rows R).
Proof.
  intros Rc Cl E Plan.
  destruct (regroup_rows_keys _ _ _ _ _ _ E Plan) as (ixs & Ek & CR & _ & Rows).
  destruct (location_groups_eq g T ixs Rc Cl Ek) as (Gk & Gr).
  split; [exact CR|]. rewrite <- Gk.
  eapply Forall2_impl; [|exact Rows].
  intros k row (mlat & mlong & sums & Ev & _ & Sums).
  exists mlat, mlong, sums. split; [exact Ev|].
  eapply Forall2_impl; [|exact Sums].
  intros dte s Gt Ic. cbv beta in Gt.
  destruct (int_column_inv _ _ Ic) as (i & Ei & Dt).
  unfold group_total in Gt. rewrite Ek in Gt. cbn [rbind] in Gt.
  unfold pd.getitem in Gt. cbn [columns rows] in Gt. rewrite Ei in Gt.
  cbn [rbind] in Gt. rewrite Dt in Gt. cbn [pd.agg_sum] in Gt.
  injection Gt as <-.
  now rewrite (int_total_Zsum T dte i _ Ei), Gr.
Qed.

Lemma case_input_wf c T :
  rectangular T = true ->
  rectangular (case_input c T) = true /\ clean (case_input c T) = true.
Proof.
  intros R. unfold case_input. split.
  - apply restrict_rectangular. now rewrite fillna_rectangular.
  - apply restrict_clean, fillna_clean.
Qed.

Lemma case_input_int_column c T col :
  int_column T col = true -> int_column (case_input c T) col = true.
Proof.
  unfold int_column. simpl columns.
  destruct (index_of col (columns T)) as [i|]; [|discriminate].
  rewrite !forallb_forall. intros H r I.
  unfold case_input, restrict, pd.fillna in I. simpl in I.
  apply filter_In in I as (I & _). apply in_map_iff in I as (r0 & <- & I0).
  simpl. specialize (H r0 I0).
  assert (N : is_number (nth i (vals r0) CNaN) = true).
  { now destruct (nth i (vals r0) CNaN). }
  now rewrite (fillna_number _ _ N).
Qed.

Lemma rectangular_tables_In g Tc Td Tr name T :
  rectangular_tables g Tc Td Tr = true ->
  In (name, T) (case_tables g Tc Td Tr) -> rectangular T = true.
Proof.
  unfold rectangular_tables. rewrite forallb_forall. intros H I.
  exact (H (name, T) I).
Qed.

(** X10. In a call of [getData] at [state] or [country] granularity that
    returns, on case tables that have the location-key columns and one
    cell per column in every row, with [Lat], [Long] and the selected
    dates distinct labels, every returned table has one row per location
    key of the (normalised, optionally country-filtered) input table, in
    key order; the row holds the key, a cell for [Lat], a cell for [Long]
    and one cell per selected date, and the cell of a date whose column
    in the source table holds integers is the [int64] sum of that column
    over the input rows with the key. *)
Theorem aggregated_rows_hold_group_sums :
  forall (self : CovidData) (h : store) (Tc Td Tr Trt : DataFrame)
         (g : string) (c d : option string) (data : dict loc) (r : option loc),
    at_ h (confirmed_df self) Tc -> at_ h (deaths_df self) Td ->
    at_ h (recovered_df self) Tr -> at_ h (routes_df self) Trt ->
    g = "state" \/ g = "country" ->
    has_location_keys g Tc Td Tr = true ->
    rectangular_tables g Tc Td Tr = true ->
    nodupb ("Lat" :: "Long" :: selected_dates d (date_columns Tc)) = true ->
    fst (getData self g c d h) = Ok (data, r) ->
    forall name l, In (name, l) data ->
      exists T R, In (name, T) (case_tables g Tc Td Tr) /\
        at_ (snd (getData self g c d h)) l R /\
        Forall2 (fun k row => exists mlat mlong sums,
                   vals row = k ++ mlat :: mlong :: sums /\
                   Forall2 (fun dte s =>
                              int_column T dte = true ->
                              s = CInt (wrap64 (int_total (case_input c T) dte
                                                  (rows_at g (case_input c T) k))))
                           (selected_dates d (date_columns Tc)) sums)
                (location_groups g (case_input c T)) (rows R).
Proof.
  intros self h Tc Td Tr Trt g c d data r Ec Ed Er Et Hg _ Rt N F name l I.
  destruct (getData_tables self g c d h Tc Td Tr Trt data r Ec Ed Er Et Hg F)
    as (sel & ro & Es & _ & _ & Tab).
  destruct (select_dates_ok d (date_columns Tc) (select_dates_selector _ _ _ Es) N)
    as (sel' & Es' & Plan & _).
  rewrite Es in Es'. injection Es' as <-.
  destruct (Tab name l I) as (T & R & IT & A & E).
  exists T, R. split; [exact IT|]. split; [exact A|].
  destruct (case_input_wf c T (rectangular_tables_In _ _ _ _ _ _ Rt IT)) as (Rc & Cl).
  eapply Forall2_impl; [|exact (proj2 (regroup_sums g _ _ _ _ _ Rc Cl E Plan))].
  intros k row (mlat & mlong & sums & Ev & Sums).
  exists mlat, mlong, sums. split; [exact Ev|].
  eapply Forall2_impl; [|exact Sums].
  intros dte s Hs Ic. apply Hs. now apply case_input_int_column.
Qed.

Lemma aggregated_rows_hold_group_sums_witness :
  exists T R, In ("confirmed", T) (case_tables "state" ex_confirmed ex_deaths ex_recovered) /\
    at_ (snd (getData ex_self "state" None None ex_store)) 9 R /\
    Forall2 (fun k row => exists mlat mlong sums,
               vals row = k ++ mlat :: mlong :: sums /\
               Forall2 (fun dte s =>
                          int_column T dte = true ->
                          s = CInt (wrap64 (int_total (case_input None T) dte
                                              (rows_at "state" (case_input None T) k))))
                       (selected_dates None (date_columns ex_confirmed)) sums)
            (location_groups "state" (case_input None T)) (rows R).
Proof.
  apply (aggregated_rows_hold_group_sums ex_self ex_store
           ex_confirmed ex_deaths ex_recovered ex_routes "state" None None
           [("confirmed", 9); ("deaths", 11)] (Some 15)).
  - reflexivity.
  - reflexivity.
  - reflexivity.
  - reflexivity.
  - now left.
  - reflexivity.
  - reflexivity.
  - reflexivity.
  - vm_compute. reflexivity.
  - now left.
Defined.

(** ** The selector ["latest"], key by key *)

Lemma single_date_plan by_ x T R :
  regroup_frame by_ (dict_set [("Lat", [Mean]); ("Long", [Mean])] x [Sum])
                ["Lat"; "Long"; x] T = Ok R ->
  pd.agg_plan (dict_set [("Lat", [Mean]); ("Long", [Mean])] x [Sum])
  = ("Lat", Mean) :: ("Long", Mean) :: map (fun y => (y, Sum)) [x].
Proof.
  intros E. destruct (regroup_frame_inv _ _ _ _ _ E) as (G & EG & Lc & _).
  destruct (groupby_agg_inv _ _ _ _ EG) as (_ & _ & _ & _ & _ & Cg & _).
  rewrite Cg, length_map in Lc. revert Lc. cbn [dict_set].
  destruct (String.eqb "Lat" x); [discriminate|].
  destruct (String.eqb "Long" x); [discriminate|]. reflexivity.
Qed.

(** C6. With [specific_date = "latest"] at [state] or [country]
    granularity [getData] returns on well-formed tables.  On case tables
    that have the location-key columns and one cell per column in every
    row, whenever it returns, the confirmed table has a date column, and
    every table of the result has as columns the location-key fields,
    [Lat], [Long] and the last date column of the confirmed table, and
    nothing else; it has one row per location key of the (normalised,
    optionally country-filtered) input table, in key order, and where the
    date column of the source table holds integers, the date cell of the
    row is the [int64] sum of that column over the input rows with the
    key. *)
Theorem latest_aggregates_last_date_column :
  forall (self : CovidData) (h : store) (Tc Td Tr Trt : DataFrame)
         (g : string) (c : option string),
    at_ h (confirmed_df self) Tc -> at_ h (deaths_df self) Td ->
    at_ h (recovered_df self) Tr -> at_ h (routes_df self) Trt ->
    g = "state" \/ g = "country" ->
    (well_formed g c (Some "latest") Tc Td Tr Trt ->
     exists data r, fst (getData self g c (Some "latest") h) = Ok (data, r)) /\
    (has_location_keys g Tc Td Tr = true ->
     rectangular_tables g Tc Td Tr = true ->
     forall data r,
        fst (getData self g c (Some "latest") h) = Ok (data, r) ->
        date_columns Tc <> [] /\
        forall name l, In (name, l) data ->
          exists T R, In (name, T) (case_tables g Tc Td Tr) /\
            at_ (snd (getData self g c (Some "latest") h)) l R /\
            columns R = location_keys g
                        ++ ["Lat"; "Long"; last (date_columns Tc) ""] /\
            Forall2 (fun k row => exists mlat mlong s,
                       vals row = k ++ [mlat; mlong; s] /\
                       (int_column T (last (date_columns Tc) "") = true ->
                        s = CInt (wrap64 (int_total (case_input c T)
                                            (last (date_columns Tc) "")
                                            (rows_at g (case_input c T) k)))))
                    (location_groups g (case_input c T)) (rows R)).
Proof.
  intros self h Tc Td Tr Trt g c Ec Ed Er Et Hg. split.
  - intros W. apply (getData_returns_wf self h Tc Td Tr Trt); auto.
    destruct Hg as [-> | ->]; reflexivity.
  - intros _ Rt data r F.
    destruct (getData_tables self g c (Some "latest") h Tc Td Tr Trt data r
                Ec Ed Er Et Hg F) as (sel & ro & Es & _ & _ & Tab).
    apply select_latest in Es as (Ne & ->). split; [exact Ne|].
    intros name l I. destruct (Tab name l I) as (T & R & IT & A & E).
    exists T, R. split; [exact IT|]. split; [exact A|].
    cbn [fst snd] in E.
    destruct (case_input_wf c T (rectangular_tables_In _ _ _ _ _ _ Rt IT)) as (Rc & Cl).
    destruct (regroup_sums g _ _ _ _ _ Rc Cl E (single_date_plan _ _ _ _ E))
      as (CR & Rows).
    split; [exact CR|].
    eapply Forall2_impl; [|exact Rows].
    intros k row (mlat & mlong & sums & Ev & Sums).
    inversion Sums as [|x s xs ss Hs Tl]; subst. inversion Tl; subst.
    exists mlat, mlong, s. split; [exact Ev|].
    intros Ic. apply Hs. now apply case_input_int_column.
Qed.

Lemma latest_aggregates_last_date_column_witness :
  (exists data r,
      fst (getData ex_self "country" (Some "US") (Some "latest") ex_store)
      = Ok (data, r)) /\
  date_columns ex_confirmed <> [] /\
  exists T R,
    In ("deaths", T) (case_tables "country" ex_confirmed ex_deaths ex_recovered) /\
    at_ (snd (getData ex_self "country" (Some "US") (Some "latest") ex_store)) 16 R /\
    columns R = location_keys "country"
                ++ ["Lat"; "Long"; last (date_columns ex_confirmed) ""] /\
    Forall2 (fun k row => exists mlat mlong s,
               vals row = k ++ [mlat; mlong; s] /\
               (int_column T (last (date_columns ex_confirmed) "") = true ->
                s = CInt (wrap64 (int_total (case_input (Some "US") T)
                                    (last (date_columns ex_confirmed) "")
                                    (rows_at "country" (case_input (Some "US") T) k)))))
            (location_groups "country" (case_input (Some "US") T)) (rows R).
Proof.
  destruct (latest_aggregates_last_date_column ex_self ex_store
              ex_confirmed ex_deaths ex_recovered ex_routes "country" (Some "US")
              eq_refl eq_refl eq_refl eq_refl (or_intror eq_refl)) as (Ret & Tab).
  split.
  - apply Ret. apply ex_well_formed; try reflexivity; discriminate.
  - destruct (Tab eq_refl eq_refl
                  [("confirmed", 14); ("deaths", 16); ("recovered", 18)] (Some 23))
      as (Ne & Rows).
    + vm_compute. reflexivity.
    + split; [exact Ne|]. apply (Rows "deaths" 16). simpl. auto.
Defined.

(** ** A case table without one of the aggregated columns *)

Lemma plan_missing T by_ (plan : list (string * aggfunc)) :
  forallb (fun c => negb (mem c by_)) (map fst plan) = true ->
  has_columns T (map fst plan) = false ->
  exists x, In x (map fst plan) /\ mem x (columns T) = false /\
    rmap (fun p => if mem (fst p) by_ then Raise (KeyError (fst p))
                   else match index_of (fst p) (columns T) with
                        | Some i => Ok (i, snd p)
                        | None => Raise (KeyError (fst p))
                        end) plan
    = Raise (KeyError x).
Proof.
  unfold has_columns.
  induction plan as [|[x f] plan IH]; cbn [map forallb fst snd rmap];
    [discriminate|].
  intros Fr Ms. apply andb_prop in Fr as (Fx & Fr).
  apply negb_true_iff in Fx. rewrite Fx.
  destruct (mem x (columns T)) eqn:M; cbn [andb] in Ms.
  - destruct (IH Fr Ms) as (y & Iy & My & Ey).
    exists y. split; [now right|]. split; [exact My|].
    destruct (mem_index_of _ _ M) as (i & -> & _). cbn [rbind].
    now rewrite Ey.
  - exists x. split; [now left|]. split; [exact M|].
    destruct (index_of x (columns T)) as [i|] eqn:Ei; [|reflexivity].
    apply index_of_mem in Ei. congruence.
Qed.

Lemma regroup_frame_missing T by_ ad cols :
  has_columns T by_ = true ->
  forallb (fun c => negb (mem c by_)) (map fst (pd.agg_plan ad)) = true ->
  has_columns T (map fst (pd.agg_plan ad)) = false ->
  exists x, In x (map fst (pd.agg_plan ad)) /\ mem x (columns T) = false /\
    regroup_frame by_ ad cols T = Raise (KeyError x).
Proof.
  intros Hb Fr Ms.
  destruct (plan_missing T by_ (pd.agg_plan ad) Fr Ms) as (x & Ix & Mx & Ex).
  exists x. split; [exact Ix|]. split; [exact Mx|].
  unfold regroup_frame, pd.groupby_agg.
  destruct (key_indices_ok T by_ Hb) as (ixs & -> & _). cbn [rbind].
  now rewrite Ex.
Qed.

(** X13. The aggregated columns are read off the confirmed table only: at
    [state] or [country] granularity, when the confirmed table can be
    grouped and aggregated but the deaths table, which has the location-key
    columns, lacks [Lat], [Long] or one of the selected dates, [getData]
    raises [KeyError] for such a label. *)
Theorem getData_deaths_missing_column_KeyError :
  forall (self : CovidData) (h : store) (Tc Td Tr Trt : DataFrame)
         (g : string) (c d : option string),
    at_ h (confirmed_df self) Tc -> at_ h (deaths_df self) Td ->
    at_ h (recovered_df self) Tr -> at_ h (routes_df self) Trt ->
    g = "state" \/ g = "country" ->
    filterable c (case_tables g Tc Td Tr) = true ->
    selector_ok d (date_columns Tc) ->
    nodupb ("Lat" :: "Long" :: selected_dates d (date_columns Tc)) = true ->
    groupable (location_keys g)
              ("Lat" :: "Long" :: selected_dates d (date_columns Tc)) Tc = true ->
    has_columns Td (location_keys g) = true ->
    has_columns Td ("Lat" :: "Long" :: selected_dates d (date_columns Tc)) = false ->
    exists x,
      In x ("Lat" :: "Long" :: selected_dates d (date_columns Tc)) /\
      mem x (columns Td) = false /\
      fst (getData self g c d h) = Raise (KeyError x).
Proof.
  intros self h Tc Td Tr Trt g c d Ec Ed Er Et Hg Fl Hd N Gr Hb Ms.
  assert (V : valid_granularity g = true) by (destruct Hg as [-> | ->]; reflexivity).
  set (ds := selected_dates d (date_columns Tc)) in *.
  destruct (select_dates_ok d (date_columns Tc) Hd N) as (sel & Es & Pl & Cs).
  fold ds in Pl, Cs.
  assert (Names : map fst (pd.agg_plan (fst sel)) = "Lat" :: "Long" :: ds).
  { rewrite Pl. cbn [map fst]. do 2 f_equal. rewrite map_map. apply map_id. }
  apply (case_input_groupable c) in Gr.
  unfold groupable in Gr. apply andb_prop in Gr as (Hbc & Hc).
  assert (Fresh : forallb (fun x => negb (mem x (location_keys g)))
                          ("Lat" :: "Long" :: ds) = true).
  { rewrite forallb_forall in *. intros x I. specialize (Hc x I).
    now apply andb_prop in Hc as (Hc & _). }
  (* the confirmed table is regrouped *)
  assert (Rc : exists R, regroup_frame (location_keys g) (fst sel) (snd sel)
                                       (case_input c Tc) = Ok R).
  { apply regroup_frame_ok; auto.
    - rewrite Pl.
      change (("Lat", Mean) :: ("Long", Mean) :: map (fun x => (x, Sum)) ds)
        with (map (fun x => (x, Mean)) ["Lat"; "Long"]
              ++ map (fun x => (x, Sum)) ds).
      rewrite forallb_app, !forallb_map_comp. cbn [fst].
      change ("Lat" :: "Long" :: ds) with (["Lat"; "Long"] ++ ds) in Hc.
      now rewrite forallb_app in Hc.
    - rewrite Pl, Cs. simpl. now rewrite length_map.
    - rewrite Cs. now apply disjoint_sym. }
  destruct Rc as (R & Rc).
  (* the deaths table is not *)
  destruct (regroup_frame_missing (case_input c Td) (location_keys g) (fst sel) (snd sel))
    as (x & Ix & Mx & Rd).
  { exact Hb. }
  { now rewrite Names. }
  { rewrite Names. exact Ms. }
  rewrite Names in Ix. exists x. split; [exact Ix|]. split; [exact Mx|].
  assert (Ea : dict_rmap (aggregate_frame g (fst sel) (snd sel))
                         (case_inputs g c Tc Td Tr) = Raise (KeyError x)).
  { assert (Ci : exists rest, case_inputs g c Tc Td Tr
                   = ("confirmed", case_input c Tc)
                     :: ("deaths", case_input c Td) :: rest).
    { unfold case_inputs, case_tables.
      destruct (String.eqb g "country"); eexists; reflexivity. }
    destruct Ci as (rest & ->). cbn [dict_rmap].
    rewrite !(aggregate_frame_regroup g _ _ _ Hg), Rc. cbn [rbind].
    now rewrite Rd. }
  assert (E : getData_frames Tc Td Tr Trt g c d = Raise (KeyError x)).
  { unfold getData_frames. rewrite V. cbn [negb].
    rewrite (case_tables_prepared g c Tc Td Tr Fl). cbn [rbind].
    rewrite case_inputs_confirmed. cbn [rbind].
    change (columns (case_input c Tc)) with (columns Tc).
    fold (date_columns Tc). rewrite Es. cbn [rbind]. now rewrite Ea. }
  destruct (getData_sim self g c d h Tc Td Tr Trt Ec Ed Er Et) as (ext & _ & X).
  now rewrite E in X.
Qed.

Lemma getData_deaths_missing_column_KeyError_witness :
  exists x,
    In x ("Lat" :: "Long" :: selected_dates None (date_columns ex_confirmed)) /\
    mem x (columns ex_deaths_short) = false /\
    fst (getData (mkCovidData 0 4 2 3) "state" None None
                 (ex_store ++ [ex_deaths_short]))
    = Raise (KeyError x).
Proof.
  apply (getData_deaths_missing_column_KeyError (mkCovidData 0 4 2 3)
           (ex_store ++ [ex_deaths_short])
           ex_confirmed ex_deaths_short ex_recovered ex_routes "state" None None).
  - reflexivity.
  - reflexivity.
  - reflexivity.
  - reflexivity.
  - now left.
  - reflexivity.
  - exact I.
  - reflexivity.
  - reflexivity.
  - reflexivity.
  - reflexivity.
Defined.

(** ** One row per location key, in key order *)

(** X14. In a call of [getData] at [state] or [country] granularity that
    returns, on case tables that have the location-key columns of the
    granularity, the rows of every returned table start with location keys that
    are pairwise different and in nondecreasing order, each the key of a row
    of the (normalised, optionally country-filtered) input table; and when
    the source table has one cell per column in every row, every input row
    has the key of one of the returned rows. *)
Theorem aggregated_rows_one_per_key_in_order :
  forall (self : CovidData) (h : store) (Tc Td Tr Trt : DataFrame)
         (g : string) (c d : option string) (data : dict loc) (r : option loc),
    at_ h (confirmed_df self) Tc -> at_ h (deaths_df self) Td ->
    at_ h (recovered_df self) Tr -> at_ h (routes_df self) Trt ->
    g = "state" \/ g = "country" ->
    has_location_keys g Tc Td Tr = true ->
    fst (getData self g c d h) = Ok (data, r) ->
    forall name l, In (name, l) data ->
      exists T R ks, In (name, T) (case_tables g Tc Td Tr) /\
        at_ (snd (getData self g c d h)) l R /\
        Forall2 (fun k row => firstn (length (location_keys g)) (vals row) = k)
                ks (rows R) /\
        distinct ks /\ sorted_keys ks /\
        (forall k, In k ks ->
           exists r0, In r0 (rows (case_input c T)) /\
             k = map (fun col => field (case_input c T) col r0) (location_keys g)) /\
        (rectangular T = true ->
         forall r0, In r0 (rows (case_input c T)) ->
           exists k, In k ks /\
             key_eqb (map (fun col => field (case_input c T) col r0) (location_keys g))
                     k = true).
Proof.
  intros self h Tc Td Tr Trt g c d data r Ec Ed Er Et Hg _ F name l I.
  destruct (getData_tables self g c d h Tc Td Tr Trt data r Ec Ed Er Et Hg F)
    as (sel & ro & _ & _ & _ & Tab).
  destruct (Tab name l I) as (T & R & IT & A & E).
  destruct (regroup_frame_inv _ _ _ _ _ E) as (G & EG & _ & ER).
  destruct (groupby_agg_inv _ _ _ _ EG) as (ixs & plan & Ek & _ & _ & _ & Rs).
  set (T1 := case_input c T) in *.
  exists T, R, (pd.group_keys ixs (rows T1)).
  split; [exact IT|]. split; [exact A|]. split; [|split; [|split; [|split]]].
  - subst R. cbn [rows].
    apply (Forall2_map_r_In _ _ _ _ _ Rs). intros k r0 Ik (Ki & _).
    cbn [vals]. rewrite Ki.
    apply group_keys_key in Ik as (r1 & _ & Kr).
    assert (L : length k = length (location_keys g)).
    { rewrite Kr. unfold pd.key_of. rewrite length_map.
      now apply key_indices_length in Ek. }
    rewrite <- L, firstn_app, Nat.sub_diag, firstn_all. cbn [firstn].
    apply app_nil_r.
  - apply distinct_sort, uniq_distinct.
  - apply sort_keys_sorted.
  - intros k Ik. apply group_keys_key in Ik as (r0 & I0 & Kr).
    exists r0. split; [exact I0|]. rewrite Kr. now apply key_of_fields.
  - intros Rect r0 I0.
    assert (Keyed : pd.keyed ixs (rows T1) = rows T1).
    { apply keyed_all.
      - apply restrict_rectangular. now rewrite fillna_rectangular.
      - apply restrict_clean, fillna_clean.
      - now apply (key_indices_lt T1 (location_keys g)). }
    fold T1. rewrite <- (key_of_fields T1 (location_keys g) ixs r0 Ek).
    destruct (uniq_covers _ (keyed_nan_free ixs (rows T1)) (pd.key_of ixs r0))
      as (k & Ik & Ekk).
    { rewrite Keyed. now apply in_map. }
    exists k. split; [|exact Ekk]. unfold pd.group_keys. now apply sort_keys_In.
Qed.

Lemma aggregated_rows_one_per_key_in_order_witness :
  exists T R ks,
    In ("deaths", T) (case_tables "country" ex_confirmed ex_deaths ex_recovered) /\
    at_ (snd (getData ex_self "country" (Some "US") (Some "latest") ex_store)) 16 R /\
    Forall2 (fun k row => firstn (length (location_keys "country")) (vals row) = k)
            ks (rows R) /\
    distinct ks /\ sorted_keys ks /\
    (forall k, In k ks ->
       exists r0, In r0 (rows (case_input (Some "US") T)) /\
         k = map (fun col => field (case_input (Some "US") T) col r0)
                 (location_keys "country")) /\
    (rectangular T = true ->
     forall r0, In r0 (rows (case_input (Some "US") T)) ->
       exists k, In k ks /\
         key_eqb (map (fun col => field (case_input (Some "US") T) col r0)
                      (location_keys "country")) k = true).
Proof.
  apply (aggregated_rows_one_per_key_in_order ex_self ex_store
           ex_confirmed ex_deaths ex_recovered ex_routes "country"
           (Some "US") (Some "latest")
           [("confirmed", 14); ("deaths", 16); ("recovered", 18)] (Some 23)).
  - reflexivity.
  - reflexivity.
  - reflexivity.
  - reflexivity.
  - now right.
  - reflexivity.
  - vm_compute. reflexivity.
  - right. now left.
Defined.
